(** * MultiView-Bench: the active evidence-aggregation agent

    A shallow embedding of [src/agent/belief_state.py], [src/agent/verifier.py]
    and [src/agent/agent_main.py], and the properties of the belief update,
    the answer parsers and the control loop that the specification states.

    Conventions of the embedding.
    - Python floats are idealised as real numbers ([R]); integer vote counts
      are [Z] and enter the arithmetic through [IZR].
    - The string-keyed dictionaries [{'X':..,'Y':..,'Z':..}] and
      [{'+':..,'0':..,'-':..}] have a fixed key set and are records
      ([PerAxis], [PerSign]) whose fields come in the insertion order of the
      source.
    - A Python exception is a value of [exn]; a call that may raise returns a
      [Result].  Stateful code passes its state explicitly and gives the
      state back also when it raises. *)

From Stdlib Require Import Reals Lra Lia ZArith String Ascii List Bool.
Import ListNotations.

Set Implicit Arguments.

(** ** Exceptions and results *)

Inductive exn : Type :=
| ZeroDivisionError
| ValueError (msg : string)
| KeyError (key : string)
| TypeError
| UnboundLocalError (name : string)
| CollaboratorError (msg : string).

Inductive Result (A : Type) : Type :=
| Ok (a : A)
| Err (e : exn).

Arguments Ok {A} a.
Arguments Err {A} e.

Definition bind {A B : Type} (m : Result A) (k : A -> Result B) : Result B :=
  match m with
  | Ok a => k a
  | Err e => Err e
  end.

Declare Scope result_scope.
Delimit Scope result_scope with result.
Notation "x <- m ;; k" := (bind m (fun x => k))
  (at level 61, m at next level, right associativity) : result_scope.
Notation "' p <- m ;; k" := (bind m (fun x => match x with p => k end))
  (at level 61, p pattern, m at next level, right associativity) : result_scope.

(** ** Axes and signs *)

Inductive axis : Type := aX | aY | aZ.
Inductive sign : Type := Plus | Zero | Minus.

Definition axes : list axis := [aX; aY; aZ].

Definition axis_eqb (a b : axis) : bool :=
  match a, b with
  | aX, aX | aY, aY | aZ, aZ => true
  | _, _ => false
  end.

Definition sign_eqb (a b : sign) : bool :=
  match a, b with
  | Plus, Plus | Zero, Zero | Minus, Minus => true
  | _, _ => false
  end.

(** Position of a sign in the order ['+', '0', '-'] in which every
    sign-keyed dictionary of the source is built. *)
Definition sign_index (s : sign) : nat :=
  match s with Plus => 0 | Zero => 1 | Minus => 2 end.

(** A dictionary keyed by the three signs. *)
Record PerSign (A : Type) : Type := mkPerSign {
  atPlus : A;
  atZero : A;
  atMinus : A
}.

(** A dictionary keyed by the three axes. *)
Record PerAxis (A : Type) : Type := mkPerAxis {
  atX : A;
  atY : A;
  atZ : A
}.

Definition sget {A} (d : PerSign A) (s : sign) : A :=
  match s with
  | Plus => atPlus d
  | Zero => atZero d
  | Minus => atMinus d
  end.

Definition sset {A} (d : PerSign A) (s : sign) (v : A) : PerSign A :=
  match s with
  | Plus => mkPerSign v (atZero d) (atMinus d)
  | Zero => mkPerSign (atPlus d) v (atMinus d)
  | Minus => mkPerSign (atPlus d) (atZero d) v
  end.

Definition aget {A} (d : PerAxis A) (a : axis) : A :=
  match a with
  | aX => atX d
  | aY => atY d
  | aZ => atZ d
  end.

Definition aset {A} (d : PerAxis A) (a : axis) (v : A) : PerAxis A :=
  match a with
  | aX => mkPerAxis v (atY d) (atZ d)
  | aY => mkPerAxis (atX d) v (atZ d)
  | aZ => mkPerAxis (atX d) (atY d) v
  end.

(** [d.values()] of a sign-keyed dictionary, in insertion order. *)
Definition values {A} (d : PerSign A) : list A :=
  [atPlus d; atZero d; atMinus d].

(** ** Checked arithmetic of the [math] module and of float division *)

Open Scope R_scope.

(** [x / y] on floats raises [ZeroDivisionError] when [y] is zero. *)
Definition float_div (x y : R) : Result R :=
  if Req_dec_T y 0 then Err ZeroDivisionError else Ok (x / y).

(** [math.sqrt] raises [ValueError] below zero. *)
Definition math_sqrt (x : R) : Result R :=
  if Rlt_dec x 0 then Err (ValueError "math domain error") else Ok (sqrt x).

(** [math.log] raises [ValueError] at and below zero. *)
Definition math_log (x : R) : Result R :=
  if Rlt_dec 0 x then Ok (ln x) else Err (ValueError "math domain error").

(** [x ** g] on floats.  A positive base gives [exp (g * ln x)]; a zero base
    gives 1 for a zero exponent, 0 for a positive one and raises for a
    negative one.  A negative base gives a real number only for an integral
    exponent; otherwise Python builds a complex number, on which the
    comparison [neff > 0] of [update] raises [TypeError]: the embedding has
    no complex numbers and raises at once.  Both callers pass a base that is
    never negative ([wilson_base_nonneg], [entropy_base_unit]). *)
Definition float_pow (x g : R) : Result R :=
  if Rlt_dec 0 x then Ok (Rpower x g)
  else if Req_dec_T x 0 then
    if Rlt_dec g 0 then Err ZeroDivisionError
    else if Req_dec_T g 0 then Ok 1
    else Ok 0
  else if Req_dec_T (IZR (Int_part g)) g then Ok (powerRZ x (Int_part g))
  else Err TypeError.

(** [sum(xs)] on floats and on integers: a left fold from 0. *)
Definition sumR (xs : list R) : R := fold_left Rplus xs 0.
Definition sumZ (xs : list Z) : Z := fold_left Z.add xs 0%Z.

(** [max(items, key=lambda x: x[1])]: the first item whose key is maximal;
    a later item replaces the current one only when its key is strictly
    greater. *)
Definition max_by_snd {A} (first : A * R) (rest : list (A * R)) : A * R :=
  fold_left (fun best x => if Rlt_dec (snd best) (snd x) then x else best)
            rest first.

(** ** belief_state.py *)

Module BeliefState.

Record t : Type := mk {
  alpha : PerAxis (PerSign R);
  lam : R;
  gamma : R;
  method : string
}.

Definition VoteTally : Type := PerSign Z.
Definition AxisCounts : Type := PerAxis VoteTally.

(** [__init__]: every pseudo-count starts at [lam]. *)
Definition init (lam gamma : R) (method : string) : t :=
  let prior := mkPerSign lam lam lam in
  mk (mkPerAxis prior prior prior) lam gamma method.

(** [BeliefState()] with the default arguments. *)
Definition default : t := init 1 1 "wilson".

Definition z : R := 196 / 100.

(** The Wilson score lower bound of lines 19-22, for [phat = kmax / n].
    Its divisors [n], [2*n], [4*n*n] are non-zero behind the guard
    [n == 0], and [1 + z*z/n] is non-zero for every integer [n]. *)
Definition wilson_radicand (phat n : R) : R :=
  (phat * (1 - phat)) / n + (z * z) / (4 * n * n).

Definition wilson_lb (phat n root : R) : R :=
  (phat + z * z / (2 * n) - z * root) / (1 + z * z / n).

Definition wilson_base (lb : R) : R :=
  Rmax 0 ((Rmax lb (1 / 3) - 1 / 3) / (2 / 3)).

Definition _wilson_neff (self : t) (counts : VoteTally) : Result (R * R) :=
  let kplus := atPlus counts in
  let kzero := atZero counts in
  let kminus := atMinus counts in
  let n := (kplus + kzero + kminus)%Z in
  if (n =? 0)%Z then Ok (0, 0)
  else
    let kmax := Z.max (Z.max kplus kzero) kminus in
    let phat := IZR kmax / IZR n in
    (root <- math_sqrt (wilson_radicand phat (IZR n)) ;;
     let lb := wilson_lb phat (IZR n) root in
     confidence <- float_pow (wilson_base lb) (gamma self) ;;
     let neff := IZR n * confidence in
     Ok (neff, confidence))%result.

(** The smoothed proportions [(counts[s] + lam) / (n + 3*lam)] for the
    three signs, computed in the order ['+', '0', '-']. *)
Definition smoothed (self : t) (counts : VoteTally) (n : Z)
  : Result (PerSign R) :=
  (pp <- float_div (IZR (atPlus counts) + lam self) (IZR n + 3 * lam self) ;;
   p0 <- float_div (IZR (atZero counts) + lam self) (IZR n + 3 * lam self) ;;
   pm <- float_div (IZR (atMinus counts) + lam self) (IZR n + 3 * lam self) ;;
   Ok (mkPerSign pp p0 pm))%result.

Definition entropy_terms (p : PerSign R) : Result R :=
  (tp <- math_log (atPlus p) ;;
   t0 <- math_log (atZero p) ;;
   tm <- math_log (atMinus p) ;;
   Ok (sumR [atPlus p * tp; atZero p * t0; atMinus p * tm]))%result.

Definition _entropy_neff (self : t) (counts : VoteTally) : Result (R * R) :=
  let kplus := atPlus counts in
  let kzero := atZero counts in
  let kminus := atMinus counts in
  let n := (kplus + kzero + kminus)%Z in
  if (n =? 0)%Z then Ok (0, 0)
  else
    (p <- smoothed self counts n ;;
     s <- entropy_terms p ;;
     let H := - s in
     let Hmax := ln 3 in
     confidence <- float_pow (1 - H / Hmax) (gamma self) ;;
     let neff := IZR n * confidence in
     Ok (neff, confidence))%result.

(** One round of the loop of [update], for axis [A]: the confidence of the
    axis and the belief after the round.  The three proportions are
    computed before the first pseudo-count is touched, so a raise leaves
    the belief of the axis as it was. *)
Definition update_axis (self : t) (A : axis) (counts : VoteTally)
  : Result R * t :=
  let r := if String.eqb (method self) "wilson"
           then _wilson_neff self counts
           else _entropy_neff self counts in
  match r with
  | Err e => (Err e, self)
  | Ok (neff, confidence) =>
      let n := sumZ (values counts) in
      if (0 <? n)%Z then
        if Rlt_dec 0 neff then
          match smoothed self counts n with
          | Err e => (Err e, self)
          | Ok p_hat =>
              let a := aget (alpha self) A in
              let a' := mkPerSign (atPlus a + neff * atPlus p_hat)
                                  (atZero a + neff * atZero p_hat)
                                  (atMinus a + neff * atMinus p_hat) in
              (Ok confidence,
               mk (aset (alpha self) A a') (lam self) (gamma self)
                  (method self))
          end
        else (Ok confidence, self)
      else (Ok confidence, self)
  end.

(** [update]: the rounds for X, Y and Z in turn; the first raise ends the
    call and keeps what earlier rounds did. *)
Definition update (self : t) (axis_counts : AxisCounts)
  : Result (PerAxis R) * t :=
  match update_axis self aX (atX axis_counts) with
  | (Err e, s1) => (Err e, s1)
  | (Ok cx, s1) =>
      match update_axis s1 aY (atY axis_counts) with
      | (Err e, s2) => (Err e, s2)
      | (Ok cy, s2) =>
          match update_axis s2 aZ (atZ axis_counts) with
          | (Err e, s3) => (Err e, s3)
          | (Ok cz, s3) => (Ok (mkPerAxis cx cy cz), s3)
          end
      end
  end.

(** The total pseudo-count mass [sum(self.alpha[A].values())]. *)
Definition mass (self : t) (A : axis) : R :=
  sumR (values (aget (alpha self) A)).

Definition posterior_axis (self : t) (A : axis) : Result (PerSign R) :=
  let ssum := mass self A in
  let a := aget (alpha self) A in
  (pp <- float_div (atPlus a) ssum ;;
   p0 <- float_div (atZero a) ssum ;;
   pm <- float_div (atMinus a) ssum ;;
   Ok (mkPerSign pp p0 pm))%result.

Definition get_posterior (self : t) : Result (PerAxis (PerSign R)) :=
  (px <- posterior_axis self aX ;;
   py <- posterior_axis self aY ;;
   pz <- posterior_axis self aZ ;;
   Ok (mkPerAxis px py pz))%result.

(** [max(probs.items(), key=lambda x: x[1])] on one axis. *)
Definition top (probs : PerSign R) : sign * R :=
  max_by_snd (Plus, atPlus probs) [(Zero, atZero probs); (Minus, atMinus probs)].

Definition get_decision (self : t)
  : Result (PerAxis sign * PerAxis R) :=
  (post <- get_posterior self ;;
   let tx := top (atX post) in
   let ty := top (atY post) in
   let tz := top (atZ post) in
   Ok (mkPerAxis (fst tx) (fst ty) (fst tz),
       mkPerAxis (snd tx) (snd ty) (snd tz)))%result.

(** The test of line 95 for one axis: [top_p >= tau and mass >= kappa_min]. *)
Definition axis_ok (self : t) (top_p tau kappa_min : R) (A : axis) : bool :=
  if Rge_dec top_p tau then
    if Rge_dec (mass self A) kappa_min then true else false
  else false.

Definition should_stop (self : t) (tau kappa_min : R)
  : Result (bool * PerAxis sign) :=
  ('(decision, top_ps) <- get_decision self ;;
   let ok := fold_left
               (fun ok A =>
                  if negb (axis_ok self (aget top_ps A) tau kappa_min A)
                  then false else ok)
               axes true in
   Ok (ok, decision))%result.

End BeliefState.

(** ** Python strings

    A [str] is a [string]; a character is its code point below 256. *)

Open Scope string_scope.

Module PyStr.

(** [str.isspace] on one character, which is also the class [\s] of a
    [str] pattern: tab to carriage return, the four separators 28-31,
    space, NEL and the no-break space. *)
Definition is_space (c : ascii) : bool :=
  let n := N_of_ascii c in
  ((9 <=? n) && (n <=? 13) || (28 <=? n) && (n <=? 32)
   || (n =? 133) || (n =? 160))%N.

Definition is_empty (s : string) : bool :=
  match s with
  | EmptyString => true
  | String _ _ => false
  end.

Fixpoint lstrip (s : string) : string :=
  match s with
  | EmptyString => EmptyString
  | String c s' => if is_space c then lstrip s' else s
  end.

Fixpoint rstrip (s : string) : string :=
  match s with
  | EmptyString => EmptyString
  | String c s' =>
      let r := rstrip s' in
      if is_space c && is_empty r then EmptyString else String c r
  end.

(** [s.strip()] *)
Definition strip (s : string) : string := rstrip (lstrip s).

(** [s.split(",")]: never empty, one more field than there are commas. *)
Fixpoint split_comma (s : string) : list string :=
  match s with
  | EmptyString => [EmptyString]
  | String c s' =>
      match split_comma s' with
      | [] => [String c EmptyString]
      | h :: t => if Ascii.eqb c "," then EmptyString :: h :: t
                  else String c h :: t
      end
  end.

Definition startswith_char (c : ascii) (s : string) : bool :=
  match s with
  | String d _ => Ascii.eqb c d
  | EmptyString => false
  end.

Fixpoint endswith_char (c : ascii) (s : string) : bool :=
  match s with
  | EmptyString => false
  | String d EmptyString => Ascii.eqb c d
  | String _ s' => endswith_char c s'
  end.

(** [s[:-1]] and [s[1:-1]] *)
Fixpoint drop_last (s : string) : string :=
  match s with
  | EmptyString => EmptyString
  | String _ EmptyString => EmptyString
  | String c s' => String c (drop_last s')
  end.

Definition slice_1_m1 (s : string) : string :=
  match s with
  | EmptyString => EmptyString
  | String _ s' => drop_last s'
  end.

(** [s[len(p):]] when [s] starts with [p]. *)
Fixpoint strip_prefix (p s : string) : option string :=
  match p, s with
  | EmptyString, _ => Some s
  | String a p', String b s' =>
      if Ascii.eqb a b then strip_prefix p' s' else None
  | String _ _, EmptyString => None
  end.

End PyStr.

(** ** The patterns of the [re] module that the parsers use

    A pattern is a sequence of literals and of starred character classes,
    greedy ([c*]) or lazy ([c*?]).  The matcher is the backtracking matcher
    of [re]: a greedy star first takes all it can and gives back one
    character at a time, a lazy star first takes nothing and takes one more
    character at a time; the first way to match the whole pattern wins.  The
    result lists the text that each star matched. *)

Module Re.

Inductive item : Type :=
| Lit (s : string)
| StarGreedy (cls : ascii -> bool)
| StarLazy (cls : ascii -> bool).

Definition pattern : Type := list item.

Definition captures : Type := list string.

Definition with_group (m : string) (r : option captures)
  : option (string * captures) :=
  match r with
  | Some caps => Some (m, caps)
  | None => None
  end.

Fixpoint star_greedy (cls : ascii -> bool) (k : string -> option captures)
         (s : string) : option (string * captures) :=
  match s with
  | EmptyString => with_group EmptyString (k s)
  | String c s' =>
      if cls c then
        match star_greedy cls k s' with
        | Some (m, caps) => Some (String c m, caps)
        | None => with_group EmptyString (k s)
        end
      else with_group EmptyString (k s)
  end.

Fixpoint star_lazy (cls : ascii -> bool) (k : string -> option captures)
         (s : string) : option (string * captures) :=
  match k s with
  | Some caps => Some (EmptyString, caps)
  | None =>
      match s with
      | EmptyString => None
      | String c s' =>
          if cls c then
            match star_lazy cls k s' with
            | Some (m, caps) => Some (String c m, caps)
            | None => None
            end
          else None
      end
  end.

(** Match the pattern at the start of [s]. *)
Fixpoint match_here (p : pattern) (s : string) : option captures :=
  match p with
  | [] => Some []
  | Lit l :: p' =>
      match PyStr.strip_prefix l s with
      | Some s' => match_here p' s'
      | None => None
      end
  | StarGreedy cls :: p' =>
      match star_greedy cls (match_here p') s with
      | Some (m, caps) => Some (m :: caps)
      | None => None
      end
  | StarLazy cls :: p' =>
      match star_lazy cls (match_here p') s with
      | Some (m, caps) => Some (m :: caps)
      | None => None
      end
  end.

(** [re.search]: the match at the leftmost position that has one. *)
Fixpoint search (p : pattern) (s : string) : option captures :=
  match match_here p s with
  | Some caps => Some caps
  | None =>
      match s with
      | EmptyString => None
      | String _ s' => search p s'
      end
  end.

(** [.] without [re.DOTALL], and with it. *)
Definition dot (c : ascii) : bool := negb (Ascii.eqb c "010").
Definition dot_all (c : ascii) : bool := true.

End Re.

(** ** JSON values, as [json.loads] builds them *)

#[warnings="-register-all"] Inductive json : Type :=
| JNull
| JBool (b : bool)
| JNum (x : R)
| JStr (s : string)
| JArr (elems : list json)
| JObj (fields : list (string * json)).

Module Json.

Fixpoint lookup (key : string) (fields : list (string * json))
  : option json :=
  match fields with
  | [] => None
  | (k, v) :: rest => if String.eqb k key then Some v else lookup key rest
  end.

(** [v[key]] for a string key: only a dict can be indexed by a string. *)
Definition getitem (v : json) (key : string) : Result json :=
  match v with
  | JObj fields =>
      match lookup key fields with
      | Some x => Ok x
      | None => Err (KeyError key)
      end
  | _ => Err TypeError
  end.

(** [v == s] for a string literal [s]. *)
Definition eq_str (v : json) (s : string) : bool :=
  match v with
  | JStr s' => String.eqb s' s
  | _ => false
  end.

(** The value of [v] as an operand of [v + d] for a number [d]: only
    numbers and booleans can be added to a number. *)
Definition as_number (v : json) : Result R :=
  match v with
  | JNum x => Ok x
  | JBool true => Ok 1%R
  | JBool false => Ok 0%R
  | _ => Err TypeError
  end.

End Json.

(** ** verifier.py *)

Module Verifier.

(** The result of [parse_answer]: a dictionary from the axes found to
    their signs. *)
Definition Labels : Type := PerAxis (option sign).

Definition no_labels : Labels := mkPerAxis None None None.

Definition sign_of_char (c : ascii) : option sign :=
  if Ascii.eqb c "+" then Some Plus
  else if Ascii.eqb c "-" then Some Minus
  else if Ascii.eqb c "0" then Some Zero
  else None.

Definition axis_of_char (c : ascii) : option axis :=
  if Ascii.eqb c "X" then Some aX
  else if Ascii.eqb c "Y" then Some aY
  else if Ascii.eqb c "Z" then Some aZ
  else None.

(** [re.match(r"^([+\-0])([XYZ])$", part)]; [$] also matches before a
    final newline. *)
Definition match_token (part : string) : option (sign * axis) :=
  match part with
  | String c1 (String c2 rest) =>
      match sign_of_char c1, axis_of_char c2 with
      | Some s, Some a =>
          match rest with
          | EmptyString => Some (s, a)
          | String nl EmptyString =>
              if Ascii.eqb nl "010" then Some (s, a) else None
          | _ => None
          end
      | _, _ => None
      end
  | _ => None
  end.

(** [<answer>\s*(.*?)\s*</answer>] *)
Definition answer_pattern : Re.pattern :=
  [Re.Lit "<answer>"; Re.StarGreedy PyStr.is_space; Re.StarLazy Re.dot;
   Re.StarGreedy PyStr.is_space; Re.Lit "</answer>"].

(** [<answer>(.*?)</answer>] with [re.DOTALL] *)
Definition answer_pattern_json : Re.pattern :=
  [Re.Lit "<answer>"; Re.StarLazy Re.dot_all; Re.Lit "</answer>"].

Definition parse_answer (response : string) : Labels :=
  let content :=
    match Re.search answer_pattern response with
    | Some (_ :: group1 :: _) => group1
    | _ => PyStr.strip response
    end in
  let content := PyStr.strip content in
  let content :=
    if PyStr.startswith_char "(" content && PyStr.endswith_char ")" content
    then PyStr.slice_1_m1 content else content in
  let parts :=
    map PyStr.strip
        (filter (fun p => negb (PyStr.is_empty (PyStr.strip p)))
                (PyStr.split_comma content)) in
  fold_left
    (fun result part =>
       match match_token part with
       | Some (s, a) => aset result a (Some s)
       | None => result
       end)
    parts no_labels.

Definition no_tags_error : exn :=
  ValueError "No <answer>...</answer> tags found in response".

Definition invalid_json_error : exn :=
  ValueError "Invalid JSON in answer tags".

Section WithJsonLoads.

(** [json.loads] of the standard library: [None] stands for its
    [JSONDecodeError]. *)
Variable json_loads : string -> option json.

Definition parse_answer_json (llm_response : string) : Result json :=
  match Re.search answer_pattern_json llm_response with
  | Some (group1 :: _) =>
      let answer_content := PyStr.strip group1 in
      match json_loads answer_content with
      | Some v => Ok v
      | None => Err invalid_json_error
      end
  | _ => Err no_tags_error
  end.

End WithJsonLoads.

(** [check_answer] *)
Definition check_answer (groundtruth response : string) : bool :=
  let parsed := parse_answer response in
  let gt := parse_answer groundtruth in
  forallb
    (fun a =>
       match aget parsed a with
       | Some s =>
           match aget gt a with
           | Some s' => sign_eqb s' s
           | None => false
           end
       | None => true
       end)
    axes.

End Verifier.

(** ** agent_main.py *)

Module Agent.

(** One entry of [self.history]. *)
Record HistoryEntry : Type := mkEntry {
  step : Z;
  view_az : json;
  view_el : json;
  answer : Verifier.Labels;
  confidence : PerAxis R
}.

(** The agent object. *)
Record t : Type := mk {
  belief : BeliefState.t;
  history : list HistoryEntry;
  model_name : string;
  tau : R;
  kappa_min : R;
  steps : Z
}.

(** [Agent(model_name, tau, kappa_min)] *)
Definition init (model_name : string) (tau kappa_min : R) : t :=
  mk BeliefState.default [] model_name tau kappa_min 1.

(** What [propose_view] puts into the user prompt of the planner: the
    fields of [LLM_FIRST_TURN] or of [LLM_INTERMEDIATE_TURN]. *)
Inductive PlannerPrompt : Type :=
| FirstTurn (target central : string) (tau : R)
| IntermediateTurn (tau : R) (belief_state : PerAxis (PerSign R))
                   (history : list HistoryEntry).

(** What [perceive] sends to the perception model. *)
Record PerceptionPrompt : Type := mkPerception {
  vlm_target : string;
  vlm_central : string;
  vlm_axis : json;
  vlm_image : string
}.

(** The collaborators of the loop.  [World] is everything outside the
    agent: the state of the model services, of the renderer and of the
    random generator.  A collaborator reads and changes the world and may
    raise. *)
Record Collaborators (World : Type) : Type := mkCollaborators {
  call_llm : string -> PlannerPrompt -> World -> Result string * World;
  call_vlm : string -> PerceptionPrompt -> World -> Result string * World;
  env_capture : R -> R -> World -> Result string * World;
  random_uniform : R -> R -> World -> R * World;
  json_loads : string -> option json
}.

Section Run.

Variable World : Type.
Variable collab : Collaborators World.

(** Computations of the agent: they read and change the agent object
    and the world, and return a value or raise. *)
Definition M (A : Type) : Type := t * World -> Result A * (t * World).

Definition ret {A} (a : A) : M A := fun s => (Ok a, s).

Definition raise {A} (e : exn) : M A := fun s => (Err e, s).

Definition mbind {A B} (m : M A) (k : A -> M B) : M B :=
  fun s =>
    match m s with
    | (Ok a, s') => k a s'
    | (Err e, s') => (Err e, s')
    end.

Definition lift {A} (r : Result A) : M A := fun s => (r, s).

Definition get_self : M t := fun s => (Ok (fst s), s).

Definition set_self (self : t) : M unit := fun s => (Ok tt, (self, snd s)).

(** A call of a collaborator. *)
Definition call {A} (f : World -> Result A * World) : M A :=
  fun s => let (r, w) := f (snd s) in (r, (fst s, w)).

Notation "x <- m ;; k" := (mbind m (fun x => k))
  (at level 61, m at next level, right associativity).
Notation "m1 ;;; m2" := (mbind m1 (fun _ => m2))
  (at level 61, right associativity).

Definition propose_view (central target : string) : M string :=
  self <- get_self ;;
  match history self with
  | [] =>
      call (call_llm collab (model_name self)
                     (FirstTurn target central (tau self)))
  | _ :: _ =>
      belief_state <- lift (BeliefState.get_posterior (belief self)) ;;
      call (call_llm collab (model_name self)
                     (IntermediateTurn (tau self) belief_state
                                       (history self)))
  end.

Definition perceive (img_path central target : string) (focus_axis : json)
  : M string :=
  self <- get_self ;;
  call (call_vlm collab (model_name self)
                 (mkPerception target central focus_axis img_path)).

(** [generate_jitter_offsets(m, r_az, r_el)] of utils.py *)
Fixpoint jitter_loop (m : nat) (r_az r_el : R) : M (list (R * R)) :=
  match m with
  | O => ret []
  | S m' =>
      daz <- call (fun w => let (x, w') := random_uniform collab (- r_az) r_az w
                            in (Ok x, w')) ;;
      del_ <- call (fun w => let (x, w') := random_uniform collab (- r_el) r_el w
                             in (Ok x, w')) ;;
      rest <- jitter_loop m' r_az r_el ;;
      ret ((daz, del_) :: rest)
  end.

Definition generate_jitter_offsets (m : Z) (r_az r_el : R)
  : M (list (R * R)) :=
  jitter_loop (Z.to_nat m) r_az r_el.

(** [axis_counts[axis][sign] += 1] for every item of [labels]. *)
Definition tally_axis (counts : BeliefState.VoteTally) (l : option sign)
  : BeliefState.VoteTally :=
  match l with
  | Some s => sset counts s (sget counts s + 1)%Z
  | None => counts
  end.

Definition tally (axis_counts : BeliefState.AxisCounts)
           (labels : Verifier.Labels) : BeliefState.AxisCounts :=
  mkPerAxis (tally_axis (atX axis_counts) (atX labels))
            (tally_axis (atY axis_counts) (atY labels))
            (tally_axis (atZ axis_counts) (atZ labels)).

Definition zero_tally : BeliefState.VoteTally := mkPerSign 0%Z 0%Z 0%Z.

Definition zero_counts : BeliefState.AxisCounts :=
  mkPerAxis zero_tally zero_tally zero_tally.

Definition is_zero_offset (daz del_ : R) : bool :=
  if Req_dec_T daz 0 then if Req_dec_T del_ 0 then true else false
  else false.

(** The loop over [offsets + [(0, 0)]].  [view_ans] is unbound ([None])
    until an offset [(0, 0)] has been seen. *)
Fixpoint vote (az el focus_axis : json) (central target : string)
         (offsets : list (R * R))
         (axis_counts : BeliefState.AxisCounts)
         (view_ans : option Verifier.Labels)
  : M (BeliefState.AxisCounts * option Verifier.Labels) :=
  match offsets with
  | [] => ret (axis_counts, view_ans)
  | (daz, del_) :: rest =>
      a <- lift (Json.as_number az) ;;
      e <- lift (Json.as_number el) ;;
      img_path <- call (env_capture collab (a + daz) (e + del_)) ;;
      ans <- perceive img_path central target focus_axis ;;
      let labels := Verifier.parse_answer ans in
      let axis_counts := tally axis_counts labels in
      let view_ans :=
        if is_zero_offset daz del_ then Some labels else view_ans in
      vote az el focus_axis central target rest axis_counts view_ans
  end.

Definition belief_update (axis_counts : BeliefState.AxisCounts)
  : M (PerAxis R) :=
  fun s =>
    let self := fst s in
    let (r, b) := BeliefState.update (belief self) axis_counts in
    (r, (mk b (history self) (model_name self) (tau self)
            (kappa_min self) (steps self), snd s)).

Definition history_append (e : HistoryEntry) : M unit :=
  self <- get_self ;;
  set_self (mk (belief self) (history self ++ [e]) (model_name self)
               (tau self) (kappa_min self) (steps self)).

Definition steps_increment : M unit :=
  self <- get_self ;;
  set_self (mk (belief self) (history self) (model_name self)
               (tau self) (kappa_min self) (steps self + 1)).

(** The body of the [while] loop of [run]; [true] stands for [break]. *)
Definition iteration (central target : string) (jitter_size : Z)
  : M bool :=
  llm_response <- propose_view central target ;;
  action <- lift (Verifier.parse_answer_json (json_loads collab)
                                             llm_response) ;;
  act <- lift (Json.getitem action "action") ;;
  if Json.eq_str act "STOP" then ret true
  else
    view <- lift (Json.getitem action "view") ;;
    az <- lift (Json.getitem view "az") ;;
    view' <- lift (Json.getitem action "view") ;;
    el <- lift (Json.getitem view' "el") ;;
    focus_axis <- lift (Json.getitem action "axis") ;;
    offsets <- generate_jitter_offsets jitter_size 3 3 ;;
    r <- vote az el focus_axis central target (offsets ++ [(0, 0)])
              zero_counts None ;;
    let (axis_counts, view_ans) := (r : _ * _) in
    confidence_scores <- belief_update axis_counts ;;
    self <- get_self ;;
    match view_ans with
    | None => raise (UnboundLocalError "view_ans")
    | Some ans =>
        history_append (mkEntry (steps self) az el ans confidence_scores)
    end ;;;
    steps_increment ;;;
    self <- get_self ;;
    r <- lift (BeliefState.should_stop (belief self) (tau self)
                                       (kappa_min self)) ;;
    ret (fst r).

(** [while self.steps < max_steps: ...].  Every round that does not leave
    the loop adds one to [self.steps], so [max_steps - self.steps]
    rounds are all the loop can make; [fuel] counts them down, and [run]
    gives the loop that much ([loop_fuel_enough]). *)
Fixpoint loop (fuel : nat) (central target : string)
         (jitter_size max_steps : Z) : M unit :=
  match fuel with
  | O => ret tt
  | S fuel' =>
      self <- get_self ;;
      if (steps self <? max_steps)%Z then
        stop <- iteration central target jitter_size ;;
        if (stop : bool) then ret tt
        else loop fuel' central target jitter_size max_steps
      else ret tt
  end.

Definition sign_str (s : sign) : string :=
  match s with
  | Plus => "+"
  | Zero => "0"
  | Minus => "-"
  end.

(** The f-string of line 125. *)
Definition format_answer (decision : PerAxis sign) : string :=
  "<answer>(" ++ (sign_str (atX decision) ++ "X") ++ ", "
              ++ (sign_str (atY decision) ++ "Y") ++ ", "
              ++ (sign_str (atZ decision) ++ "Z") ++ ")</answer>".

Definition run (central target : string) (jitter_size max_steps : Z)
  : M (string * PerAxis R) :=
  self <- get_self ;;
  loop (Z.to_nat (max_steps - steps self)) central target jitter_size
       max_steps ;;;
  self <- get_self ;;
  r <- lift (BeliefState.get_decision (belief self)) ;;
  ret (format_answer (fst r), snd r).

End Run.

End Agent.


(** * The code around the agent

    [src/agent/utils.py] and [src/agent/api_call_gpt.py] (the messages of a
    request), [src/view_generator.py] (the camera poses), and the parts of
    [src/render.py] and [src/agent/view_navigation.py] that name the image
    of a view.  The calls of Blender and of the model services are outside
    the embedding. *)

From Stdlib Require Import DecimalString.

(** ** utils.py and api_call_gpt.py: the messages of a request *)

Module Messages.

(** The content of a message: a text, or the two parts, text and image,
    that [call_vlm] makes of a content. *)
Inductive Content : Type :=
| Text (text : string)
| WithImage (text : Content) (url : string).

Record Message : Type := mkMessage {
  role : string;
  content : Content
}.


(** [enumerate(messages)] *)
Fixpoint enumerate_from {A : Type} (i : nat) (l : list A) : list (nat * A) :=
  match l with
  | [] => []
  | x :: rest => (i, x) :: enumerate_from (S i) rest
  end.

Definition enumerate {A : Type} (l : list A) : list (nat * A) :=
  enumerate_from 0 l.

(** [max] of a sequence of indices; it raises on the empty sequence. *)
Definition py_max (l : list nat) : Result nat :=
  match l with
  | [] => Err (ValueError "max() arg is an empty sequence")
  | i :: rest => Ok (fold_left Nat.max rest i)
  end.

(** [max(i for i, m in enumerate(messages) if m["role"] == "user")] *)
Definition last_user_idx (messages : list Message) : Result nat :=
  py_max (map fst
              (filter (fun im => String.eqb (role (snd im)) "user")
                      (enumerate messages))).

(** The messages that [call_vlm] sends, lines 47-62: the image goes into
    the last user message. *)
Definition new_msgs (data_url : string) (messages : list Message)
  : Result (list Message) :=
  (idx <- last_user_idx messages ;;
   Ok (map (fun im =>
              if Nat.eqb (fst im) idx
              then mkMessage "user" (WithImage (content (snd im)) data_url)
              else snd im)
           (enumerate messages)))%result.

End Messages.

(** ** Formatting and paths *)

Module PyFormat.

Local Open Scope result_scope.

(** [int(x)] of a float: towards zero. *)
Definition py_int (x : R) : Z :=
  if Rle_dec 0 x then Int_part x else (- Int_part (- x))%Z.

Definition digits (n : Z) : string :=
  NilZero.string_of_uint (N.to_uint (Z.to_N (Z.abs n))).

Fixpoint zeros (k : nat) : string :=
  match k with
  | O => ""
  | S k' => "0" ++ zeros k'
  end.

(** [f"{n:0{width}d}"]: zeros between the sign and the digits, up to
    [width] characters in all. *)
Definition format_0d (width : nat) (n : Z) : string :=
  let d := digits n in
  if (n <? 0)%Z then "-" ++ zeros (width - 1 - String.length d) ++ d
  else zeros (width - String.length d) ++ d.

(** [s.lower()] on the letters A-Z.  The other characters stay as they
    are: none of them becomes one of the letters of a view mode. *)
Definition lower_char (c : ascii) : ascii :=
  let n := N_of_ascii c in
  if ((65 <=? n) && (n <=? 90))%N then ascii_of_N (n + 32) else c.

Fixpoint lower (s : string) : string :=
  match s with
  | EmptyString => EmptyString
  | String c s' => String (lower_char c) (lower s')
  end.

(** [os.path.join(a, b)] of posixpath *)
Definition path_join (a b : string) : string :=
  if PyStr.startswith_char "/" b then b
  else if PyStr.is_empty a || PyStr.endswith_char "/" a then a ++ b
  else a ++ "/" ++ b.

(** [range(n)] *)
Definition range (n : Z) : list Z := map Z.of_nat (seq 0 (Z.to_nat n)).

(** [[f(i) for i in l]]: the first raise ends the comprehension. *)
Fixpoint comprehension {A B : Type} (f : A -> Result B) (l : list A)
  : Result (list B) :=
  match l with
  | [] => Ok []
  | x :: rest =>
      y <- f x ;;
      ys <- comprehension f rest ;;
      Ok (y :: ys)
  end.

End PyFormat.

(** ** view_generator.py *)

Module ViewGenerator.

Local Open Scope result_scope.

Definition Vector : Type := (R * R * R)%type.

Definition vadd (a b : Vector) : Vector :=
  let '(ax, ay, az) := a in
  let '(bx, by_, bz) := b in
  (ax + bx, ay + by_, az + bz).

Definition vsub (a b : Vector) : Vector :=
  let '(ax, ay, az) := a in
  let '(bx, by_, bz) := b in
  (ax - bx, ay - by_, az - bz).

Record View : Type := mkView {
  name : string;
  position : Vector;
  rotation : R * R * R;
  visible_axes : list string
}.

Record t : Type := mk {
  scene_center : Vector;
  camera_distance : R
}.

(** [math.radians] *)
Definition radians (deg : R) : R := deg * (PI / 180).

(** The keyword arguments that [generate] passes on: the keywords of the
    three methods, [None] for a keyword that is not given, and the names of
    the other keywords given. *)
Record Kwargs : Type := mkKwargs {
  kw_num_angles : option Z;
  kw_angles_to_render : option (option (list Z));
  kw_elevation : option R;
  kw_num_azimuth : option Z;
  kw_num_elevation : option Z;
  kw_azimuths : option (option (list R));
  kw_elevations : option (option (list R));
  kw_others : list string
}.

Definition no_kwargs : Kwargs :=
  mkKwargs None None None None None None None [].

Inductive method : Type := Circular | Spherical | Orthographic.

Definition fn_map : list (string * method) :=
  [("circle", Circular); ("3d", Circular); ("sphere", Spherical);
   ("2d", Orthographic); ("orthographic", Orthographic)].

Fixpoint fn_map_get (key : string) (m : list (string * method))
  : option method :=
  match m with
  | [] => None
  | (k, f) :: rest => if String.eqb k key then Some f else fn_map_get key rest
  end.

Definition given {A : Type} (o : option A) : bool :=
  match o with
  | Some _ => true
  | None => false
  end.

Definition or_default {A : Type} (o : option A) (d : A) : A :=
  match o with
  | Some a => a
  | None => d
  end.

Section WithMathutils.

(** [direction.to_track_quat('-Z', 'Y').to_euler()] of mathutils, as the
    triple [(e.x, e.y, e.z)]. *)
Variable track_euler : Vector -> R * R * R.

Definition _compute_rotation (self : t) (cam_loc : Vector) : R * R * R :=
  let direction := vsub (scene_center self) cam_loc in
  track_euler direction.

Definition _make_view (self : t) (name : string) (cam_loc : Vector)
           (visible_axes : list string) : View :=
  let rot := _compute_rotation self cam_loc in
  mkView name cam_loc rot visible_axes.

Definition circular (self : t) (num_angles : Z)
           (angles_to_render : option (list Z)) (elevation : R)
  : Result (list View) :=
  let angles_to_render :=
    match angles_to_render with
    | None => PyFormat.range num_angles
    | Some l => l
    end in
  PyFormat.comprehension
    (fun i =>
       frac <- float_div (IZR i) (IZR num_angles) ;;
       let theta := frac * PI * 2 in
       let x := cos theta * camera_distance self in
       let y := sin theta * camera_distance self in
       let z := camera_distance self * elevation in
       let loc := vadd (scene_center self) (x, y, z) in
       Ok (_make_view self ("circle_" ++ PyFormat.format_0d 2 i) loc
                      ["X"; "Y"; "Z"]))
    angles_to_render.

Definition spherical (self : t) (num_azimuth num_elevation : Z)
           (azimuths elevations : option (list R)) : Result (list View) :=
  azimuths <-
    match azimuths with
    | None =>
        PyFormat.comprehension
          (fun i => float_div (IZR i * 360) (IZR num_azimuth))
          (PyFormat.range num_azimuth)
    | Some l => Ok l
    end ;;
  elevations <-
    match elevations with
    | None =>
        PyFormat.comprehension
          (fun i => float_div (IZR i * 180) (IZR (num_elevation - 1)))
          (PyFormat.range num_elevation)
    | Some l => Ok l
    end ;;
  let az_rad := map radians azimuths in
  let el_rad := map radians elevations in
  Ok (flat_map
        (fun el : R * R =>
           let (deg_el, phi) := el in
           map (fun az : R * R =>
                  let (deg_az, theta) := az in
                  let x := camera_distance self * sin phi * cos theta in
                  let y := camera_distance self * sin phi * sin theta in
                  let z := camera_distance self * cos phi in
                  let loc := vadd (scene_center self) (x, y, z) in
                  let name :=
                    "sphere_az"
                    ++ PyFormat.format_0d 3 (PyFormat.py_int deg_az)
                    ++ "_el"
                    ++ PyFormat.format_0d 3 (PyFormat.py_int deg_el) in
                  _make_view self name loc ["X"; "Y"; "Z"])
               (combine azimuths az_rad))
        (combine elevations el_rad)).

Definition orthographic (self : t) : list View :=
  let SC := scene_center self in
  let D := camera_distance self in
  [_make_view self "front" (vadd SC (0, - D, 0)) ["X"; "Z"];
   _make_view self "side" (vadd SC (D, 0, 0)) ["Y"; "Z"];
   _make_view self "top" (vadd SC (0, 0, D)) ["X"; "Y"]].

Definition mode_error : exn :=
  ValueError
    "mode must be one of ['circle', '3d', 'sphere', '2d', 'orthographic']".

(** [generate(mode, **kwargs)]: a keyword that the method of the mode does
    not have is a TypeError of the call. *)
Definition generate (self : t) (mode : string) (kwargs : Kwargs)
  : Result (list View) :=
  let key := PyFormat.lower mode in
  match fn_map_get key fn_map with
  | None => Err mode_error
  | Some Circular =>
      if given (kw_num_azimuth kwargs) || given (kw_num_elevation kwargs)
         || given (kw_azimuths kwargs) || given (kw_elevations kwargs)
         || given (hd_error (kw_others kwargs))
      then Err TypeError
      else circular self (or_default (kw_num_angles kwargs) 6%Z)
                    (or_default (kw_angles_to_render kwargs) None)
                    (or_default (kw_elevation kwargs) (1 / 2))
  | Some Spherical =>
      if given (kw_num_angles kwargs) || given (kw_angles_to_render kwargs)
         || given (kw_elevation kwargs)
         || given (hd_error (kw_others kwargs))
      then Err TypeError
      else spherical self (or_default (kw_num_azimuth kwargs) 8%Z)
                     (or_default (kw_num_elevation kwargs) 4%Z)
                     (or_default (kw_azimuths kwargs) None)
                     (or_default (kw_elevations kwargs) None)
  | Some Orthographic =>
      if given (kw_num_angles kwargs) || given (kw_angles_to_render kwargs)
         || given (kw_elevation kwargs)
         || given (kw_num_azimuth kwargs) || given (kw_num_elevation kwargs)
         || given (kw_azimuths kwargs) || given (kw_elevations kwargs)
         || given (hd_error (kw_others kwargs))
      then Err TypeError
      else Ok (orthographic self)
  end.

End WithMathutils.

End ViewGenerator.

(** ** render.py and view_navigation.py: the views and their images *)

Module Render.

Local Open Scope result_scope.

(** [apply_camera_rotation(views, rotation_angle)] *)
Definition apply_camera_rotation (views : list ViewGenerator.View)
           (rotation_angle : R) : list ViewGenerator.View :=
  map (fun view =>
         let '(r0, r1, r2) := ViewGenerator.rotation view in
         let rotation_list :=
           if String.eqb (ViewGenerator.name view) "front"
           then (r0, r1 + ViewGenerator.radians rotation_angle, r2)
           else if String.eqb (ViewGenerator.name view) "side"
           then (r0, r1 + ViewGenerator.radians rotation_angle, r2)
           else if String.eqb (ViewGenerator.name view) "top"
           then (r0, r1, r2 + ViewGenerator.radians rotation_angle)
           else (r0, r1, r2) in
         ViewGenerator.mkView (ViewGenerator.name view)
                              (ViewGenerator.position view)
                              rotation_list
                              (ViewGenerator.visible_axes view))
      views.

Section WithMathutils.

Variable track_euler : ViewGenerator.Vector -> R * R * R.

(** The views that [focus_camera_and_render] renders, lines 184-196, for
    the scene centre that it has computed. *)
Definition views (scene_center : ViewGenerator.Vector) (camera_distance : R)
           (rotation_angle : R) (vg_mode : string)
           (view_kwargs : ViewGenerator.Kwargs)
  : Result (list ViewGenerator.View) :=
  let vg := ViewGenerator.mk scene_center camera_distance in
  views <- ViewGenerator.generate track_euler vg vg_mode view_kwargs ;;
  Ok (if Req_dec_T rotation_angle 0 then views
      else apply_camera_rotation views rotation_angle).

End WithMathutils.

(** The path of the image of a view, lines 230-233. *)
Definition filepath (output_dir object_id : string)
           (view : ViewGenerator.View) : string :=
  PyFormat.path_join output_dir
                     (object_id ++ "_" ++ ViewGenerator.name view ++ ".png").

End Render.

Module ViewNavigationEnv.

Record t : Type := mk {
  gltf_path : string;
  object_id : string;
  output_path : string
}.

(** The keyword arguments with which [capture] calls [render_scene]. *)
Definition view_kwargs (azimuth elevation : R) : ViewGenerator.Kwargs :=
  ViewGenerator.mkKwargs None None None None None
                         (Some (Some [azimuth])) (Some (Some [elevation])) [].

(** The path that [capture] returns, line 26. *)
Definition capture_path (self : t) (azimuth elevation : R) : string :=
  PyFormat.path_join
    (output_path self)
    (object_id self ++ "_sphere_az"
     ++ PyFormat.format_0d 3 (PyFormat.py_int azimuth)
     ++ "_el" ++ PyFormat.format_0d 3 (PyFormat.py_int elevation) ++ ".png").

End ViewNavigationEnv.
(** * Vocabulary of the properties *)

(** The total [n] and the majority count [kmax] of a tally, and tallies of
    counts that are not negative. *)
Definition total (c : BeliefState.VoteTally) : Z :=
  (atPlus c + atZero c + atMinus c)%Z.

Definition majority (c : BeliefState.VoteTally) : Z :=
  Z.max (Z.max (atPlus c) (atZero c)) (atMinus c).

Definition nonneg_tally (c : BeliefState.VoteTally) : Prop :=
  (0 <= atPlus c)%Z /\ (0 <= atZero c)%Z /\ (0 <= atMinus c)%Z.

Definition nonneg_counts (ac : BeliefState.AxisCounts) : Prop :=
  forall A, nonneg_tally (aget ac A).

(** The pseudo-count [alpha[A][s]]. *)
Definition alpha_at (b : BeliefState.t) (A : axis) (s : sign) : R :=
  sget (aget (BeliefState.alpha b) A) s.

(** The belief after a call of [update], whether it returned or raised. *)
Definition after_update (b : BeliefState.t) (ac : BeliefState.AxisCounts)
  : BeliefState.t :=
  snd (BeliefState.update b ac).

(** The beliefs that a sequence of updates with tallies of counts that are
    not negative reaches from the prior. *)
Inductive reachable (lam gamma : R) (method : string) : BeliefState.t -> Prop :=
| reach_init : reachable lam gamma method (BeliefState.init lam gamma method)
| reach_update b ac :
    reachable lam gamma method b ->
    nonneg_counts ac ->
    reachable lam gamma method (after_update b ac).

(** The greatest of the three probabilities of an axis. *)
Definition top_prob (p : PerSign R) : R :=
  Rmax (Rmax (atPlus p) (atZero p)) (atMinus p).

(** The Wilson lower bound that [_wilson_neff] computes on a tally that is
    not empty, and the smoothed proportion and the base of the power that
    [_entropy_neff] computes. *)
Definition wilson_lb_of (c : BeliefState.VoteTally) : R :=
  let n := IZR (total c) in
  let phat := IZR (majority c) / n in
  BeliefState.wilson_lb phat n (sqrt (BeliefState.wilson_radicand phat n)).

Definition smoothed_of (lam : R) (c : BeliefState.VoteTally) (k : Z) : R :=
  (IZR k + lam) / (IZR (total c) + 3 * lam).

Definition entropy_base_of (lam : R) (c : BeliefState.VoteTally) : R :=
  let pp := smoothed_of lam c (atPlus c) in
  let p0 := smoothed_of lam c (atZero c) in
  let pm := smoothed_of lam c (atMinus c) in
  1 - - sumR [pp * ln pp; p0 * ln p0; pm * ln pm] / ln 3.

(** The uniform distribution and the tallies of the first end-to-end
    scenario of the specification. *)
Definition uniform : PerSign R := mkPerSign (1 / 3) (1 / 3) (1 / 3).

Definition scenario_counts : BeliefState.AxisCounts :=
  mkPerAxis (mkPerSign 9 1 0)%Z (mkPerSign 0 10 0)%Z (mkPerSign 5 0 5)%Z.

(** [pre] is the text before the first occurrence of [pat] in [s], and
    [post] the text after that occurrence. *)
Definition first_occurrence (pat s pre post : string) : Prop :=
  s = pre ++ pat ++ post
  /\ forall pre' post',
       s = pre' ++ pat ++ post' -> (String.length pre <= String.length pre')%nat.

(** The text has an opening tag with a closing tag somewhere after it. *)
Definition has_answer_tags (s : string) : Prop :=
  exists pre mid post, s = pre ++ "<answer>" ++ mid ++ "</answer>" ++ post.

(** [content] is the text between the first opening tag and the first
    closing tag after it. *)
Definition enclosed (s content : string) : Prop :=
  exists pre rest post,
    first_occurrence "<answer>" s pre rest
    /\ first_occurrence "</answer>" rest content post.

(** The sign-tuple text of a labelling: the tokens of the axes present, in
    the order X, Y, Z, separated by a comma and a space, in parentheses. *)
Definition token (s : sign) (a : string) : string := Agent.sign_str s ++ a.

Definition tokens_of (l : Verifier.Labels) : list string :=
  (match atX l with Some s => [token s "X"] | None => [] end)
  ++ (match atY l with Some s => [token s "Y"] | None => [] end)
  ++ (match atZ l with Some s => [token s "Z"] | None => [] end).

Fixpoint join_comma (ts : list string) : string :=
  match ts with
  | [] => ""
  | [t] => t
  | t :: rest => t ++ ", " ++ join_comma rest
  end.

Definition sign_tuple (l : Verifier.Labels) : string :=
  "(" ++ join_comma (tokens_of l) ++ ")".

Definition all_labels (d : PerAxis sign) : Verifier.Labels :=
  mkPerAxis (Some (atX d)) (Some (atY d)) (Some (atZ d)).

(** One belief is above another: when the prior of the first is not
    negative, so is that of the second, and no pseudo-count is smaller. *)
Definition belief_le (b b' : BeliefState.t) : Prop :=
  0 <= BeliefState.lam b ->
  0 <= BeliefState.lam b'
  /\ forall A s, alpha_at b A s <= alpha_at b' A s.

(** The program logic of the agent's computations.  [triple P m Q E]: from
    an agent object that satisfies [P], the computation [m] either returns a
    value [a] and an agent object that satisfy [Q a], or raises with an
    agent object that satisfies [E]. *)
Definition triple {World A : Type} (P : Agent.t -> Prop) (m : Agent.M World A)
           (Q : A -> Agent.t -> Prop) (E : Agent.t -> Prop) : Prop :=
  forall s,
    P (fst s) ->
    match m s with
    | (Ok a, s') => Q a (fst s')
    | (Err _, s') => E (fst s')
    end.

(** A computation that leaves the agent object as it was, and a computation
    whose every returned value satisfies [Q]. *)
Definition agent_unchanged {World A : Type} (m : Agent.M World A) : Prop :=
  forall s, fst (snd (m s)) = fst s.

Definition returns {World A : Type} (m : Agent.M World A) (Q : A -> Prop) : Prop :=
  forall s a, fst (m s) = Ok a -> Q a.

(** The belief of the agent is above [b0]. *)
Definition above (b0 : BeliefState.t) (self : Agent.t) : Prop :=
  belief_le b0 (Agent.belief self).

(** The answer of an agent that never updated its belief. *)
Definition prior_answer : string * PerAxis R :=
  ("<answer>(+X, +Y, +Z)</answer>", mkPerAxis (1 / 3) (1 / 3) (1 / 3)).

(** Collaborators for the examples: a planner that always gives the same
    response, a perception model that always answers [(+X)], and a decoder
    that knows the one action plan [{"action": "STOP"}]. *)
Definition quote : string := String "034" "".

Definition stop_plan : string :=
  "{" ++ quote ++ "action" ++ quote ++ ": " ++ quote ++ "STOP" ++ quote ++ "}".

Definition stop_response : string :=
  "<think>done</think><answer>" ++ stop_plan ++ "</answer>".

Definition sample_json_loads (s : string) : option json :=
  if String.eqb s stop_plan then Some (JObj [("action", JStr "STOP")])
  else None.

Definition sample_collaborators (response : string) : Agent.Collaborators unit :=
  Agent.mkCollaborators
    (fun _ _ w => (Ok response, w))
    (fun _ _ w => (Ok "<answer>(+X)</answer>", w))
    (fun _ _ w => (Ok "view.png", w))
    (fun _ _ w => (0, w))
    sample_json_loads.

(** * Vocabulary of the further properties *)

(** The belief after the round of axis [A] has added the effective sample
    size [neff] of the tally [c]: nothing when [neff] is not above zero. *)
Definition bump (b : BeliefState.t) (A : axis) (c : BeliefState.VoteTally)
           (neff : R) : BeliefState.t :=
  if Rlt_dec 0 neff then
    let a := aget (BeliefState.alpha b) A in
    let lam := BeliefState.lam b in
    BeliefState.mk
      (aset (BeliefState.alpha b) A
            (mkPerSign (atPlus a + neff * smoothed_of lam c (atPlus c))
                       (atZero a + neff * smoothed_of lam c (atZero c))
                       (atMinus a + neff * smoothed_of lam c (atMinus c))))
      (BeliefState.lam b) (BeliefState.gamma b) (BeliefState.method b)
  else b.

(** Two beliefs with the same configuration. *)
Definition same_config (b b' : BeliefState.t) : Prop :=
  BeliefState.lam b' = BeliefState.lam b
  /\ BeliefState.gamma b' = BeliefState.gamma b
  /\ BeliefState.method b' = BeliefState.method b.

(** A tally whose votes all went to one sign. *)
Definition unanimous (c : BeliefState.VoteTally) : Prop :=
  nonneg_tally c /\ majority c = total c.

(** What the round of an axis adds to the pseudo-count of the sign with
    [k] votes, for the effective sample size [neff]. *)
Definition bump_term (lam : R) (c : BeliefState.VoteTally) (neff : R) (k : Z)
  : R :=
  if Rlt_dec 0 neff then neff * smoothed_of lam c k else 0.


(** The agent object after [k] completed rounds of a run that started with
    the step counter [n0] and the history [h0]: the counter has advanced by
    [k] and the history has [k] more entries, labelled [n0], [n0 + 1], ... *)
Definition after_rounds (n0 : Z) (h0 : list Agent.HistoryEntry) (k : nat)
           (st : Agent.t) : Prop :=
  Agent.steps st = (n0 + Z.of_nat k)%Z
  /\ exists added,
      Agent.history st = (h0 ++ added)%list
      /\ length added = k
      /\ map Agent.step added = map (fun i => (n0 + Z.of_nat i)%Z) (seq 0 k).


(** The labels of a view are among the votes counted. *)
Definition counted (labels : Verifier.Labels) (ac : BeliefState.AxisCounts)
  : Prop :=
  forall A s, aget labels A = Some s -> (1 <= sget (aget ac A) s)%Z.

(** An action plan that a round cannot read, with the error of the first
    field that fails, in the order in which the round reads them:
    [action['action']], [action['view']['az']], [action['view']['el']],
    [action['axis']]. *)
Inductive malformed : json -> exn -> Prop :=
| plan_not_a_dict (action : json) :
    (forall fields, action <> JObj fields) -> malformed action TypeError
| plan_without_action (fields : list (string * json)) :
    Json.lookup "action" fields = None ->
    malformed (JObj fields) (KeyError "action")
| plan_without_view (fields : list (string * json)) (act : json) :
    Json.lookup "action" fields = Some act ->
    Json.eq_str act "STOP" = false ->
    Json.lookup "view" fields = None ->
    malformed (JObj fields) (KeyError "view")
| plan_view_not_a_dict (fields : list (string * json)) (act view : json) :
    Json.lookup "action" fields = Some act ->
    Json.eq_str act "STOP" = false ->
    Json.lookup "view" fields = Some view ->
    (forall vf, view <> JObj vf) ->
    malformed (JObj fields) TypeError
| plan_view_without_angle (fields vf : list (string * json)) (act : json)
                          (key : string) :
    Json.lookup "action" fields = Some act ->
    Json.eq_str act "STOP" = false ->
    Json.lookup "view" fields = Some (JObj vf) ->
    (key = "az" /\ Json.lookup "az" vf = None
     \/ key = "el" /\ Json.lookup "az" vf <> None
        /\ Json.lookup "el" vf = None) ->
    malformed (JObj fields) (KeyError key)
| plan_without_axis (fields vf : list (string * json)) (act : json) :
    Json.lookup "action" fields = Some act ->
    Json.eq_str act "STOP" = false ->
    Json.lookup "view" fields = Some (JObj vf) ->
    Json.lookup "az" vf <> None ->
    Json.lookup "el" vf <> None ->
    Json.lookup "axis" fields = None ->
    malformed (JObj fields) (KeyError "axis").

(** What the loop assumes of [random.uniform(-r, r)]: a number of
    [[-r, r]]. *)
Definition uniform_in_range {World : Type}
           (collab : Agent.Collaborators World) : Prop :=
  forall (r : R) (w : World),
    0 <= r ->
    - r <= fst (Agent.random_uniform collab (- r) r w) <= r.

Definition in_box (r_az r_el : R) (o : R * R) : Prop :=
  (- r_az <= fst o <= r_az) /\ (- r_el <= snd o <= r_el).

(** Collaborators for the examples whose planner proposes the plan [plan],
    whatever it is asked, and whose perception model always answers
    [(+X)]. *)
Definition planning_collaborators (plan : json) : Agent.Collaborators unit :=
  Agent.mkCollaborators
    (fun _ _ w => (Ok "<answer>plan</answer>", w))
    (fun _ _ w => (Ok "<answer>(+X)</answer>", w))
    (fun _ _ w => (Ok "view.png", w))
    (fun _ _ w => (0, w))
    (fun _ => Some plan).

(** ** Views *)

(** The squared distance of two points. *)
Definition dist2 (a b : ViewGenerator.Vector) : R :=
  let '(x, y, z) := ViewGenerator.vsub a b in
  x * x + y * y + z * z.

(** The camera of a view is at the camera distance from the scene centre. *)
Definition on_sphere (self : ViewGenerator.t) (v : ViewGenerator.View) : Prop :=
  dist2 (ViewGenerator.position v) (ViewGenerator.scene_center self)
  = ViewGenerator.camera_distance self * ViewGenerator.camera_distance self.

(** The camera of a view is on the circle around the vertical axis through
    the scene centre, of radius the camera distance, at the height that
    the elevation fraction gives. *)
Definition on_circle (self : ViewGenerator.t) (elevation : R)
           (v : ViewGenerator.View) : Prop :=
  let '(x, y, z) :=
    ViewGenerator.vsub (ViewGenerator.position v)
                       (ViewGenerator.scene_center self) in
  x * x + y * y
  = ViewGenerator.camera_distance self * ViewGenerator.camera_distance self
  /\ z = ViewGenerator.camera_distance self * elevation.


(** The view of [spherical] for an azimuth and an elevation in degrees. *)
Definition sphere_view (track_euler : ViewGenerator.Vector -> R * R * R)
           (self : ViewGenerator.t) (deg_az deg_el : R) : ViewGenerator.View :=
  let D := ViewGenerator.camera_distance self in
  let phi := ViewGenerator.radians deg_el in
  let theta := ViewGenerator.radians deg_az in
  ViewGenerator._make_view
    track_euler self
    ("sphere_az" ++ PyFormat.format_0d 3 (PyFormat.py_int deg_az)
     ++ "_el" ++ PyFormat.format_0d 3 (PyFormat.py_int deg_el))
    (ViewGenerator.vadd (ViewGenerator.scene_center self)
                        (D * sin phi * cos theta, D * sin phi * sin theta,
                         D * cos phi))
    ["X"; "Y"; "Z"].

(** The grid of [spherical]: a row of views for each elevation. *)
Definition sphere_grid (track_euler : ViewGenerator.Vector -> R * R * R)
           (self : ViewGenerator.t) (azimuths elevations : list R)
  : list ViewGenerator.View :=
  flat_map (fun deg_el => map (fun deg_az => sphere_view track_euler self deg_az deg_el)
                              azimuths)
           elevations.

(** The view modes. *)
Definition modes : list string :=
  ["circle"; "3d"; "sphere"; "2d"; "orthographic"].

(** A view whose name is none of the three orthographic names. *)
Definition oblique (v : ViewGenerator.View) : Prop :=
  String.eqb (ViewGenerator.name v) "front" = false
  /\ String.eqb (ViewGenerator.name v) "side" = false
  /\ String.eqb (ViewGenerator.name v) "top" = false.

(** A rotation with one Euler angle turned. *)
Definition turned (i : nat) (angle : R) (rot : R * R * R) : R * R * R :=
  let '(r0, r1, r2) := rot in
  match i with
  | 1%nat => (r0, r1 + ViewGenerator.radians angle, r2)
  | 2%nat => (r0, r1, r2 + ViewGenerator.radians angle)
  | _ => (r0, r1, r2)
  end.
(** * Properties *)

(** ** Checked arithmetic *)

Lemma float_div_ok (x y : R) : y <> 0 -> float_div x y = Ok (x / y).
Proof.
  intros Hy. unfold float_div. destruct (Req_dec_T y 0); [contradiction | reflexivity].
Qed.

Lemma math_sqrt_ok (x : R) : 0 <= x -> math_sqrt x = Ok (sqrt x).
Proof.
  intros Hx. unfold math_sqrt. destruct (Rlt_dec x 0); [lra | reflexivity].
Qed.

Lemma math_log_ok (x : R) : 0 < x -> math_log x = Ok (ln x).
Proof.
  intros Hx. unfold math_log. destruct (Rlt_dec 0 x); [reflexivity | contradiction].
Qed.

(** With the default exponent the power is the base itself. *)
Lemma float_pow_one (x : R) : 0 <= x -> float_pow x 1 = Ok x.
Proof.
  intros Hx. unfold float_pow.
  destruct (Rlt_dec 0 x) as [Hpos | Hnpos].
  - now rewrite Rpower_1.
  - destruct (Req_dec_T x 0) as [-> | Hne]; [| lra].
    destruct (Rlt_dec 1 0); [lra |].
    destruct (Req_dec_T 1 0); [lra | reflexivity].
Qed.

(** For an exponent that is not negative the power is monotone in the base. *)
Lemma float_pow_mono (x y g vx vy : R) :
  0 <= x -> x <= y -> 0 <= g ->
  float_pow x g = Ok vx -> float_pow y g = Ok vy -> vx <= vy.
Proof.
  intros Hx Hxy Hg. unfold float_pow.
  destruct (Rlt_dec 0 x) as [Hpx | Hnx]; destruct (Rlt_dec 0 y) as [Hpy | Hny];
    try lra.
  - intros [= <-] [= <-]. apply Rle_Rpower_l; lra.
  - destruct (Req_dec_T x 0) as [-> | Hne]; [| lra].
    destruct (Rlt_dec g 0); [lra |].
    destruct (Req_dec_T g 0) as [-> | Hg0]; intros [= <-] [= <-].
    + rewrite Rpower_O by assumption. lra.
    + unfold Rpower. left. apply exp_pos.
  - destruct (Req_dec_T x 0) as [-> | Hne]; [| lra].
    destruct (Req_dec_T y 0) as [-> | Hne']; [| lra].
    destruct (Rlt_dec g 0); [lra |].
    destruct (Req_dec_T g 0); intros [= <-] [= <-]; lra.
Qed.

Lemma Rdiv_le_1 (a d : R) : 0 < d -> a <= d -> a / d <= 1.
Proof.
  intros Hd Ha. unfold Rdiv.
  replace 1 with (d * / d) by (field; lra).
  apply Rmult_le_compat_r; [left; now apply Rinv_0_lt_compat | assumption].
Qed.

(** ** The Wilson score lower bound *)

Section Wilson.

Import BeliefState.

Variables p n : R.
Hypothesis Hn : 0 < n.
Hypothesis Hp : 0 <= p <= 1.

Lemma z_pos : 0 < z.
Proof. unfold z. lra. Qed.

Lemma radicand_eq :
  wilson_radicand p n
  = p * (1 - p) * / n + (z * / (2 * n)) * (z * / (2 * n)).
Proof. unfold wilson_radicand. field. lra. Qed.

Lemma radicand_pos : 0 < wilson_radicand p n.
Proof.
  rewrite radicand_eq.
  assert (Hi : 0 < / n) by now apply Rinv_0_lt_compat.
  assert (Hz : 0 < z * / (2 * n)).
  { apply Rmult_lt_0_compat; [apply z_pos | apply Rinv_0_lt_compat; lra]. }
  assert (0 <= p * (1 - p) * / n) by (apply Rmult_le_pos; [nra | lra]).
  nra.
Qed.

(** The root dominates [z * (1 - 2 p) / (2 n)], whichever its sign. *)
Lemma root_lower :
  z * (1 - 2 * p) / (2 * n) <= sqrt (wilson_radicand p n).
Proof.
  set (t := z * (1 - 2 * p) / (2 * n)).
  apply Rle_trans with (Rabs t); [apply Rle_abs |].
  rewrite <- sqrt_Rsqr_abs. apply sqrt_le_1_alt.
  unfold Rsqr, t. rewrite radicand_eq.
  assert (Hi : 0 < / n) by now apply Rinv_0_lt_compat.
  replace (z * (1 - 2 * p) / (2 * n))
    with (z * / (2 * n) * (1 - 2 * p)) by (field; lra).
  set (u := z * / (2 * n)).
  assert (0 <= p * (1 - p) * / n) by (apply Rmult_le_pos; [nra | lra]).
  assert (0 <= u * u) by nra.
  assert (0 <= p * (1 - p)) by nra.
  nra.
Qed.

(** The root dominates the half width [z / (2 n)]. *)
Lemma root_half_width : z / (2 * n) <= sqrt (wilson_radicand p n).
Proof.
  assert (Hz := z_pos).
  assert (Hw : 0 <= z / (2 * n)).
  { apply Rmult_le_pos; [lra |]. left. apply Rinv_0_lt_compat. lra. }
  rewrite <- (sqrt_Rsqr (z / (2 * n))) by assumption.
  apply sqrt_le_1_alt. unfold Rsqr. rewrite radicand_eq.
  assert (Hi : 0 < / n) by now apply Rinv_0_lt_compat.
  assert (0 <= p * (1 - p) * / n) by (apply Rmult_le_pos; [nra | lra]).
  unfold Rdiv. lra.
Qed.

(** The lower bound never exceeds 1. *)
Lemma wilson_lb_le_1 : wilson_lb p n (sqrt (wilson_radicand p n)) <= 1.
Proof.
  assert (Hz := z_pos). assert (Hr := root_half_width).
  unfold wilson_lb.
  assert (Hi : 0 < / n) by now apply Rinv_0_lt_compat.
  assert (Hzz : 0 < z * z * / n) by (apply Rmult_lt_0_compat; [nra | lra]).
  assert (Hden : 1 < 1 + z * z / n) by (unfold Rdiv; lra).
  assert (Hzr : z * (z / (2 * n)) <= z * sqrt (wilson_radicand p n))
    by (apply Rmult_le_compat_l; lra).
  replace (z * z / (2 * n)) with (z * (z / (2 * n))) by (field; lra).
  apply Rdiv_le_1; lra.
Qed.

End Wilson.

Section WilsonMono.

Import BeliefState.

Variables p q n : R.
Hypothesis Hn : 0 < n.
Hypothesis Hp : 0 <= p.
Hypothesis Hpq : p <= q.
Hypothesis Hq : q <= 1.

(** Moving the majority fraction from [p] to [q] moves the root by less
    than [(q - p) / z]. *)
Lemma wilson_root_step :
  z * sqrt (wilson_radicand q n) - z * sqrt (wilson_radicand p n) <= q - p.
Proof.
  assert (Hrp := radicand_pos Hn (conj Hp (Rle_trans _ _ _ Hpq Hq))).
  assert (Hrq := radicand_pos Hn (conj (Rle_trans _ _ _ Hp Hpq) Hq)).
  assert (Hlp := root_lower Hn (conj Hp (Rle_trans _ _ _ Hpq Hq))).
  assert (Hlq := root_lower Hn (conj (Rle_trans _ _ _ Hp Hpq) Hq)).
  assert (Hsp := sqrt_lt_R0 _ Hrp).
  assert (Hsq := sqrt_lt_R0 _ Hrq).
  assert (Hdp := sqrt_sqrt _ (Rlt_le _ _ Hrp)).
  assert (Hdq := sqrt_sqrt _ (Rlt_le _ _ Hrq)).
  set (sp := sqrt (wilson_radicand p n)) in *.
  set (sq := sqrt (wilson_radicand q n)) in *.
  assert (Hdiff : (sq - sp) * (sq + sp) = (q - p) * (1 - p - q) / n).
  { replace ((sq - sp) * (sq + sp)) with (sq * sq - sp * sp) by ring.
    rewrite Hdp, Hdq. unfold wilson_radicand. field. lra. }
  assert (Hsum : z * (1 - p - q) / n <= sq + sp).
  { replace (z * (1 - p - q) / n)
      with (z * (1 - 2 * p) / (2 * n) + z * (1 - 2 * q) / (2 * n))
      by (field; lra).
    lra. }
  assert (Hz := z_pos).
  assert (Hprod : (z * (sq - sp) - (q - p)) * (sq + sp) <= 0).
  { replace ((z * (sq - sp) - (q - p)) * (sq + sp))
      with (z * ((sq - sp) * (sq + sp)) - (q - p) * (sq + sp)) by ring.
    rewrite Hdiff.
    replace (z * ((q - p) * (1 - p - q) / n))
      with ((q - p) * (z * (1 - p - q) / n)) by (field; lra).
    assert (0 <= q - p) by lra. nra. }
  assert (0 < sq + sp) by lra.
  nra.
Qed.

Lemma wilson_lb_mono :
  wilson_lb p n (sqrt (wilson_radicand p n))
  <= wilson_lb q n (sqrt (wilson_radicand q n)).
Proof.
  assert (Hstep := wilson_root_step). assert (Hz := z_pos).
  unfold wilson_lb.
  assert (Hi : 0 < / n) by now apply Rinv_0_lt_compat.
  assert (Hzz : 0 < z * z * / n) by (apply Rmult_lt_0_compat; [nra | lra]).
  assert (Hden : 0 < 1 + z * z / n) by (unfold Rdiv; lra).
  apply Rmult_le_compat_r; [left; now apply Rinv_0_lt_compat | lra].
Qed.

End WilsonMono.

Lemma wilson_base_nonneg (lb : R) : 0 <= BeliefState.wilson_base lb.
Proof. unfold BeliefState.wilson_base. apply Rmax_l. Qed.

Lemma wilson_base_le_1 (lb : R) : lb <= 1 -> BeliefState.wilson_base lb <= 1.
Proof.
  intros Hlb. unfold BeliefState.wilson_base.
  apply Rmax_lub; [lra |].
  assert (Rmax lb (1 / 3) <= 1) by (apply Rmax_lub; lra).
  lra.
Qed.

Lemma wilson_base_mono (a b : R) :
  a <= b -> BeliefState.wilson_base a <= BeliefState.wilson_base b.
Proof.
  intros Hab. unfold BeliefState.wilson_base.
  apply Rle_max_compat_l.
  assert (Rmax a (1 / 3) <= Rmax b (1 / 3)) by now apply Rle_max_compat_r.
  lra.
Qed.

(** ** Entropy of three proportions *)

Lemma ln_le_sub_1 (x : R) : 0 < x -> ln x <= x - 1.
Proof.
  intros Hx. pose proof (exp_ineq1_le (ln x)) as H.
  rewrite exp_ln in H by assumption. lra.
Qed.

Lemma ln_3_pos : 0 < ln 3.
Proof. rewrite <- ln_1. apply ln_increasing; lra. Qed.

(** One term of Gibbs' inequality against the uniform distribution. *)
Lemma gibbs_term (x : R) : 0 < x -> x - / 3 - x * ln 3 <= x * ln x.
Proof.
  intros Hx.
  assert (H3x : 0 < / (3 * x)) by (apply Rinv_0_lt_compat; lra).
  pose proof (ln_le_sub_1 H3x) as H.
  rewrite ln_Rinv in H by lra.
  rewrite ln_mult in H by lra.
  assert (Hm : x * (- (ln 3 + ln x)) <= x * (/ (3 * x) - 1))
    by (apply Rmult_le_compat_l; lra).
  replace (x * (/ (3 * x) - 1)) with (/ 3 - x) in Hm by (field; lra).
  lra.
Qed.

Lemma xlnx_nonpos (x : R) : 0 < x -> x <= 1 -> x * ln x <= 0.
Proof.
  intros Hx Hx1. pose proof (ln_le_sub_1 Hx).
  assert (ln x <= 0) by lra. nra.
Qed.

Lemma entropy_bounds (a b c : R) :
  0 < a -> 0 < b -> 0 < c -> a + b + c = 1 ->
  - ln 3 <= a * ln a + b * ln b + c * ln c <= 0.
Proof.
  intros Ha Hb Hc Hsum. split.
  - pose proof (gibbs_term Ha). pose proof (gibbs_term Hb).
    pose proof (gibbs_term Hc).
    replace (- ln 3) with (- ((a + b + c) * ln 3)) by (rewrite Hsum; ring).
    lra.
  - pose proof (@xlnx_nonpos a Ha ltac:(lra)).
    pose proof (@xlnx_nonpos b Hb ltac:(lra)).
    pose proof (@xlnx_nonpos c Hc ltac:(lra)).
    lra.
Qed.

(** ** Tallies *)

Lemma total_sumZ (c : BeliefState.VoteTally) : sumZ (values c) = total c.
Proof. unfold sumZ, values, total. simpl. lia. Qed.

Lemma majority_bounds (c : BeliefState.VoteTally) :
  nonneg_tally c -> (0 <= majority c <= total c)%Z.
Proof. unfold nonneg_tally, majority, total. lia. Qed.

Lemma majority_third (c : BeliefState.VoteTally) : (total c <= 3 * majority c)%Z.
Proof. unfold majority, total. lia. Qed.

Lemma phat_bounds (c : BeliefState.VoteTally) :
  nonneg_tally c -> (0 < total c)%Z ->
  0 <= IZR (majority c) / IZR (total c) <= 1.
Proof.
  intros Hc Hn. destruct (majority_bounds Hc) as [H0 H1].
  apply IZR_le in H0, H1. apply IZR_lt in Hn.
  assert (Hi : 0 < / IZR (total c)) by now apply Rinv_0_lt_compat.
  split.
  - apply Rmult_le_pos; lra.
  - apply Rdiv_le_1; lra.
Qed.

(** ** The two effective sample sizes *)

Section Neff.

Import BeliefState.

Variable self : BeliefState.t.
Variable c : VoteTally.

(** Line 16 and line 33: an empty tally gives [(0.0, 0.0)]. *)
Lemma wilson_neff_zero : total c = 0%Z -> _wilson_neff self c = Ok (0, 0).
Proof. unfold _wilson_neff, total. intros ->. reflexivity. Qed.

Lemma entropy_neff_zero : total c = 0%Z -> _entropy_neff self c = Ok (0, 0).
Proof. unfold _entropy_neff, total. intros ->. reflexivity. Qed.

Hypothesis Hc : nonneg_tally c.
Hypothesis Hn : (0 < total c)%Z.

Let n : R := IZR (total c).
Let phat : R := IZR (majority c) / n.

Lemma n_pos : 0 < n.
Proof. unfold n. now apply IZR_lt in Hn. Qed.

Lemma wilson_neff_eq :
  _wilson_neff self c
  = (confidence <- float_pow (wilson_base (wilson_lb_of c)) (gamma self) ;;
     Ok (n * confidence, confidence))%result.
Proof.
  unfold _wilson_neff. fold (total c).
  destruct (Z.eqb_spec (total c) 0) as [E | _]; [lia |].
  fold (majority c). fold n. fold phat.
  rewrite math_sqrt_ok; [reflexivity |].
  left. apply radicand_pos; [apply n_pos | apply (phat_bounds Hc Hn)].
Qed.

Lemma wilson_base_unit : 0 <= wilson_base (wilson_lb_of c) <= 1.
Proof.
  split; [apply wilson_base_nonneg |].
  apply wilson_base_le_1, wilson_lb_le_1;
    [apply n_pos | apply (phat_bounds Hc Hn)].
Qed.

Hypothesis Hlam : 0 < lam self.

Let d : R := n + 3 * lam self.
Let pp : R := (IZR (atPlus c) + lam self) / d.
Let p0 : R := (IZR (atZero c) + lam self) / d.
Let pm : R := (IZR (atMinus c) + lam self) / d.

Lemma d_pos : 0 < d.
Proof. unfold d. pose proof n_pos. lra. Qed.

Lemma smoothed_eq : smoothed self c (total c) = Ok (mkPerSign pp p0 pm).
Proof.
  unfold smoothed. fold n. fold d.
  rewrite !float_div_ok by (pose proof d_pos; lra). reflexivity.
Qed.

Lemma smoothed_pos : 0 < pp /\ 0 < p0 /\ 0 < pm.
Proof.
  destruct Hc as (H1 & H2 & H3). apply IZR_le in H1, H2, H3.
  pose proof d_pos as Hd.
  assert (0 < / d) by now apply Rinv_0_lt_compat.
  unfold pp, p0, pm, Rdiv. repeat split; apply Rmult_lt_0_compat; lra.
Qed.

Lemma smoothed_sum : pp + p0 + pm = 1.
Proof.
  unfold pp, p0, pm, d, n, total. rewrite !plus_IZR.
  field. fold (total c). fold n. fold d. pose proof d_pos. unfold d, n, total in *.
  rewrite !plus_IZR in *. lra.
Qed.

Lemma entropy_neff_eq :
  _entropy_neff self c
  = (confidence <- float_pow (entropy_base_of (lam self) c) (gamma self) ;;
     Ok (n * confidence, confidence))%result.
Proof.
  unfold _entropy_neff. fold (total c).
  destruct (Z.eqb_spec (total c) 0) as [E | _]; [lia |].
  rewrite smoothed_eq. destruct smoothed_pos as (Hp & H0 & Hm).
  unfold entropy_terms. cbn [bind atPlus atZero atMinus].
  rewrite !math_log_ok by assumption. reflexivity.
Qed.

Lemma entropy_base_unit : 0 <= (entropy_base_of (lam self) c) <= 1.
Proof.
  destruct smoothed_pos as (Hp & H0 & Hm).
  pose proof (entropy_bounds Hp H0 Hm smoothed_sum) as [Hlo Hhi].
  pose proof ln_3_pos as H3.
  unfold entropy_base_of, smoothed_of, sumR. cbn [fold_left].
  fold (total c). fold n. fold d. fold pp. fold p0. fold pm.
  set (s := 0 + pp * ln pp + p0 * ln p0 + pm * ln pm).
  assert (Hs : - ln 3 <= s <= 0) by (unfold s; lra).
  assert (Hq : 0 <= - s / ln 3 <= 1).
  { split.
    - apply Rmult_le_pos; [lra | left; now apply Rinv_0_lt_compat].
    - apply Rdiv_le_1; lra. }
  lra.
Qed.

End Neff.

(** On the unit interval and for an exponent that is not negative the power
    stays in the unit interval. *)
Lemma float_pow_unit (x g : R) :
  0 <= x <= 1 -> 0 <= g -> exists y, float_pow x g = Ok y /\ 0 <= y <= 1.
Proof.
  intros [Hx0 Hx1] Hg. unfold float_pow.
  destruct (Rlt_dec 0 x) as [Hpos | Hnpos].
  - eexists; split; [reflexivity |]. unfold Rpower. split.
    + left. apply exp_pos.
    + rewrite <- exp_0. pose proof (ln_le_sub_1 Hpos) as Hln.
      assert (g * ln x <= 0) by nra.
      destruct (Rle_lt_or_eq_dec _ _ H) as [Hlt | ->]; [| lra].
      left. now apply exp_increasing.
  - destruct (Req_dec_T x 0) as [-> | Hne]; [| lra].
    destruct (Rlt_dec g 0); [lra |].
    destruct (Req_dec_T g 0); eexists; (split; [reflexivity | lra]).
Qed.

(** ** One round of [update] *)

Section UpdateAxis.

Import BeliefState.

Variable b : BeliefState.t.
Variable A : axis.
Variable c : VoteTally.

(** A round keeps [lam], [gamma] and [method]. *)
Lemma update_axis_params :
  let b' := snd (update_axis b A c) in
  lam b' = lam b /\ gamma b' = gamma b /\ method b' = method b.
Proof.
  unfold update_axis.
  destruct (if (method b =? "wilson")%string then _ else _) as [[neff cf] | e];
    [| now cbn].
  destruct (0 <? sumZ (values c))%Z; [| now cbn].
  destruct (Rlt_dec 0 neff); [| now cbn].
  destruct (smoothed b c (sumZ (values c))); now cbn.
Qed.

(** A round touches only the pseudo-counts of its own axis. *)
Lemma update_axis_other (B : axis) :
  B <> A ->
  aget (alpha (snd (update_axis b A c))) B = aget (alpha b) B.
Proof.
  intros HB. unfold update_axis.
  destruct (if (method b =? "wilson")%string then _ else _) as [[neff cf] | e];
    [| now cbn].
  destruct (0 <? sumZ (values c))%Z; [| now cbn].
  destruct (Rlt_dec 0 neff); [| now cbn].
  destruct (smoothed b c (sumZ (values c))); [| now cbn].
  cbn. destruct A, B; try reflexivity; contradiction.
Qed.

(** What [smoothed] returns when it returns. *)
Lemma smoothed_inv (n : Z) (p : PerSign R) :
  smoothed b c n = Ok p ->
  IZR n + 3 * lam b <> 0 /\
  forall s, sget p s = (IZR (sget c s) + lam b) / (IZR n + 3 * lam b).
Proof.
  unfold smoothed, float_div.
  destruct (Req_dec_T (IZR n + 3 * lam b) 0) as [E | NE]; cbn; [discriminate |].
  intros [= <-]. split; [assumption |]. now intros [].
Qed.

(** A round never decreases a pseudo-count: what it adds is the product of
    an effective sample size above zero and a proportion that is not
    negative. *)
Lemma update_axis_monotone (B : axis) (s : sign) :
  0 <= lam b -> nonneg_tally c ->
  alpha_at b B s <= alpha_at (snd (update_axis b A c)) B s.
Proof.
  intros Hlam Hc. unfold alpha_at.
  destruct (axis_eqb B A) eqn:E.
  2:{ rewrite update_axis_other; [lra |]. intros ->. now destruct A. }
  assert (B = A) as -> by (destruct A, B; now try discriminate). clear E.
  unfold update_axis.
  destruct (if (method b =? "wilson")%string then _ else _) as [[neff cf] | e];
    [| cbn; lra].
  rewrite total_sumZ.
  destruct (Z.ltb_spec 0 (total c)) as [Hn | _]; [| cbn; lra].
  destruct (Rlt_dec 0 neff) as [Hneff | _]; [| cbn; lra].
  destruct (smoothed b c (total c)) as [p_hat |] eqn:Hs; [| cbn; lra].
  apply smoothed_inv in Hs as [Hd Hp].
  apply IZR_lt in Hn.
  assert (Hdpos : 0 < / (IZR (total c) + 3 * lam b))
    by (apply Rinv_0_lt_compat; lra).
  assert (Hnn : forall s', 0 <= neff * sget p_hat s').
  { intros s'. rewrite Hp. apply Rmult_le_pos; [lra |].
    apply Rmult_le_pos; [| lra].
    assert (0 <= sget c s')%Z by (destruct Hc as (? & ? & ?); now destruct s').
    apply IZR_le in H. lra. }
  pose proof (Hnn Plus). pose proof (Hnn Zero). pose proof (Hnn Minus).
  cbn in *. destruct A, s; cbn; lra.
Qed.

(** With a valid configuration a round returns a confidence in the unit
    interval, and 0 for an empty tally. *)
Lemma update_axis_ok :
  0 <= gamma b -> 0 < lam b -> nonneg_tally c ->
  exists cf, fst (update_axis b A c) = Ok cf /\ 0 <= cf <= 1
             /\ (total c = 0%Z -> cf = 0).
Proof.
  intros Hg Hlam Hc. unfold update_axis. rewrite total_sumZ.
  destruct (Z.eq_dec (total c) 0) as [E0 | NE].
  - rewrite wilson_neff_zero, entropy_neff_zero by assumption.
    exists 0. rewrite E0.
    destruct (method b =? "wilson")%string; cbn; repeat split; lra.
  - assert (Hn : (0 < total c)%Z).
    { destruct Hc as (? & ? & ?). unfold total in *. lia. }
    assert (Hcf : exists cf,
               (if (method b =? "wilson")%string
                then _wilson_neff b c else _entropy_neff b c)
               = Ok (IZR (total c) * cf, cf) /\ 0 <= cf <= 1).
    { destruct (method b =? "wilson")%string.
      - rewrite wilson_neff_eq by assumption.
        destruct (float_pow_unit (wilson_base_unit Hc Hn) Hg) as (y & -> & Hy).
        now exists y.
      - rewrite entropy_neff_eq by assumption.
        destruct (float_pow_unit (entropy_base_unit b Hc Hn Hlam) Hg)
          as (y & -> & Hy).
        now exists y. }
    destruct Hcf as (cf & -> & Hcf). exists cf.
    destruct (Z.ltb_spec 0 (total c)); [| lia].
    rewrite smoothed_eq by assumption.
    destruct (Rlt_dec 0 (IZR (total c) * cf)); cbn;
      (repeat split; [lra | lra | intros; lia]).
Qed.

End UpdateAxis.

(** ** The whole [update] *)

(** [update] is the three rounds in turn, cut at the first that raises. *)
Lemma update_rounds (b : BeliefState.t) (ac : BeliefState.AxisCounts) :
  let r1 := BeliefState.update_axis b aX (atX ac) in
  let r2 := BeliefState.update_axis (snd r1) aY (atY ac) in
  let r3 := BeliefState.update_axis (snd r2) aZ (atZ ac) in
  BeliefState.update b ac
  = match fst r1 with
    | Err e => (Err e, snd r1)
    | Ok cx =>
        match fst r2 with
        | Err e => (Err e, snd r2)
        | Ok cy =>
            match fst r3 with
            | Err e => (Err e, snd r3)
            | Ok cz => (Ok (mkPerAxis cx cy cz), snd r3)
            end
        end
    end.
Proof.
  cbv zeta. unfold BeliefState.update.
  destruct (BeliefState.update_axis b aX (atX ac)) as [[cx | e1] b1]; cbn [fst snd];
    [| reflexivity].
  destruct (BeliefState.update_axis b1 aY (atY ac)) as [[cy | e2] b2]; cbn [fst snd];
    [| reflexivity].
  destruct (BeliefState.update_axis b2 aZ (atZ ac)) as [[cz | e3] b3]; reflexivity.
Qed.

(** [update] keeps [lam] and never decreases a pseudo-count. *)
Lemma update_monotone (b : BeliefState.t) (ac : BeliefState.AxisCounts) :
  0 <= BeliefState.lam b -> nonneg_counts ac ->
  BeliefState.lam (after_update b ac) = BeliefState.lam b
  /\ forall A s, alpha_at b A s <= alpha_at (after_update b ac) A s.
Proof.
  intros Hlam Hac. unfold after_update. rewrite update_rounds. cbv zeta.
  set (r1 := BeliefState.update_axis b aX (atX ac)).
  set (r2 := BeliefState.update_axis (snd r1) aY (atY ac)).
  set (r3 := BeliefState.update_axis (snd r2) aZ (atZ ac)).
  destruct (update_axis_params b aX (atX ac)) as (L1 & _ & _). fold r1 in L1.
  destruct (update_axis_params (snd r1) aY (atY ac)) as (L2 & _ & _). fold r2 in L2.
  destruct (update_axis_params (snd r2) aZ (atZ ac)) as (L3 & _ & _). fold r3 in L3.
  assert (M1 : forall A s, alpha_at b A s <= alpha_at (snd r1) A s).
  { intros A s. apply update_axis_monotone; [assumption | apply (Hac aX)]. }
  assert (M2 : forall A s, alpha_at (snd r1) A s <= alpha_at (snd r2) A s).
  { intros A s. apply update_axis_monotone; [lra | apply (Hac aY)]. }
  assert (M3 : forall A s, alpha_at (snd r2) A s <= alpha_at (snd r3) A s).
  { intros A s. apply update_axis_monotone; [lra | apply (Hac aZ)]. }
  destruct (fst r1); [| cbn [snd]; split; [lra | apply M1]].
  destruct (fst r2);
    [| cbn [snd]; split; [lra | intros A s; specialize (M1 A s); specialize (M2 A s); lra]].
  assert (forall A s, alpha_at b A s <= alpha_at (snd r3) A s).
  { intros A s. specialize (M1 A s); specialize (M2 A s); specialize (M3 A s). lra. }
  destruct (fst r3); cbn [snd]; (split; [lra | assumption]).
Qed.

(** With a valid configuration [update] returns, with confidences in the unit
    interval. *)
Lemma update_ok (b : BeliefState.t) (ac : BeliefState.AxisCounts) :
  0 <= BeliefState.gamma b -> 0 < BeliefState.lam b -> nonneg_counts ac ->
  exists conf, fst (BeliefState.update b ac) = Ok conf
               /\ forall A, 0 <= aget conf A <= 1
                            /\ (total (aget ac A) = 0%Z -> aget conf A = 0).
Proof.
  intros Hg Hlam Hac. rewrite update_rounds. cbv zeta.
  set (r1 := BeliefState.update_axis b aX (atX ac)).
  set (r2 := BeliefState.update_axis (snd r1) aY (atY ac)).
  set (r3 := BeliefState.update_axis (snd r2) aZ (atZ ac)).
  destruct (update_axis_params b aX (atX ac)) as (L1 & G1 & _).
  fold r1 in L1, G1.
  destruct (update_axis_params (snd r1) aY (atY ac)) as (L2 & G2 & _).
  fold r2 in L2, G2.
  destruct (@update_axis_ok b aX (atX ac) Hg Hlam (Hac aX)) as (cx & E1 & Hx).
  destruct (@update_axis_ok (snd r1) aY (atY ac)) as (cy & E2 & Hy);
    [lra | lra | apply (Hac aY) |].
  destruct (@update_axis_ok (snd r2) aZ (atZ ac)) as (cz & E3 & Hz);
    [lra | lra | apply (Hac aZ) |].
  fold r1 in E1. fold r2 in E2. fold r3 in E3. rewrite E1, E2, E3.
  exists (mkPerAxis cx cy cz). split; [reflexivity |].
  intros []; cbn; assumption.
Qed.

(** A round on a tally whose total is zero changes nothing and reports the
    confidence 0. *)
Lemma update_axis_zero (b : BeliefState.t) (A : axis) (c : BeliefState.VoteTally) :
  total c = 0%Z -> BeliefState.update_axis b A c = (Ok 0, b).
Proof.
  intros E. unfold BeliefState.update_axis.
  rewrite wilson_neff_zero, entropy_neff_zero by assumption.
  rewrite total_sumZ, E.
  now destruct (BeliefState.method b =? "wilson")%string.
Qed.

Lemma update_zero_axis (b : BeliefState.t) (ac : BeliefState.AxisCounts) (A : axis) :
  total (aget ac A) = 0%Z ->
  aget (BeliefState.alpha (after_update b ac)) A = aget (BeliefState.alpha b) A
  /\ forall conf, fst (BeliefState.update b ac) = Ok conf -> aget conf A = 0.
Proof.
  intros E. unfold after_update. rewrite update_rounds. cbv zeta.
  set (r1 := BeliefState.update_axis b aX (atX ac)).
  set (r2 := BeliefState.update_axis (snd r1) aY (atY ac)).
  set (r3 := BeliefState.update_axis (snd r2) aZ (atZ ac)).
  assert (K1 : aget (BeliefState.alpha (snd r1)) A = aget (BeliefState.alpha b) A
               /\ (A = aX -> fst r1 = Ok 0)).
  { destruct A; unfold r1.
    - cbn in E. rewrite update_axis_zero by assumption. now split.
    - split; [now apply update_axis_other | discriminate].
    - split; [now apply update_axis_other | discriminate]. }
  assert (K2 : aget (BeliefState.alpha (snd r2)) A
               = aget (BeliefState.alpha (snd r1)) A
               /\ (A = aY -> fst r2 = Ok 0)).
  { destruct A; unfold r2.
    - split; [now apply update_axis_other | discriminate].
    - cbn in E. rewrite update_axis_zero by assumption. now split.
    - split; [now apply update_axis_other | discriminate]. }
  assert (K3 : aget (BeliefState.alpha (snd r3)) A
               = aget (BeliefState.alpha (snd r2)) A
               /\ (A = aZ -> fst r3 = Ok 0)).
  { destruct A; unfold r3.
    - split; [now apply update_axis_other | discriminate].
    - split; [now apply update_axis_other | discriminate].
    - cbn in E. rewrite update_axis_zero by assumption. now split. }
  destruct K1 as [K1 C1], K2 as [K2 C2], K3 as [K3 C3].
  destruct (fst r1) as [cx | e1] eqn:E1; cbn [fst snd]; [| split; [exact K1 | discriminate]].
  destruct (fst r2) as [cy | e2] eqn:E2; cbn [fst snd];
    [| split; [congruence | discriminate]].
  destruct (fst r3) as [cz | e3] eqn:E3; cbn [fst snd];
    [| split; [congruence | discriminate]].
  split; [congruence |].
  intros conf [= <-].
  destruct A; cbn;
    [specialize (C1 eq_refl) | specialize (C2 eq_refl) | specialize (C3 eq_refl)];
    congruence.
Qed.

(** ** The queries *)

Section Queries.

Import BeliefState.

Variable b : BeliefState.t.

Lemma mass_eq (A : axis) :
  mass b A = alpha_at b A Plus + alpha_at b A Zero + alpha_at b A Minus.
Proof. unfold mass, sumR, values, alpha_at. cbn. ring. Qed.

Lemma posterior_axis_inv (A : axis) (p : PerSign R) :
  posterior_axis b A = Ok p ->
  mass b A <> 0 /\ forall s, sget p s = alpha_at b A s / mass b A.
Proof.
  unfold posterior_axis, float_div.
  destruct (Req_dec_T (mass b A) 0) as [E | NE]; cbn; [discriminate |].
  intros [= <-]. split; [assumption |]. now intros [].
Qed.

Lemma posterior_axis_ok (A : axis) :
  mass b A <> 0 ->
  posterior_axis b A
  = Ok (mkPerSign (alpha_at b A Plus / mass b A)
                  (alpha_at b A Zero / mass b A)
                  (alpha_at b A Minus / mass b A)).
Proof.
  intros NE. unfold posterior_axis. now rewrite !float_div_ok by assumption.
Qed.

Lemma get_posterior_inv (post : PerAxis (PerSign R)) :
  get_posterior b = Ok post ->
  forall A, mass b A <> 0
            /\ forall s, sget (aget post A) s = alpha_at b A s / mass b A.
Proof.
  unfold get_posterior.
  destruct (posterior_axis b aX) as [px |] eqn:EX; cbn [bind]; [| discriminate].
  destruct (posterior_axis b aY) as [py |] eqn:EY; cbn [bind]; [| discriminate].
  destruct (posterior_axis b aZ) as [pz |] eqn:EZ; cbn [bind]; [| discriminate].
  intros [= <-] []; cbn [aget atX atY atZ]; now apply posterior_axis_inv.
Qed.

Lemma get_posterior_ok :
  (forall A, mass b A <> 0) ->
  exists post, get_posterior b = Ok post.
Proof.
  intros NE. unfold get_posterior.
  rewrite !posterior_axis_ok by apply NE. cbn. now eexists.
Qed.

End Queries.

(** [top] returns the first sign, in the order ['+', '0', '-'], whose
    probability is the greatest. *)
Lemma top_spec (p : PerSign R) :
  let s := fst (BeliefState.top p) in
  let v := snd (BeliefState.top p) in
  v = sget p s
  /\ v = top_prob p
  /\ (forall s', sget p s' <= sget p s)
  /\ (forall s', sget p s' = sget p s -> (sign_index s <= sign_index s')%nat).
Proof.
  destruct p as [pp p0 pm].
  unfold BeliefState.top, max_by_snd, top_prob, Rmax. cbn.
  destruct (Rlt_dec pp p0), (Rle_dec pp p0); cbn; try (exfalso; lra);
  repeat match goal with
         | |- context [Rlt_dec ?x ?y] => destruct (Rlt_dec x y); cbn
         | |- context [Rle_dec ?x ?y] => destruct (Rle_dec x y); cbn
         end;
    try (exfalso; lra);
    repeat split; try lra;
    intros []; cbn; intros; solve [lra | lia | exfalso; lra].
Qed.

Section Decision.

Import BeliefState.

Variable b : BeliefState.t.
Variable post : PerAxis (PerSign R).
Hypothesis Hpost : get_posterior b = Ok post.

Lemma get_decision_eq :
  get_decision b
  = Ok (mkPerAxis (fst (top (atX post))) (fst (top (atY post)))
                  (fst (top (atZ post))),
        mkPerAxis (snd (top (atX post))) (snd (top (atY post)))
                  (snd (top (atZ post)))).
Proof. unfold get_decision. now rewrite Hpost. Qed.

Lemma axis_ok_spec (top_p tau kappa_min : R) (A : axis) :
  axis_ok b top_p tau kappa_min A = true
  <-> tau <= top_p /\ kappa_min <= mass b A.
Proof.
  unfold axis_ok.
  destruct (Rge_dec top_p tau); [destruct (Rge_dec (mass b A) kappa_min) |];
    split; intros H; try discriminate; try reflexivity; lra.
Qed.

Lemma should_stop_eq (tau kappa_min : R) :
  should_stop b tau kappa_min
  = Ok (axis_ok b (top_prob (atX post)) tau kappa_min aX
        && axis_ok b (top_prob (atY post)) tau kappa_min aY
        && axis_ok b (top_prob (atZ post)) tau kappa_min aZ,
        mkPerAxis (fst (top (atX post))) (fst (top (atY post)))
                  (fst (top (atZ post)))).
Proof.
  unfold should_stop. rewrite get_decision_eq.
  cbn [bind]. unfold axes. cbn [fold_left aget atX atY atZ].
  destruct (top_spec (atX post)) as (_ & -> & _).
  destruct (top_spec (atY post)) as (_ & -> & _).
  destruct (top_spec (atZ post)) as (_ & -> & _).
  do 2 f_equal.
  destruct (axis_ok b (top_prob (atX post)) tau kappa_min aX),
           (axis_ok b (top_prob (atY post)) tau kappa_min aY),
           (axis_ok b (top_prob (atZ post)) tau kappa_min aZ);
    reflexivity.
Qed.

End Decision.

(** The pseudo-counts of a reachable belief are at least the prior. *)
Lemma reachable_above_prior (l g : R) (m : string) (b : BeliefState.t) :
  0 < l -> reachable l g m b ->
  BeliefState.lam b = l /\ forall A s, l <= alpha_at b A s.
Proof.
  intros Hl Hr. induction Hr as [| b ac Hr [IHl IHa] Hac].
  - split; [reflexivity |]. intros [] []; cbn; lra.
  - destruct (@update_monotone b ac) as [L M]; [lra | assumption |].
    split; [congruence |].
    intros A s. specialize (IHa A s). specialize (M A s). lra.
Qed.

(** On the prior the posterior is uniform. *)
Lemma get_posterior_init (l g : R) (m : string) :
  l <> 0 ->
  BeliefState.get_posterior (BeliefState.init l g m)
  = Ok (mkPerAxis uniform uniform uniform).
Proof.
  intros Hl.
  assert (Hm : forall A, BeliefState.mass (BeliefState.init l g m) A = 3 * l).
  { intros []; unfold BeliefState.mass, sumR; cbn; ring. }
  assert (Hd : l / (3 * l) = 1 / 3) by (field; lra).
  unfold BeliefState.get_posterior.
  rewrite !posterior_axis_ok by (rewrite Hm; lra).
  rewrite !Hm. cbn. unfold uniform. now rewrite !Hd.
Qed.

Lemma scenario_counts_nonneg : nonneg_counts scenario_counts.
Proof. intros []; cbn; unfold nonneg_tally; cbn; lia. Qed.


(** ** Strings *)

Lemma append_assoc (a b c : string) : (a ++ b) ++ c = a ++ b ++ c.
Proof. induction a as [| x a IH]; cbn; [reflexivity | now rewrite IH]. Qed.

Lemma append_length (a b : string) :
  String.length (a ++ b) = (String.length a + String.length b)%nat.
Proof. induction a as [| x a IH]; cbn; [reflexivity | now rewrite IH]. Qed.

(** Two ways to cut one string: the shorter prefix is a prefix of the
    longer. *)
Lemma append_cut (a b c d : string) :
  a ++ b = c ++ d -> (String.length a <= String.length c)%nat ->
  exists e, c = a ++ e /\ b = e ++ d.
Proof.
  revert c. induction a as [| x a IH]; intros c H Hlen.
  - exists c. now split.
  - destruct c as [| y c]; cbn in Hlen; [lia |].
    cbn in H. injection H as -> H.
    destruct (IH c H) as (e & -> & ->); [lia |].
    exists e. now split.
Qed.

Lemma append_same_length (a b c d : string) :
  a ++ b = c ++ d -> String.length a = String.length c -> a = c /\ b = d.
Proof.
  intros H Hlen. destruct (append_cut a b c d H) as (e & -> & ->); [lia |].
  rewrite append_length in Hlen.
  destruct e; cbn in Hlen; [| lia].
  split; [| reflexivity]. clear. induction a as [| x a IH]; cbn; congruence.
Qed.

Lemma strip_prefix_spec (p s r : string) :
  PyStr.strip_prefix p s = Some r <-> s = p ++ r.
Proof.
  revert s. induction p as [| a p IH]; intros s; cbn.
  - split; [now intros [= ->] | now intros ->].
  - destruct s as [| c s]; [split; discriminate |].
    destruct (Ascii.eqb_spec a c) as [-> | NE].
    + rewrite IH. split; [now intros -> | now intros [= ->]].
    + split; [discriminate | intros [= E _]; now symmetry in E].
Qed.

Lemma strip_prefix_none (p s : string) :
  PyStr.strip_prefix p s = None <-> ~ exists r, s = p ++ r.
Proof.
  destruct (PyStr.strip_prefix p s) as [r |] eqn:E.
  - apply strip_prefix_spec in E. split; [discriminate |].
    intros H. exfalso. apply H. now exists r.
  - split; [| reflexivity]. intros _ [r Hr].
    apply strip_prefix_spec in Hr. congruence.
Qed.

(** ** The lazy star before a literal *)

Section LazyBeforeLiteral.

Variable lit : string.

Let k : string -> option Re.captures := Re.match_here [Re.Lit lit].

Lemma literal_here (s : string) :
  k s = match PyStr.strip_prefix lit s with
        | Some _ => Some []
        | None => None
        end.
Proof. reflexivity. Qed.

(** [(.*?)lit] with [re.DOTALL] stops before the first occurrence of
    [lit]. *)
Lemma star_lazy_first (s m : string) (caps : Re.captures) :
  Re.star_lazy Re.dot_all k s = Some (m, caps) ->
  caps = [] /\ exists post, first_occurrence lit s m post.
Proof.
  revert m. induction s as [| c s IH]; intros m; cbn [Re.star_lazy];
    rewrite literal_here.
  - destruct (PyStr.strip_prefix lit "") as [r |] eqn:E; [| discriminate].
    intros [= <- <-]. split; [reflexivity |].
    apply strip_prefix_spec in E. exists r. split; [exact E |].
    intros; cbn; lia.
  - destruct (PyStr.strip_prefix lit (String c s)) as [r |] eqn:E.
    + intros [= <- <-]. split; [reflexivity |].
      apply strip_prefix_spec in E. exists r. split; [exact E |].
      intros; cbn; lia.
    + cbn [Re.dot_all].
      destruct (Re.star_lazy Re.dot_all k s) as [[m' caps'] |] eqn:E';
        [| discriminate].
      intros [= <- <-]. destruct (IH m' eq_refl) as (-> & post & Hs & Hmin).
      split; [reflexivity |]. exists post. split.
      * cbn. now rewrite <- Hs.
      * intros pre' post' H'. destruct pre' as [| c' pre'].
        -- exfalso. apply strip_prefix_none in E. apply E. now exists post'.
        -- cbn in H'. injection H' as _ H'. cbn.
           specialize (Hmin _ _ H'). lia.
Qed.

Lemma star_lazy_none (s : string) :
  Re.star_lazy Re.dot_all k s = None ->
  ~ exists pre post, s = pre ++ lit ++ post.
Proof.
  induction s as [| c s IH]; cbn [Re.star_lazy]; rewrite literal_here.
  - destruct (PyStr.strip_prefix lit "") as [r |] eqn:E; [discriminate |].
    intros _ (pre & post & H). apply strip_prefix_none in E. apply E.
    destruct pre; [now exists post | discriminate].
  - destruct (PyStr.strip_prefix lit (String c s)) as [r |] eqn:E;
      [discriminate |].
    cbn [Re.dot_all].
    destruct (Re.star_lazy Re.dot_all k s) as [[m' caps'] |] eqn:E';
      [discriminate |].
    intros _ (pre & post & H). destruct pre as [| c' pre].
    + apply strip_prefix_none in E. apply E. now exists post.
    + cbn in H. injection H as _ H. apply (IH eq_refl). now exists pre, post.
Qed.

End LazyBeforeLiteral.

(** ** The answer tags *)

Lemma first_occurrence_unique (pat s pre1 post1 pre2 post2 : string) :
  first_occurrence pat s pre1 post1 -> first_occurrence pat s pre2 post2 ->
  pre1 = pre2 /\ post1 = post2.
Proof.
  intros [E1 M1] [E2 M2].
  pose proof (M1 _ _ E2). pose proof (M2 _ _ E1).
  assert (Hlen : String.length pre1 = String.length pre2) by lia.
  rewrite E1 in E2.
  destruct (append_same_length _ _ _ _ E2 Hlen) as [-> E3].
  split; [reflexivity |].
  now destruct (append_same_length _ _ _ _ E3 eq_refl).
Qed.

Lemma enclosed_unique (s c1 c2 : string) :
  enclosed s c1 -> enclosed s c2 -> c1 = c2.
Proof.
  intros (pre1 & rest1 & post1 & F1 & G1) (pre2 & rest2 & post2 & F2 & G2).
  destruct (first_occurrence_unique F1 F2) as [_ <-].
  now destruct (first_occurrence_unique G1 G2).
Qed.

Lemma enclosed_has_tags (s content : string) :
  enclosed s content -> has_answer_tags s.
Proof.
  intros (pre & rest & post & [E1 _] & [E2 _]).
  exists pre, content, post. now rewrite <- E2.
Qed.

Lemma match_here_json (s : string) :
  Re.match_here Verifier.answer_pattern_json s
  = match PyStr.strip_prefix "<answer>" s with
    | Some rest =>
        match Re.star_lazy Re.dot_all (Re.match_here [Re.Lit "</answer>"]) rest with
        | Some (m, caps) => Some (m :: caps)
        | None => None
        end
    | None => None
    end.
Proof. reflexivity. Qed.

(** [re.search] of the action-plan pattern captures the enclosed content. *)
Lemma search_json_some (s : string) (caps : Re.captures) :
  Re.search Verifier.answer_pattern_json s = Some caps ->
  exists content, caps = [content] /\ enclosed s content.
Proof.
  induction s as [| c s IH].
  - cbn [Re.search]. rewrite match_here_json. cbn. discriminate.
  - cbn [Re.search]. rewrite match_here_json.
    destruct (PyStr.strip_prefix "<answer>" (String c s)) as [rest |] eqn:E.
    + apply strip_prefix_spec in E.
      destruct (Re.star_lazy Re.dot_all _ rest) as [[m caps'] |] eqn:EL.
      * intros [= <-]. apply star_lazy_first in EL as (-> & post & F).
        exists m. split; [reflexivity |].
        exists "", rest, post. split; [| exact F].
        split; [exact E | intros; cbn; lia].
      * intros Hs. destruct (IH Hs) as (content & -> & pre & rest' & post & F1 & F2).
        exists content. split; [reflexivity |].
        exists (String c pre), rest', post. split; [| exact F2].
        destruct F1 as [E1 M1]. split; [now rewrite E1 |].
        intros pre' post' H'. destruct pre' as [| c' pre'].
        -- exfalso. apply star_lazy_none in EL. apply EL.
           destruct F2 as [E2 _].
           assert (Hcut : "<answer>" ++ rest
                          = (String c pre ++ "<answer>" ++ content)
                              ++ "</answer>" ++ post).
           { rewrite <- E. rewrite !append_assoc.
             rewrite E1, E2. reflexivity. }
           apply append_cut in Hcut as (e & _ & ->).
           ++ now exists e, post.
           ++ cbn. rewrite append_length. cbn. lia.
        -- cbn in H'. injection H' as _ H'. cbn.
           specialize (M1 _ _ H'). lia.
    + intros Hs. destruct (IH Hs) as (content & -> & pre & rest' & post & F1 & F2).
      exists content. split; [reflexivity |].
      exists (String c pre), rest', post. split; [| exact F2].
      destruct F1 as [E1 M1]. split; [now rewrite E1 |].
      intros pre' post' H'. destruct pre' as [| c' pre'].
      * exfalso. apply strip_prefix_none in E. apply E. now exists post'.
      * cbn in H'. injection H' as _ H'. cbn.
        specialize (M1 _ _ H'). lia.
Qed.

Lemma search_json_none (s : string) :
  Re.search Verifier.answer_pattern_json s = None -> ~ has_answer_tags s.
Proof.
  induction s as [| c s IH]; cbn [Re.search]; rewrite match_here_json.
  - intros _ (pre & mid & post & H).
    destruct pre; cbn in H; discriminate.
  - destruct (PyStr.strip_prefix "<answer>" (String c s)) as [rest |] eqn:E.
    + destruct (Re.star_lazy Re.dot_all _ rest) as [[m caps'] |] eqn:EL;
        [discriminate |].
      intros Hs (pre & mid & post & H). destruct pre as [| c' pre].
      * apply strip_prefix_spec in E. apply star_lazy_none in EL. apply EL.
        change (String c s = "<answer>" ++ mid ++ "</answer>" ++ post) in H.
        rewrite E in H.
        destruct (append_same_length "<answer>" rest "<answer>"
                    (mid ++ "</answer>" ++ post) H eq_refl) as [_ ->].
        now exists mid, post.
      * cbn in H. injection H as _ H. apply (IH Hs). now exists pre, mid, post.
    + intros Hs (pre & mid & post & H). destruct pre as [| c' pre].
      * apply strip_prefix_none in E. apply E.
        now exists (mid ++ "</answer>" ++ post).
      * cbn in H. injection H as _ H. apply (IH Hs). now exists pre, mid, post.
Qed.

(** What [parse_answer_json] returns on every text. *)
Lemma parse_answer_json_cases (json_loads : string -> option json) (s : string) :
  (~ has_answer_tags s
   /\ Verifier.parse_answer_json json_loads s = Err Verifier.no_tags_error)
  \/ (exists content,
         enclosed s content
         /\ Verifier.parse_answer_json json_loads s
            = match json_loads (PyStr.strip content) with
              | Some v => Ok v
              | None => Err Verifier.invalid_json_error
              end).
Proof.
  unfold Verifier.parse_answer_json.
  destruct (Re.search Verifier.answer_pattern_json s) as [caps |] eqn:E.
  - right. apply search_json_some in E as (content & -> & Henc).
    exists content. now split.
  - left. split; [now apply search_json_none | reflexivity].
Qed.

(** ** The control loop *)

Lemma top_uniform : BeliefState.top uniform = (Plus, 1 / 3).
Proof.
  unfold BeliefState.top, max_by_snd, uniform. cbn.
  destruct (Rlt_dec (1 / 3) (1 / 3)); [lra |]. cbn.
  destruct (Rlt_dec (1 / 3) (1 / 3)); [lra | reflexivity].
Qed.

(** On the prior every decision is ['+'] with probability 1/3. *)
Lemma get_decision_init (l g : R) (m : string) :
  l <> 0 ->
  BeliefState.get_decision (BeliefState.init l g m)
  = Ok (mkPerAxis Plus Plus Plus, mkPerAxis (1 / 3) (1 / 3) (1 / 3)).
Proof.
  intros Hl.
  rewrite (@get_decision_eq _ _ (get_posterior_init g m Hl)).
  cbn [atX atY atZ]. now rewrite top_uniform.
Qed.

Section AgentFacts.

Variable World : Type.
Variable collab : Agent.Collaborators World.

(** [propose_view] leaves the agent object alone. *)
Lemma propose_view_agent (central target : string) (s : Agent.t * World) :
  fst (snd (Agent.propose_view collab central target s)) = fst s.
Proof.
  destruct s as [self w].
  unfold Agent.propose_view, Agent.mbind, Agent.get_self, Agent.lift, Agent.call.
  cbn [fst snd].
  destruct (Agent.history self).
  - match goal with
    | |- context [Agent.call_llm collab ?a ?p ?x] =>
        now destruct (Agent.call_llm collab a p x)
    end.
  - destruct (BeliefState.get_posterior (Agent.belief self)); [| reflexivity].
    cbn [fst snd].
    match goal with
    | |- context [Agent.call_llm collab ?a ?p ?x] =>
        now destruct (Agent.call_llm collab a p x)
    end.
Qed.

(** When the response of the planner does not decode, the round raises the
    error of the decoder at once. *)
Lemma iteration_format_error
  (central target : string) (jitter_size : Z) (s s1 : Agent.t * World)
  (r : string) (e : exn) :
  Agent.propose_view collab central target s = (Ok r, s1) ->
  Verifier.parse_answer_json (Agent.json_loads collab) r = Err e ->
  Agent.iteration collab central target jitter_size s = (Err e, s1).
Proof.
  intros Hp He. unfold Agent.iteration, Agent.mbind at 1. rewrite Hp.
  unfold Agent.mbind at 1, Agent.lift at 1. now rewrite He.
Qed.

(** When the decoded action is [STOP], the round leaves the loop at once. *)
Lemma iteration_stop
  (central target : string) (jitter_size : Z) (s s1 : Agent.t * World)
  (r : string) (action act : json) :
  Agent.propose_view collab central target s = (Ok r, s1) ->
  Verifier.parse_answer_json (Agent.json_loads collab) r = Ok action ->
  Json.getitem action "action" = Ok act ->
  Json.eq_str act "STOP" = true ->
  Agent.iteration collab central target jitter_size s = (Ok true, s1).
Proof.
  intros Hp Ha Hact Hstop. unfold Agent.iteration, Agent.mbind at 1. rewrite Hp.
  unfold Agent.mbind at 1, Agent.lift at 1. rewrite Ha.
  unfold Agent.mbind at 1, Agent.lift at 1. rewrite Hact.
  now rewrite Hstop.
Qed.

(** The loop body is not entered once [steps] has reached [max_steps]. *)
Lemma loop_exhausted
  (fuel : nat) (central target : string) (jitter_size max_steps : Z)
  (s : Agent.t * World) :
  (max_steps <= Agent.steps (fst s))%Z ->
  Agent.loop collab fuel central target jitter_size max_steps s = (Ok tt, s).
Proof.
  intros H. destruct fuel; [reflexivity |].
  cbn [Agent.loop]. unfold Agent.mbind, Agent.get_self. cbn [fst snd].
  destruct (Z.ltb_spec (Agent.steps (fst s)) max_steps); [lia | reflexivity].
Qed.

(** One round of the loop, when the budget allows it. *)
Lemma loop_unfold
  (fuel : nat) (central target : string) (jitter_size max_steps : Z)
  (s : Agent.t * World) :
  (Agent.steps (fst s) < max_steps)%Z ->
  Agent.loop collab (S fuel) central target jitter_size max_steps s
  = match Agent.iteration collab central target jitter_size s with
    | (Ok true, s') => (Ok tt, s')
    | (Ok false, s') =>
        Agent.loop collab fuel central target jitter_size max_steps s'
    | (Err e, s') => (Err e, s')
    end.
Proof.
  intros H. cbn [Agent.loop]. unfold Agent.mbind at 1, Agent.get_self.
  cbn [fst snd].
  destruct (Z.ltb_spec (Agent.steps (fst s)) max_steps); [| lia].
  unfold Agent.mbind.
  destruct (Agent.iteration collab central target jitter_size s) as [[[|] | e] s'];
    reflexivity.
Qed.

(** [run] is the loop and then the decision. *)
Lemma run_unfold
  (central target : string) (jitter_size max_steps : Z) (s : Agent.t * World) :
  Agent.run collab central target jitter_size max_steps s
  = match Agent.loop collab (Z.to_nat (max_steps - Agent.steps (fst s)))
                     central target jitter_size max_steps s with
    | (Ok _, s') =>
        match BeliefState.get_decision (Agent.belief (fst s')) with
        | Ok r => (Ok (Agent.format_answer (fst r), snd r), s')
        | Err e => (Err e, s')
        end
    | (Err e, s') => (Err e, s')
    end.
Proof.
  unfold Agent.run, Agent.mbind, Agent.get_self, Agent.lift, Agent.ret.
  cbn [fst snd].
  destruct (Agent.loop collab _ central target jitter_size max_steps s)
    as [[[] | e] s']; [| reflexivity].
  now destruct (BeliefState.get_decision (Agent.belief (fst s'))).
Qed.

End AgentFacts.

(** ** A program logic for the computations of the agent *)

Lemma belief_le_refl (b : BeliefState.t) : belief_le b b.
Proof. intros H. split; [assumption | intros; lra]. Qed.

Lemma belief_le_trans (b1 b2 b3 : BeliefState.t) :
  belief_le b1 b2 -> belief_le b2 b3 -> belief_le b1 b3.
Proof.
  intros H12 H23 H1. destruct (H12 H1) as [H2 M12].
  destruct (H23 H2) as [H3 M23]. split; [assumption |].
  intros A s. specialize (M12 A s). specialize (M23 A s). lra.
Qed.

Lemma tally_axis_nonneg (c : BeliefState.VoteTally) (l : option sign) :
  nonneg_tally c -> nonneg_tally (Agent.tally_axis c l).
Proof.
  unfold nonneg_tally. intros (? & ? & ?).
  destruct l as [[] |]; cbn; lia.
Qed.

Lemma tally_nonneg (ac : BeliefState.AxisCounts) (labels : Verifier.Labels) :
  nonneg_counts ac -> nonneg_counts (Agent.tally ac labels).
Proof.
  intros H []; cbn; apply tally_axis_nonneg;
    [apply (H aX) | apply (H aY) | apply (H aZ)].
Qed.

Lemma zero_counts_nonneg : nonneg_counts Agent.zero_counts.
Proof. intros []; cbn; unfold nonneg_tally; cbn; lia. Qed.

Section Logic.

Variable World : Type.
Variable collab : Agent.Collaborators World.

Variables A B : Type.

Lemma triple_ret (P : Agent.t -> Prop) (a : A) (Q : A -> Agent.t -> Prop)
      (E : Agent.t -> Prop) :
  (forall st, P st -> Q a st) -> triple P (Agent.ret (World := World) a) Q E.
Proof. intros H s Hs. cbn. now apply H. Qed.

Lemma triple_raise (P : Agent.t -> Prop) (e : exn) (Q : A -> Agent.t -> Prop)
      (E : Agent.t -> Prop) :
  (forall st, P st -> E st) -> triple P (Agent.raise (World := World) e) Q E.
Proof. intros H s Hs. cbn. now apply H. Qed.

Lemma triple_bind (P : Agent.t -> Prop) (m : Agent.M World A)
      (k : A -> Agent.M World B) (Q1 : A -> Agent.t -> Prop)
      (Q2 : B -> Agent.t -> Prop) (E : Agent.t -> Prop) :
  triple P m Q1 E -> (forall a, triple (Q1 a) (k a) Q2 E) ->
  triple P (Agent.mbind m k) Q2 E.
Proof.
  intros Hm Hk s Hs. unfold Agent.mbind. specialize (Hm s Hs).
  destruct (m s) as [[a | e] s']; [| exact Hm].
  apply (Hk a s' Hm).
Qed.

Lemma triple_consequence (P P' : Agent.t -> Prop) (m : Agent.M World A)
      (Q Q' : A -> Agent.t -> Prop) (E E' : Agent.t -> Prop) :
  triple P m Q E ->
  (forall st, P' st -> P st) ->
  (forall a st, Q a st -> Q' a st) ->
  (forall st, E st -> E' st) ->
  triple P' m Q' E'.
Proof.
  intros Hm HP HQ HE s Hs. specialize (Hm s (HP _ Hs)).
  destruct (m s) as [[a | e] s']; [now apply HQ | now apply HE].
Qed.

(** A fact that does not speak of the agent can leave the precondition. *)
Lemma triple_assume (P : Agent.t -> Prop) (fact : Prop) (m : Agent.M World A)
      (Q : A -> Agent.t -> Prop) (E : Agent.t -> Prop) :
  (fact -> triple P m Q E) -> triple (fun st => P st /\ fact) m Q E.
Proof. intros H s [Hs Hf]. now apply H. Qed.

(** A computation that leaves the agent alone keeps every property of it,
    and its value has what all its values have. *)
Lemma triple_unchanged (P : Agent.t -> Prop) (m : Agent.M World A)
      (Qv : A -> Prop) :
  agent_unchanged m -> returns m Qv ->
  triple P m (fun a st => P st /\ Qv a) P.
Proof.
  intros Hu Hr s Hs. specialize (Hu s). specialize (Hr s).
  destruct (m s) as [[a | e] s']; cbn [fst snd] in *.
  - rewrite Hu. split; [exact Hs | now apply Hr].
  - now rewrite Hu.
Qed.

Lemma returns_any (m : Agent.M World A) : returns m (fun _ => True).
Proof. intros s a _. exact I. Qed.

Lemma returns_bind (m : Agent.M World A) (k : A -> Agent.M World B)
      (Q1 : A -> Prop) (Q2 : B -> Prop) :
  returns m Q1 -> (forall a, Q1 a -> returns (k a) Q2) ->
  returns (Agent.mbind m k) Q2.
Proof.
  intros Hm Hk s b. unfold Agent.mbind. specialize (Hm s).
  destruct (m s) as [[a | e] s']; [| discriminate].
  apply (Hk a (Hm a eq_refl) s').
Qed.

Lemma unchanged_ret (a : A) : agent_unchanged (Agent.ret (World := World) a).
Proof. intros s. reflexivity. Qed.

Lemma unchanged_lift (r : Result A) :
  agent_unchanged (Agent.lift (World := World) r).
Proof. intros s. reflexivity. Qed.

Lemma unchanged_call (f : World -> Result A * World) :
  agent_unchanged (Agent.call f).
Proof. intros s. unfold Agent.call. now destruct (f (snd s)). Qed.

Lemma unchanged_bind (m : Agent.M World A) (k : A -> Agent.M World B) :
  agent_unchanged m -> (forall a, agent_unchanged (k a)) ->
  agent_unchanged (Agent.mbind m k).
Proof.
  intros Hm Hk s. unfold Agent.mbind. specialize (Hm s).
  destruct (m s) as [[a | e] s']; cbn [fst snd] in *; [| exact Hm].
  now rewrite Hk.
Qed.

End Logic.

Section Unchanged.

Variable World : Type.
Variable collab : Agent.Collaborators World.

Lemma unchanged_get_self : agent_unchanged (Agent.get_self (World := World)).
Proof. intros s. reflexivity. Qed.

Lemma unchanged_propose_view (central target : string) :
  agent_unchanged (Agent.propose_view collab central target).
Proof. intros s. apply propose_view_agent. Qed.

Lemma unchanged_perceive (img_path central target : string) (focus_axis : json) :
  agent_unchanged (Agent.perceive collab img_path central target focus_axis).
Proof.
  unfold Agent.perceive.
  apply unchanged_bind; [apply unchanged_get_self |].
  intros; apply unchanged_call.
Qed.

Lemma unchanged_jitter (m : nat) (r_az r_el : R) :
  agent_unchanged (Agent.jitter_loop collab m r_az r_el).
Proof.
  induction m as [| m IH]; cbn [Agent.jitter_loop]; [apply unchanged_ret |].
  apply unchanged_bind; [apply unchanged_call | intros daz].
  apply unchanged_bind; [apply unchanged_call | intros del_].
  apply unchanged_bind; [apply IH | intros; apply unchanged_ret].
Qed.

Lemma unchanged_vote (az el focus_axis : json) (central target : string)
      (offsets : list (R * R)) :
  forall (ac : BeliefState.AxisCounts) (view_ans : option Verifier.Labels),
    agent_unchanged
      (Agent.vote collab az el focus_axis central target offsets ac view_ans).
Proof.
  induction offsets as [| [daz del_] rest IH]; intros ac view_ans;
    cbn [Agent.vote]; [apply unchanged_ret |].
  apply unchanged_bind; [apply unchanged_lift | intros a].
  apply unchanged_bind; [apply unchanged_lift | intros e].
  apply unchanged_bind; [apply unchanged_call | intros img_path].
  apply unchanged_bind; [apply unchanged_perceive | intros ans].
  apply IH.
Qed.

(** The votes of a step are counts that are not negative. *)
Lemma vote_counts_nonneg (az el focus_axis : json) (central target : string)
      (offsets : list (R * R)) :
  forall (ac : BeliefState.AxisCounts) (view_ans : option Verifier.Labels),
    nonneg_counts ac ->
    returns (Agent.vote collab az el focus_axis central target offsets ac view_ans)
            (fun r => nonneg_counts (fst r)).
Proof.
  induction offsets as [| [daz del_] rest IH]; intros ac view_ans Hac;
    cbn [Agent.vote].
  - intros s a [= <-]. exact Hac.
  - apply returns_bind with (Q1 := fun _ => True); [apply returns_any |].
    intros a _.
    apply returns_bind with (Q1 := fun _ => True); [apply returns_any |].
    intros e _.
    apply returns_bind with (Q1 := fun _ => True); [apply returns_any |].
    intros img_path _.
    apply returns_bind with (Q1 := fun _ => True); [apply returns_any |].
    intros ans _. apply IH. now apply tally_nonneg.
Qed.

End Unchanged.

(** ** The rounds of the loop *)

Section Rounds.

Variable World : Type.
Variable collab : Agent.Collaborators World.

(** A step that leaves the agent alone, before the rest of a computation. *)
Lemma triple_skip (A B : Type) (P : Agent.t -> Prop) (m : Agent.M World A)
      (k : A -> Agent.M World B) (Qv : A -> Prop)
      (Q : B -> Agent.t -> Prop) (E : Agent.t -> Prop) :
  agent_unchanged m -> returns m Qv ->
  (forall st, P st -> E st) ->
  (forall a, Qv a -> triple P (k a) Q E) ->
  triple P (Agent.mbind m k) Q E.
Proof.
  intros Hu Hr HE Hk.
  apply triple_bind with (Q1 := fun a st => P st /\ Qv a).
  - apply triple_consequence with (1 := triple_unchanged P Hu Hr); auto.
  - intros a. apply triple_assume. apply Hk.
Qed.

(** [update] is the one step that changes the belief, and it moves it up. *)
Lemma belief_update_above (b0 : BeliefState.t) (ac : BeliefState.AxisCounts) :
  nonneg_counts ac ->
  triple (above b0) (Agent.belief_update (World := World) ac)
         (fun _ => above b0) (above b0).
Proof.
  intros Hac s Hs. unfold Agent.belief_update.
  assert (Hup : belief_le (Agent.belief (fst s))
                          (after_update (Agent.belief (fst s)) ac)).
  { intros Hlam. destruct (@update_monotone _ ac Hlam Hac) as [L M].
    split; [lra | exact M]. }
  unfold after_update in Hup.
  destruct (BeliefState.update (Agent.belief (fst s)) ac) as [[conf | e] b'];
    cbn [fst snd Agent.belief] in *;
    now apply belief_le_trans with (Agent.belief (fst s)).
Qed.

Lemma history_append_above (b0 : BeliefState.t) (e : Agent.HistoryEntry) :
  triple (above b0) (Agent.history_append (World := World) e)
         (fun _ => above b0) (above b0).
Proof. intros s Hs. exact Hs. Qed.

Lemma steps_increment_above (b0 : BeliefState.t) :
  triple (above b0) (Agent.steps_increment (World := World))
         (fun _ => above b0) (above b0).
Proof. intros s Hs. exact Hs. Qed.

(** A round never lowers the belief, whether it returns or raises. *)
Lemma iteration_above (b0 : BeliefState.t) (central target : string)
      (jitter_size : Z) :
  triple (above b0) (Agent.iteration collab central target jitter_size)
         (fun _ => above b0) (above b0).
Proof.
  unfold Agent.iteration.
  apply triple_skip with (Qv := fun _ => True);
    [apply unchanged_propose_view | apply returns_any | auto |].
  intros llm_response _.
  apply triple_skip with (Qv := fun _ => True);
    [apply unchanged_lift | apply returns_any | auto |].
  intros action _.
  apply triple_skip with (Qv := fun _ => True);
    [apply unchanged_lift | apply returns_any | auto |].
  intros act _. destruct (Json.eq_str act "STOP"); [now apply triple_ret |].
  apply triple_skip with (Qv := fun _ => True);
    [apply unchanged_lift | apply returns_any | auto |].
  intros view _.
  apply triple_skip with (Qv := fun _ => True);
    [apply unchanged_lift | apply returns_any | auto |].
  intros az _.
  apply triple_skip with (Qv := fun _ => True);
    [apply unchanged_lift | apply returns_any | auto |].
  intros view' _.
  apply triple_skip with (Qv := fun _ => True);
    [apply unchanged_lift | apply returns_any | auto |].
  intros el _.
  apply triple_skip with (Qv := fun _ => True);
    [apply unchanged_lift | apply returns_any | auto |].
  intros focus_axis _.
  apply triple_skip with (Qv := fun _ => True);
    [apply unchanged_jitter | apply returns_any | auto |].
  intros offsets _.
  apply triple_skip with (Qv := fun r => nonneg_counts (fst r));
    [apply unchanged_vote | apply vote_counts_nonneg, zero_counts_nonneg
    | auto |].
  intros [axis_counts view_ans] Hac.
  apply triple_bind with (Q1 := fun _ => above b0);
    [now apply belief_update_above |].
  intros confidence_scores.
  apply triple_skip with (Qv := fun _ => True);
    [apply unchanged_get_self | apply returns_any | auto |].
  intros self _.
  apply triple_bind with (Q1 := fun _ => above b0).
  { destruct view_ans; [apply history_append_above | now apply triple_raise]. }
  intros _.
  apply triple_bind with (Q1 := fun _ => above b0);
    [apply steps_increment_above |].
  intros _.
  apply triple_skip with (Qv := fun _ => True);
    [apply unchanged_get_self | apply returns_any | auto |].
  intros self' _.
  apply triple_skip with (Qv := fun _ => True);
    [apply unchanged_lift | apply returns_any | auto |].
  intros r _. now apply triple_ret.
Qed.

Lemma loop_above (b0 : BeliefState.t) (fuel : nat) (central target : string)
      (jitter_size max_steps : Z) :
  triple (above b0)
         (Agent.loop collab fuel central target jitter_size max_steps)
         (fun _ => above b0) (above b0).
Proof.
  induction fuel as [| fuel IH]; cbn [Agent.loop]; [now apply triple_ret |].
  apply triple_skip with (Qv := fun _ => True);
    [apply unchanged_get_self | apply returns_any | auto |].
  intros self _. destruct (Agent.steps self <? max_steps)%Z;
    [| now apply triple_ret].
  apply triple_bind with (Q1 := fun _ => above b0); [apply iteration_above |].
  intros []; [now apply triple_ret | apply IH].
Qed.

Lemma run_above (b0 : BeliefState.t) (central target : string)
      (jitter_size max_steps : Z) :
  triple (above b0)
         (Agent.run collab central target jitter_size max_steps)
         (fun _ => above b0) (above b0).
Proof.
  unfold Agent.run.
  apply triple_skip with (Qv := fun _ => True);
    [apply unchanged_get_self | apply returns_any | auto |].
  intros self _.
  apply triple_bind with (Q1 := fun _ => above b0); [apply loop_above |].
  intros _.
  apply triple_skip with (Qv := fun _ => True);
    [apply unchanged_get_self | apply returns_any | auto |].
  intros self' _.
  apply triple_skip with (Qv := fun _ => True);
    [apply unchanged_lift | apply returns_any | auto |].
  intros r _. now apply triple_ret.
Qed.

(** A round that returns without leaving the loop has added one to
    [steps]. *)
Lemma iteration_steps (n0 : Z) (central target : string) (jitter_size : Z) :
  triple (fun st => Agent.steps st = n0)
         (Agent.iteration collab central target jitter_size)
         (fun stop st => stop = false -> Agent.steps st = (n0 + 1)%Z)
         (fun _ => True).
Proof.
  unfold Agent.iteration.
  apply triple_skip with (Qv := fun _ => True);
    [apply unchanged_propose_view | apply returns_any | auto |].
  intros llm_response _.
  apply triple_skip with (Qv := fun _ => True);
    [apply unchanged_lift | apply returns_any | auto |].
  intros action _.
  apply triple_skip with (Qv := fun _ => True);
    [apply unchanged_lift | apply returns_any | auto |].
  intros act _. destruct (Json.eq_str act "STOP").
  { apply triple_ret. intros st _. discriminate. }
  apply triple_skip with (Qv := fun _ => True);
    [apply unchanged_lift | apply returns_any | auto |].
  intros view _.
  apply triple_skip with (Qv := fun _ => True);
    [apply unchanged_lift | apply returns_any | auto |].
  intros az _.
  apply triple_skip with (Qv := fun _ => True);
    [apply unchanged_lift | apply returns_any | auto |].
  intros view' _.
  apply triple_skip with (Qv := fun _ => True);
    [apply unchanged_lift | apply returns_any | auto |].
  intros el _.
  apply triple_skip with (Qv := fun _ => True);
    [apply unchanged_lift | apply returns_any | auto |].
  intros focus_axis _.
  apply triple_skip with (Qv := fun _ => True);
    [apply unchanged_jitter | apply returns_any | auto |].
  intros offsets _.
  apply triple_skip with (Qv := fun _ => True);
    [apply unchanged_vote | apply returns_any | auto |].
  intros [axis_counts view_ans] _.
  apply triple_bind with (Q1 := fun _ st => Agent.steps st = n0).
  { intros s Hs. unfold Agent.belief_update.
    now destruct (BeliefState.update (Agent.belief (fst s)) axis_counts)
      as [[conf | e] b']. }
  intros confidence_scores.
  apply triple_skip with (Qv := fun _ => True);
    [apply unchanged_get_self | apply returns_any | auto |].
  intros self _.
  apply triple_bind with (Q1 := fun _ st => Agent.steps st = n0).
  { destruct view_ans; [intros s Hs; exact Hs | now apply triple_raise]. }
  intros _.
  apply triple_bind with (Q1 := fun _ st => Agent.steps st = (n0 + 1)%Z).
  { intros s Hs. cbn. now rewrite Hs. }
  intros _.
  apply triple_skip with (Qv := fun _ => True);
    [apply unchanged_get_self | apply returns_any | auto |].
  intros self' _.
  apply triple_skip with (Qv := fun _ => True);
    [apply unchanged_lift | apply returns_any | auto |].
  intros r _. apply triple_ret. auto.
Qed.

(** The fuel that [run] gives to the loop is enough: more fuel changes
    nothing, so the loop never ends for want of fuel while
    [steps < max_steps]. *)
Lemma loop_fuel_enough (central target : string) (jitter_size max_steps : Z)
      (fuel : nat) :
  forall s : Agent.t * World,
    (Z.to_nat (max_steps - Agent.steps (fst s)) <= fuel)%nat ->
    Agent.loop collab fuel central target jitter_size max_steps s
    = Agent.loop collab (Z.to_nat (max_steps - Agent.steps (fst s)))
                 central target jitter_size max_steps s.
Proof.
  induction fuel as [| fuel IH]; intros s Hfuel.
  - now replace (Z.to_nat (max_steps - Agent.steps (fst s))) with 0%nat by lia.
  - destruct (Z.lt_ge_cases (Agent.steps (fst s)) max_steps) as [Hlt | Hge].
    + destruct (Z.to_nat (max_steps - Agent.steps (fst s))) as [| k] eqn:Ek;
        [lia |].
      rewrite !loop_unfold by assumption.
      pose proof (@iteration_steps (Agent.steps (fst s)) central target
                    jitter_size s eq_refl) as Hst.
      destruct (Agent.iteration collab central target jitter_size s)
        as [[[|] | e] s']; try reflexivity.
      specialize (Hst eq_refl).
      assert (Hk : Z.to_nat (max_steps - Agent.steps (fst s')) = k) by lia.
      rewrite IH by lia. now rewrite Hk.
    + now rewrite !loop_exhausted by assumption.
Qed.

End Rounds.

(** ** The number of rounds *)

Section Cycles.

Variable World : Type.
Variable collab : Agent.Collaborators World.

Lemma triple_get_self (P : Agent.t -> Prop) (E : Agent.t -> Prop) :
  triple P (Agent.get_self (World := World))
         (fun self st => self = st /\ P st) E.
Proof. intros s Hs. cbn. now split. Qed.

(** A round adds at most one entry to the history, and a round that
    returns without leaving the loop adds exactly one and adds one to
    [steps]. *)
Lemma iteration_cycle (n : Z) (h : nat) (central target : string)
      (jitter_size : Z) :
  triple (fun st => Agent.steps st = n /\ length (Agent.history st) = h)
         (Agent.iteration collab central target jitter_size)
         (fun stop st =>
            (length (Agent.history st) <= S h)%nat
            /\ (stop = false ->
                Agent.steps st = (n + 1)%Z
                /\ length (Agent.history st) = S h))
         (fun st => (length (Agent.history st) <= S h)%nat).
Proof.
  set (P := fun st => Agent.steps st = n /\ length (Agent.history st) = h).
  assert (HE : forall st, P st -> (length (Agent.history st) <= S h)%nat)
    by (intros st [_ ->]; lia).
  unfold Agent.iteration.
  apply triple_skip with (Qv := fun _ => True);
    [apply unchanged_propose_view | apply returns_any | exact HE |].
  intros llm_response _.
  apply triple_skip with (Qv := fun _ => True);
    [apply unchanged_lift | apply returns_any | exact HE |].
  intros action _.
  apply triple_skip with (Qv := fun _ => True);
    [apply unchanged_lift | apply returns_any | exact HE |].
  intros act _. destruct (Json.eq_str act "STOP").
  { apply triple_ret. intros st Hst. split; [now apply HE | discriminate]. }
  apply triple_skip with (Qv := fun _ => True);
    [apply unchanged_lift | apply returns_any | exact HE |].
  intros view _.
  apply triple_skip with (Qv := fun _ => True);
    [apply unchanged_lift | apply returns_any | exact HE |].
  intros az _.
  apply triple_skip with (Qv := fun _ => True);
    [apply unchanged_lift | apply returns_any | exact HE |].
  intros view' _.
  apply triple_skip with (Qv := fun _ => True);
    [apply unchanged_lift | apply returns_any | exact HE |].
  intros el _.
  apply triple_skip with (Qv := fun _ => True);
    [apply unchanged_lift | apply returns_any | exact HE |].
  intros focus_axis _.
  apply triple_skip with (Qv := fun _ => True);
    [apply unchanged_jitter | apply returns_any | exact HE |].
  intros offsets _.
  apply triple_skip with (Qv := fun _ => True);
    [apply unchanged_vote | apply returns_any | exact HE |].
  intros [axis_counts view_ans] _.
  apply triple_bind with (Q1 := fun _ => P).
  { intros s Hs. unfold Agent.belief_update.
    destruct (BeliefState.update (Agent.belief (fst s)) axis_counts)
      as [[conf | e] b']; cbn; [exact Hs | now apply HE]. }
  intros confidence_scores.
  apply triple_skip with (Qv := fun _ => True);
    [apply unchanged_get_self | apply returns_any | exact HE |].
  intros self _.
  apply triple_bind
    with (Q1 := fun _ st => Agent.steps st = n
                            /\ length (Agent.history st) = S h).
  { destruct view_ans; [| now apply triple_raise].
    intros s [Hs Hh]. cbn. rewrite length_app, Hh. cbn. split; [exact Hs | lia]. }
  intros _.
  apply triple_bind
    with (Q1 := fun _ st => Agent.steps st = (n + 1)%Z
                            /\ length (Agent.history st) = S h).
  { intros s [Hs Hh]. cbn. now rewrite Hs. }
  intros _.
  apply triple_skip with (Qv := fun _ => True);
    [apply unchanged_get_self | apply returns_any | intros st [_ ->]; lia |].
  intros self' _.
  apply triple_skip with (Qv := fun _ => True);
    [apply unchanged_lift | apply returns_any | intros st [_ ->]; lia |].
  intros r _. apply triple_ret. intros st [Hs Hh]. split; [lia | now split].
Qed.

(** The loop makes at most [max_steps - steps] rounds: it adds no more
    entries than that to the history. *)
Lemma loop_cycles (central target : string) (jitter_size max_steps : Z)
      (fuel : nat) :
  forall (n : Z) (h : nat),
    let bound := (h + Z.to_nat (max_steps - n))%nat in
    triple (fun st => Agent.steps st = n /\ length (Agent.history st) = h)
           (Agent.loop collab fuel central target jitter_size max_steps)
           (fun _ st => (length (Agent.history st) <= bound)%nat)
           (fun st => (length (Agent.history st) <= bound)%nat).
Proof.
  induction fuel as [| fuel IH]; intros n h bound; cbn [Agent.loop].
  - apply triple_ret. intros st [_ ->]. unfold bound. lia.
  - apply triple_bind with (1 := triple_get_self _ _).
    intros self s [Heq [Hs Hh]].
    assert (Hn : Agent.steps self = n) by (now rewrite Heq).
    destruct (Z.ltb_spec (Agent.steps self) max_steps) as [Hlt | Hge].
    + assert (Hb : bound = (S h + Z.to_nat (max_steps - (n + 1)))%nat)
        by (unfold bound; lia).
      enough (T : triple
                (fun st => Agent.steps st = n /\ length (Agent.history st) = h)
                (Agent.mbind
                   (Agent.iteration collab central target jitter_size)
                   (fun stop : bool =>
                      if stop then Agent.ret tt
                      else Agent.loop collab fuel central target jitter_size
                                      max_steps))
                (fun _ st => (length (Agent.history st) <= bound)%nat)
                (fun st => (length (Agent.history st) <= bound)%nat))
        by exact (T s (conj Hs Hh)).
      apply triple_bind
        with (Q1 := fun stop st =>
                (length (Agent.history st) <= S h)%nat
                /\ (stop = false ->
                    Agent.steps st = (n + 1)%Z
                    /\ length (Agent.history st) = S h)).
      * apply triple_consequence
          with (1 := @iteration_cycle n h central target jitter_size); auto.
        intros st Hst. lia.
      * intros [].
        -- apply triple_ret. intros st [Hst _]. lia.
        -- apply triple_consequence with (1 := IH (n + 1)%Z (S h)).
           ++ intros st [_ Hst]. now apply Hst.
           ++ intros _ st Hst. cbv zeta in Hst. lia.
           ++ intros st Hst. cbv zeta in Hst. lia.
    + cbn. rewrite Hh. unfold bound. lia.
Qed.

(** A run adds at most [max_steps - steps] entries to the history: a fresh
    agent, whose [steps] is 1, makes at most [max_steps - 1] rounds. *)
Lemma run_cycles (central target : string) (jitter_size max_steps : Z)
      (self : Agent.t) (w : World) :
  (length (Agent.history
             (fst (snd (Agent.run collab central target jitter_size max_steps
                                  (self, w)))))
   <= length (Agent.history self)
      + Z.to_nat (max_steps - Agent.steps self))%nat.
Proof.
  rewrite run_unfold. cbn [fst].
  pose proof (@loop_cycles central target jitter_size max_steps
                (Z.to_nat (max_steps - Agent.steps self))
                (Agent.steps self) (length (Agent.history self))
                (self, w) (conj eq_refl eq_refl)) as H.
  cbv zeta in H.
  destruct (Agent.loop collab _ central target jitter_size max_steps (self, w))
    as [[[] | e] s']; [| exact H].
  now destruct (BeliefState.get_decision (Agent.belief (fst s'))).
Qed.

End Cycles.

(** * The claims *)

(** C1. With [max_steps = 1] a fresh agent makes no round at all, where the
    specification expects exactly one.  A fresh agent starts with
    [steps = 1] and the loop runs while [steps < max_steps], so the loop
    body is never entered: whatever the collaborators, the run returns the
    answer of the prior and leaves the agent object and the world as they
    were, with no planner call, no vote, no belief update and no history
    entry. *)
Theorem run_max_steps_one_makes_no_cycle
  (World : Type) (collab : Agent.Collaborators World) (w : World)
  (name central target : string) (tau kappa_min : R) (jitter_size : Z) :
  Agent.run collab central target jitter_size 1
            (Agent.init name tau kappa_min, w)
  = (Ok prior_answer, (Agent.init name tau kappa_min, w)).
Proof.
  rewrite run_unfold. unfold Agent.init. cbn [fst Agent.steps].
  change (Z.to_nat (1 - 1)) with 0%nat.
  cbn [Agent.loop Agent.ret fst Agent.belief].
  unfold BeliefState.default. rewrite get_decision_init by lra.
  reflexivity.
Qed.

(** C2. [should_stop] returns a true flag exactly when every axis has both
    its top posterior probability at least [tau] and its pseudo-count mass
    at least [kappa_min]; one axis that fails either test makes the flag
    false. *)
Theorem should_stop_iff_all_axes
  (b : BeliefState.t) (tau kappa_min : R) (post : PerAxis (PerSign R)) :
  BeliefState.get_posterior b = Ok post ->
  exists flag decision,
    BeliefState.should_stop b tau kappa_min = Ok (flag, decision)
    /\ (flag = true <->
        forall A, tau <= top_prob (aget post A)
                  /\ kappa_min <= BeliefState.mass b A)
    /\ (forall A, ~ (tau <= top_prob (aget post A)
                     /\ kappa_min <= BeliefState.mass b A) ->
                  flag = false).
Proof.
  intros Hpost. rewrite (@should_stop_eq b post Hpost). do 2 eexists.
  split; [reflexivity |].
  pose proof (axis_ok_spec b (top_prob (atX post)) tau kappa_min aX) as HX.
  pose proof (axis_ok_spec b (top_prob (atY post)) tau kappa_min aY) as HY.
  pose proof (axis_ok_spec b (top_prob (atZ post)) tau kappa_min aZ) as HZ.
  assert (Hiff :
    BeliefState.axis_ok b (top_prob (atX post)) tau kappa_min aX
    && BeliefState.axis_ok b (top_prob (atY post)) tau kappa_min aY
    && BeliefState.axis_ok b (top_prob (atZ post)) tau kappa_min aZ = true
    <-> forall A, tau <= top_prob (aget post A)
                  /\ kappa_min <= BeliefState.mass b A).
  { rewrite !andb_true_iff, HX, HY, HZ. split.
    - intros [[? ?] ?] []; assumption.
    - intros H. repeat split; first [apply (H aX) | apply (H aY) | apply (H aZ)]. }
  split; [exact Hiff |].
  intros A HA. apply not_true_is_false. intros Ht. apply HA.
  apply Hiff. exact Ht.
Qed.

Lemma should_stop_iff_all_axes_witness :
  exists flag decision,
    BeliefState.should_stop BeliefState.default (9 / 10) 10 = Ok (flag, decision)
    /\ (flag = true <->
        forall A, 9 / 10 <= top_prob (aget (mkPerAxis uniform uniform uniform) A)
                  /\ 10 <= BeliefState.mass BeliefState.default A)
    /\ (forall A, ~ (9 / 10 <= top_prob (aget (mkPerAxis uniform uniform uniform) A)
                     /\ 10 <= BeliefState.mass BeliefState.default A) ->
                  flag = false).
Proof.
  apply (@should_stop_iff_all_axes BeliefState.default (9 / 10) 10
           (mkPerAxis uniform uniform uniform)).
  apply get_posterior_init. lra.
Defined.

(** C3. [parse_answer_json] raises exactly when the text has no answer tags
    or the content between the first opening tag and the first closing tag
    after it, stripped, is not valid JSON, and what it raises is one of its
    two format errors.  When the response of the planner does not decode in
    a round of [run], the run ends with that error and the agent object,
    with its belief, its history and its step counter, is what it was at the
    start of the round. *)
Theorem format_error_raised_and_propagated :
  (forall (json_loads : string -> option json) (s : string),
      ((exists e, Verifier.parse_answer_json json_loads s = Err e)
       <-> (~ has_answer_tags s
            \/ exists content,
                enclosed s content
                /\ json_loads (PyStr.strip content) = None))
      /\ (forall e, Verifier.parse_answer_json json_loads s = Err e ->
                    e = Verifier.no_tags_error
                    \/ e = Verifier.invalid_json_error))
  /\ (forall (World : Type) (collab : Agent.Collaborators World)
             (central target : string) (jitter_size max_steps : Z)
             (self : Agent.t) (w : World) (r : string)
             (s1 : Agent.t * World) (e : exn),
         (Agent.steps self < max_steps)%Z ->
         Agent.propose_view collab central target (self, w) = (Ok r, s1) ->
         Verifier.parse_answer_json (Agent.json_loads collab) r = Err e ->
         Agent.run collab central target jitter_size max_steps (self, w)
         = (Err e, (self, snd s1))).
Proof.
  split.
  - intros json_loads s.
    destruct (parse_answer_json_cases json_loads s)
      as [[Hno ->] | (content & Henc & ->)].
    + split.
      * split; [intros _; now left | intros _; now eexists].
      * intros e [= <-]. now left.
    + split.
      * split.
        -- intros [e He]. right. exists content. split; [exact Henc |].
           now destruct (json_loads (PyStr.strip content)).
        -- intros [Hno | (content' & Henc' & Hnone)].
           ++ exfalso. apply Hno. now apply enclosed_has_tags with content.
           ++ rewrite (enclosed_unique Henc Henc'), Hnone. now eexists.
      * intros e He. right.
        now destruct (json_loads (PyStr.strip content)); inversion He.
  - intros World collab central target jitter_size max_steps self w r s1 e
           Hsteps Hp He.
    pose proof (propose_view_agent collab central target (self, w)) as Hself.
    rewrite Hp in Hself. cbn [fst snd] in Hself.
    destruct s1 as [self1 w1]. cbn [fst snd] in *. subst self1.
    rewrite run_unfold. cbn [fst].
    destruct (Z.to_nat (max_steps - Agent.steps self)) as [| fuel] eqn:Ef; [lia |].
    rewrite loop_unfold by assumption.
    now rewrite (@iteration_format_error _ collab central target jitter_size
                   _ _ _ _ Hp He).
Qed.

Lemma format_error_raised_and_propagated_witness :
  Agent.run (sample_collaborators "I propose nothing") "cube" "ball" 4 10
            (Agent.init "gpt-4o" (9 / 10) 10, tt)
  = (Err Verifier.no_tags_error, (Agent.init "gpt-4o" (9 / 10) 10, tt)).
Proof.
  apply (proj2 format_error_raised_and_propagated unit
               (sample_collaborators "I propose nothing") "cube" "ball" 4%Z 10%Z
               (Agent.init "gpt-4o" (9 / 10) 10) tt "I propose nothing"
               (Agent.init "gpt-4o" (9 / 10) 10, tt) Verifier.no_tags_error).
  - cbn. lia.
  - reflexivity.
  - reflexivity.
Defined.

(** C4. No pseudo-count ever goes down.  [update] with tallies of counts that
    are not negative, on a belief whose prior is not negative, leaves every
    [alpha[A][s]] at least as great as it was, whether it returns or raises;
    and so does a whole [run] of the agent, with all its calls of
    [get_posterior], [get_decision], [should_stop] and [update].  The three
    queries are functions of the belief that return no belief: a computation
    of the agent that calls one leaves the agent object as it was. *)
Theorem pseudo_counts_never_decrease :
  (forall (b : BeliefState.t) (ac : BeliefState.AxisCounts) (A : axis) (s : sign),
      0 <= BeliefState.lam b -> nonneg_counts ac ->
      alpha_at b A s <= alpha_at (after_update b ac) A s)
  /\ (forall (World : Type) (collab : Agent.Collaborators World)
             (central target : string) (jitter_size max_steps : Z)
             (self : Agent.t) (w : World) (A : axis) (s : sign),
         0 <= BeliefState.lam (Agent.belief self) ->
         alpha_at (Agent.belief self) A s
         <= alpha_at
              (Agent.belief
                 (fst (snd (Agent.run collab central target jitter_size
                                      max_steps (self, w))))) A s)
  /\ (forall (World : Type) (st : Agent.t * World) (tau kappa_min : R),
         snd (Agent.lift (BeliefState.get_posterior (Agent.belief (fst st))) st)
         = st
         /\ snd (Agent.lift (BeliefState.get_decision (Agent.belief (fst st))) st)
            = st
         /\ snd (Agent.lift (BeliefState.should_stop (Agent.belief (fst st))
                                                     tau kappa_min) st)
            = st).
Proof.
  split; [| split].
  - intros b ac A s Hlam Hac. now apply update_monotone.
  - intros World collab central target jitter_size max_steps self w A s Hlam.
    pose proof (@run_above _ collab (Agent.belief self) central target
                  jitter_size max_steps (self, w) (belief_le_refl _)) as Hrun.
    destruct (Agent.run collab central target jitter_size max_steps (self, w))
      as [[a | e] s']; cbn [fst snd] in *;
      destruct (Hrun Hlam) as [_ M]; apply M.
  - intros World st tau kappa_min. repeat split.
Qed.

Lemma pseudo_counts_never_decrease_witness :
  alpha_at BeliefState.default aX Plus
  <= alpha_at (after_update BeliefState.default scenario_counts) aX Plus
  /\ alpha_at (Agent.belief (Agent.init "gpt-4o" (9 / 10) 10)) aX Plus
     <= alpha_at
          (Agent.belief
             (fst (snd (Agent.run (sample_collaborators stop_response)
                                  "cube" "ball" 4 10
                                  (Agent.init "gpt-4o" (9 / 10) 10, tt)))))
          aX Plus.
Proof.
  split.
  - apply (proj1 pseudo_counts_never_decrease BeliefState.default
                 scenario_counts aX Plus).
    + cbn. lra.
    + apply scenario_counts_nonneg.
  - apply (proj1 (proj2 pseudo_counts_never_decrease) unit
                 (sample_collaborators stop_response) "cube" "ball" 4%Z 10%Z
                 (Agent.init "gpt-4o" (9 / 10) 10) tt aX Plus).
    cbn. lra.
Defined.

(** C5. On every belief that updates with tallies of counts that are not
    negative reach from a prior [lam > 0], [get_posterior] returns, and for
    each axis the three probabilities are not negative and sum to 1. *)
Theorem posterior_is_distribution
  (l g : R) (m : string) (b : BeliefState.t) :
  0 < l -> reachable l g m b ->
  exists post,
    BeliefState.get_posterior b = Ok post
    /\ forall A, (forall s, 0 <= sget (aget post A) s)
                 /\ sumR (values (aget post A)) = 1.
Proof.
  intros Hl Hr. destruct (reachable_above_prior Hl Hr) as [_ Ha].
  assert (Hm : forall A, 0 < BeliefState.mass b A).
  { intros A. rewrite mass_eq.
    pose proof (Ha A Plus). pose proof (Ha A Zero). pose proof (Ha A Minus). lra. }
  destruct (@get_posterior_ok b) as [post Hpost].
  { intros A. specialize (Hm A). lra. }
  exists post. split; [assumption |].
  intros A. destruct (@get_posterior_inv b post Hpost A) as [Hne Hs]. split.
  - intros s. rewrite Hs. apply Rmult_le_pos.
    + specialize (Ha A s). lra.
    + left. apply Rinv_0_lt_compat. apply Hm.
  - unfold sumR, values. cbn.
    change (atPlus (aget post A)) with (sget (aget post A) Plus).
    change (atZero (aget post A)) with (sget (aget post A) Zero).
    change (atMinus (aget post A)) with (sget (aget post A) Minus).
    rewrite !Hs. rewrite (mass_eq b A) in *. field. assumption.
Qed.

Lemma posterior_is_distribution_witness :
  exists post,
    BeliefState.get_posterior (after_update BeliefState.default scenario_counts)
    = Ok post
    /\ forall A, (forall s, 0 <= sget (aget post A) s)
                 /\ sumR (values (aget post A)) = 1.
Proof.
  apply (@posterior_is_distribution 1 1 "wilson").
  - lra.
  - apply reach_update; [apply reach_init | apply scenario_counts_nonneg].
Defined.

(** C6. With [gamma = 1] and [lam > 0], for tallies of counts that are not
    negative, [update] returns and every confidence it returns lies in
    [[0, 1]], whether the belief weighs by the Wilson bound or by the
    entropy; both weighting functions return a confidence in [[0, 1]]; and
    for a tally whose total is 0 the effective sample size and the
    confidence are 0. *)
Theorem confidence_in_unit_interval
  (b : BeliefState.t) (ac : BeliefState.AxisCounts) :
  BeliefState.gamma b = 1 -> 0 < BeliefState.lam b -> nonneg_counts ac ->
  (exists conf,
      fst (BeliefState.update b ac) = Ok conf
      /\ forall A, 0 <= aget conf A <= 1
                   /\ (total (aget ac A) = 0%Z -> aget conf A = 0))
  /\ (forall A,
        (exists neff cf,
            BeliefState._wilson_neff b (aget ac A) = Ok (neff, cf)
            /\ 0 <= cf <= 1
            /\ (total (aget ac A) = 0%Z -> neff = 0 /\ cf = 0))
        /\ (exists neff cf,
               BeliefState._entropy_neff b (aget ac A) = Ok (neff, cf)
               /\ 0 <= cf <= 1
               /\ (total (aget ac A) = 0%Z -> neff = 0 /\ cf = 0))).
Proof.
  intros Hg Hlam Hac. split.
  - apply update_ok; [lra | assumption | assumption].
  - intros A. pose proof (Hac A) as Hc.
    destruct (Z.eq_dec (total (aget ac A)) 0) as [E0 | NE].
    + rewrite wilson_neff_zero, entropy_neff_zero by assumption.
      split; exists 0, 0; (split; [reflexivity | split; [lra | now split]]).
    + assert (Hn : (0 < total (aget ac A))%Z).
      { destruct Hc as (? & ? & ?). unfold total in *. lia. }
      rewrite wilson_neff_eq, entropy_neff_eq by assumption. rewrite Hg.
      rewrite !float_pow_one
        by first [apply (wilson_base_unit Hc Hn)
                 | apply (entropy_base_unit b Hc Hn Hlam)].
      cbn [bind]. split; do 2 eexists; (split; [reflexivity |]);
        (split; [first [apply (wilson_base_unit Hc Hn)
                       | apply (entropy_base_unit b Hc Hn Hlam)]
                | intros; contradiction]).
Qed.

Lemma confidence_in_unit_interval_witness :
  (exists conf,
      fst (BeliefState.update BeliefState.default scenario_counts) = Ok conf
      /\ forall A, 0 <= aget conf A <= 1
                   /\ (total (aget scenario_counts A) = 0%Z -> aget conf A = 0))
  /\ (forall A,
        (exists neff cf,
            BeliefState._wilson_neff BeliefState.default (aget scenario_counts A)
            = Ok (neff, cf)
            /\ 0 <= cf <= 1
            /\ (total (aget scenario_counts A) = 0%Z -> neff = 0 /\ cf = 0))
        /\ (exists neff cf,
               BeliefState._entropy_neff BeliefState.default
                                         (aget scenario_counts A)
               = Ok (neff, cf)
               /\ 0 <= cf <= 1
               /\ (total (aget scenario_counts A) = 0%Z -> neff = 0 /\ cf = 0))).
Proof.
  apply (@confidence_in_unit_interval BeliefState.default scenario_counts).
  - reflexivity.
  - cbn. lra.
  - apply scenario_counts_nonneg.
Defined.

(** C7. For two tallies of the same total [n >= 1], the Wilson-based
    confidence of the one with the greater majority count is not smaller:
    raising [k_majority] with [n] fixed never lowers the confidence that
    [_wilson_neff] returns (for a sharpening exponent [gamma >= 0]). *)
Theorem wilson_confidence_monotone
  (b : BeliefState.t) (c c' : BeliefState.VoteTally) :
  0 <= BeliefState.gamma b ->
  nonneg_tally c -> nonneg_tally c' ->
  total c' = total c -> (1 <= total c)%Z ->
  (majority c <= majority c')%Z ->
  exists neff cf neff' cf',
    BeliefState._wilson_neff b c = Ok (neff, cf)
    /\ BeliefState._wilson_neff b c' = Ok (neff', cf')
    /\ cf <= cf'.
Proof.
  intros Hg Hc Hc' Ht Hn Hmaj.
  assert (Hn0 : (0 < total c)%Z) by lia.
  assert (Hn0' : (0 < total c')%Z) by lia.
  rewrite (wilson_neff_eq b Hc Hn0), (wilson_neff_eq b Hc' Hn0').
  destruct (float_pow_unit (wilson_base_unit Hc Hn0) Hg) as (cf & Ecf & _).
  destruct (float_pow_unit (wilson_base_unit Hc' Hn0') Hg) as (cf' & Ecf' & _).
  rewrite Ecf, Ecf'. cbn [bind].
  exists (IZR (total c) * cf), cf, (IZR (total c') * cf'), cf'.
  split; [reflexivity | split; [reflexivity |]].
  apply (float_pow_mono (wilson_base_nonneg _)) with (3 := Ecf) (4 := Ecf');
    [| assumption].
  apply wilson_base_mono. unfold wilson_lb_of. rewrite Ht.
  assert (HnR : 0 < IZR (total c)) by now apply IZR_lt.
  destruct (phat_bounds Hc Hn0) as [Hp0 _].
  destruct (phat_bounds Hc' Hn0') as [_ Hq1]. rewrite Ht in Hq1.
  apply wilson_lb_mono; try assumption.
  apply Rmult_le_compat_r; [left; now apply Rinv_0_lt_compat |].
  now apply IZR_le.
Qed.

Lemma wilson_confidence_monotone_witness :
  exists neff cf neff' cf',
    BeliefState._wilson_neff BeliefState.default (mkPerSign 5 3 2)%Z
    = Ok (neff, cf)
    /\ BeliefState._wilson_neff BeliefState.default (mkPerSign 9 1 0)%Z
       = Ok (neff', cf')
    /\ cf <= cf'.
Proof.
  apply (@wilson_confidence_monotone BeliefState.default
           (mkPerSign 5 3 2)%Z (mkPerSign 9 1 0)%Z).
  - cbn. lra.
  - unfold nonneg_tally. cbn. lia.
  - unfold nonneg_tally. cbn. lia.
  - reflexivity.
  - unfold total. cbn. lia.
  - unfold majority. cbn. lia.
Defined.

(** C8. When the tally of an axis is all zero, [update] leaves the three
    pseudo-counts of that axis as they were and, when it returns, reports
    the confidence 0 for that axis; with a valid configuration it does
    return; a call with all three tallies zero returns and changes nothing;
    and any number of such calls leaves the pseudo-counts of the axis as
    they were. *)
Theorem update_zero_tally_idempotent
  (b : BeliefState.t) (ac : BeliefState.AxisCounts) (A : axis) :
  aget ac A = Agent.zero_tally ->
  aget (BeliefState.alpha (after_update b ac)) A = aget (BeliefState.alpha b) A
  /\ (forall conf, fst (BeliefState.update b ac) = Ok conf -> aget conf A = 0)
  /\ (0 <= BeliefState.gamma b -> 0 < BeliefState.lam b -> nonneg_counts ac ->
      exists conf, fst (BeliefState.update b ac) = Ok conf /\ aget conf A = 0)
  /\ BeliefState.update b Agent.zero_counts = (Ok (mkPerAxis 0 0 0), b)
  /\ (forall acs,
        Forall (fun ac' => aget ac' A = Agent.zero_tally) acs ->
        aget (BeliefState.alpha (fold_left after_update acs b)) A
        = aget (BeliefState.alpha b) A).
Proof.
  intros Hz.
  assert (Ht : total (aget ac A) = 0%Z) by now rewrite Hz.
  destruct (update_zero_axis b ac A Ht) as [Hkeep Hconf].
  split; [exact Hkeep |]. split; [exact Hconf |]. split; [| split].
  - intros Hg Hlam Hac. destruct (@update_ok b ac Hg Hlam Hac) as (conf & E & _).
    exists conf. split; [exact E | now apply Hconf].
  - unfold BeliefState.update. cbn [Agent.zero_counts atX atY atZ].
    now rewrite !update_axis_zero by reflexivity.
  - intros acs Hall. revert b Hkeep Hconf.
    induction Hall as [| ac' acs Hac' _ IH]; intros b' _ _; [reflexivity |].
    cbn [fold_left].
    assert (Ht' : total (aget ac' A) = 0%Z) by now rewrite Hac'.
    destruct (update_zero_axis b' ac' A Ht') as [Hk' Hc'].
    rewrite (IH (after_update b' ac')).
    + exact Hk'.
    + now destruct (update_zero_axis (after_update b' ac') ac A Ht).
    + now destruct (update_zero_axis (after_update b' ac') ac A Ht).
Qed.

Lemma update_zero_tally_idempotent_witness :
  aget (BeliefState.alpha (after_update BeliefState.default Agent.zero_counts)) aX
  = aget (BeliefState.alpha BeliefState.default) aX
  /\ (forall conf,
        fst (BeliefState.update BeliefState.default Agent.zero_counts) = Ok conf ->
        aget conf aX = 0)
  /\ (0 <= BeliefState.gamma BeliefState.default ->
      0 < BeliefState.lam BeliefState.default ->
      nonneg_counts Agent.zero_counts ->
      exists conf,
        fst (BeliefState.update BeliefState.default Agent.zero_counts) = Ok conf
        /\ aget conf aX = 0)
  /\ BeliefState.update BeliefState.default Agent.zero_counts
     = (Ok (mkPerAxis 0 0 0), BeliefState.default)
  /\ (forall acs,
        Forall (fun ac' => aget ac' aX = Agent.zero_tally) acs ->
        aget (BeliefState.alpha (fold_left after_update acs BeliefState.default)) aX
        = aget (BeliefState.alpha BeliefState.default) aX).
Proof.
  apply (@update_zero_tally_idempotent BeliefState.default Agent.zero_counts aX).
  reflexivity.
Defined.

(** C9. Decoding what [run] encodes gives the decision back: for every
    decision, [parse_answer] of the tagged string that [run] builds is the
    mapping of the three axes to their signs, as for
    [<answer>(+X, -Y, 0Z)</answer>].  The same holds for every labelling,
    also one that leaves axes out: from the sign-tuple text between the tags,
    from the bare text without tags, and from the bare text with blanks
    around it, [parse_answer] returns the labelling itself, with the axes
    that the text leaves out absent from the result. *)
Theorem sign_tuple_round_trip :
  (forall d : PerAxis sign,
      Verifier.parse_answer (Agent.format_answer d) = all_labels d)
  /\ Verifier.parse_answer "<answer>(+X, -Y, 0Z)</answer>"
     = mkPerAxis (Some Plus) (Some Minus) (Some Zero)
  /\ (forall d : PerAxis sign,
         Agent.format_answer d
         = "<answer>" ++ sign_tuple (all_labels d) ++ "</answer>")
  /\ (forall l : Verifier.Labels,
         Verifier.parse_answer ("<answer>" ++ sign_tuple l ++ "</answer>") = l
         /\ Verifier.parse_answer (sign_tuple l) = l
         /\ Verifier.parse_answer ("  " ++ sign_tuple l ++ " ") = l).
Proof.
  split; [| split; [| split]].
  - intros [[] [] []]; vm_compute; reflexivity.
  - vm_compute. reflexivity.
  - intros [[] [] []]; reflexivity.
  - intros [[[] |] [[] |] [[] |]]; repeat split; vm_compute; reflexivity.
Qed.

(** C10. [get_decision] takes, on each axis, the first sign in the order
    ['+', '0', '-'] whose posterior probability is the greatest, and reports
    that probability: no sign has a greater probability and no earlier sign
    has the same.  On a prior that no update has touched the decision is
    ['+'] on every axis with probability 1/3; and a run of a fresh agent
    whose planner says [STOP] at once returns [<answer>(+X, +Y, +Z)</answer>]
    with 1/3 for each axis and leaves the agent as it was. *)
Theorem decision_breaks_ties_by_sign_order :
  (forall (b : BeliefState.t) (post : PerAxis (PerSign R)),
      BeliefState.get_posterior b = Ok post ->
      exists decision top_ps,
        BeliefState.get_decision b = Ok (decision, top_ps)
        /\ forall A,
            aget top_ps A = sget (aget post A) (aget decision A)
            /\ (forall s', sget (aget post A) s'
                           <= sget (aget post A) (aget decision A))
            /\ (forall s', sget (aget post A) s'
                           = sget (aget post A) (aget decision A) ->
                           (sign_index (aget decision A) <= sign_index s')%nat))
  /\ (forall (l g : R) (m : string),
         l <> 0 ->
         BeliefState.get_decision (BeliefState.init l g m)
         = Ok (mkPerAxis Plus Plus Plus, mkPerAxis (1 / 3) (1 / 3) (1 / 3)))
  /\ (forall (World : Type) (collab : Agent.Collaborators World)
             (central target name : string) (tau kappa_min : R)
             (jitter_size max_steps : Z) (w w1 : World)
             (r : string) (action act : json),
         Agent.call_llm collab name (Agent.FirstTurn target central tau) w
         = (Ok r, w1) ->
         Verifier.parse_answer_json (Agent.json_loads collab) r = Ok action ->
         Json.getitem action "action" = Ok act ->
         Json.eq_str act "STOP" = true ->
         let out := Agent.run collab central target jitter_size max_steps
                              (Agent.init name tau kappa_min, w) in
         fst out = Ok prior_answer
         /\ fst (snd out) = Agent.init name tau kappa_min).
Proof.
  split; [| split].
  - intros b post Hpost. rewrite (@get_decision_eq b post Hpost).
    do 2 eexists. split; [reflexivity |].
    intros []; cbn [aget atX atY atZ];
      [destruct (top_spec (atX post)) as (H1 & _ & H2 & H3)
      |destruct (top_spec (atY post)) as (H1 & _ & H2 & H3)
      |destruct (top_spec (atZ post)) as (H1 & _ & H2 & H3)];
      (split; [exact H1 | split; [exact H2 | exact H3]]).
  - intros l g m Hl. now apply get_decision_init.
  - intros World collab central target name tau kappa_min jitter_size max_steps
           w w1 r action act Hcall Hparse Hact Hstop out.
    assert (Hdec : BeliefState.get_decision BeliefState.default
                   = Ok (mkPerAxis Plus Plus Plus,
                         mkPerAxis (1 / 3) (1 / 3) (1 / 3)))
      by (unfold BeliefState.default; rewrite get_decision_init by lra;
          reflexivity).
    unfold out. rewrite run_unfold. cbn [fst].
    destruct (Z.to_nat (max_steps - Agent.steps (Agent.init name tau kappa_min)))
      as [| fuel] eqn:Ef.
    + cbn [Agent.loop Agent.ret fst snd].
      change (Agent.belief (Agent.init name tau kappa_min))
        with BeliefState.default.
      rewrite Hdec. split; reflexivity.
    + assert (Hlt : (Agent.steps (Agent.init name tau kappa_min) < max_steps)%Z)
        by lia.
      rewrite loop_unfold by exact Hlt.
      assert (Hp : Agent.propose_view collab central target
                                      (Agent.init name tau kappa_min, w)
                   = (Ok r, (Agent.init name tau kappa_min, w1))).
      { unfold Agent.propose_view, Agent.mbind, Agent.get_self, Agent.call.
        cbn [fst snd Agent.init Agent.history Agent.model_name Agent.tau].
        now rewrite Hcall. }
      rewrite (@iteration_stop _ collab central target jitter_size _ _ _ _ _
                 Hp Hparse Hact Hstop).
      cbn [fst snd].
      change (Agent.belief (Agent.init name tau kappa_min))
        with BeliefState.default.
      rewrite Hdec. split; reflexivity.
Qed.

Lemma decision_breaks_ties_by_sign_order_witness :
  (exists decision top_ps,
      BeliefState.get_decision BeliefState.default = Ok (decision, top_ps)
      /\ forall A,
          aget top_ps A
          = sget (aget (mkPerAxis uniform uniform uniform) A) (aget decision A)
          /\ (forall s', sget (aget (mkPerAxis uniform uniform uniform) A) s'
                         <= sget (aget (mkPerAxis uniform uniform uniform) A)
                                 (aget decision A))
          /\ (forall s', sget (aget (mkPerAxis uniform uniform uniform) A) s'
                         = sget (aget (mkPerAxis uniform uniform uniform) A)
                                (aget decision A) ->
                         (sign_index (aget decision A) <= sign_index s')%nat))
  /\ BeliefState.get_decision (BeliefState.init 1 1 "wilson")
     = Ok (mkPerAxis Plus Plus Plus, mkPerAxis (1 / 3) (1 / 3) (1 / 3))
  /\ (let out := Agent.run (sample_collaborators stop_response) "cube" "ball"
                           4 10 (Agent.init "gpt-4o" (9 / 10) 10, tt) in
      fst out = Ok prior_answer
      /\ fst (snd out) = Agent.init "gpt-4o" (9 / 10) 10).
Proof.
  split; [| split].
  - apply (proj1 decision_breaks_ties_by_sign_order BeliefState.default
                 (mkPerAxis uniform uniform uniform)).
    apply get_posterior_init. lra.
  - apply (proj1 (proj2 decision_breaks_ties_by_sign_order) 1 1 "wilson"). lra.
  - apply (proj2 (proj2 decision_breaks_ties_by_sign_order) unit
                 (sample_collaborators stop_response) "cube" "ball" "gpt-4o"
                 (9 / 10) 10 4%Z 10%Z tt tt stop_response
                 (JObj [("action", JStr "STOP")]) (JStr "STOP")).
    + reflexivity.
    + reflexivity.
    + reflexivity.
    + reflexivity.
Defined.

(** * Further properties of the belief state *)

Lemma bump_config (b : BeliefState.t) (A : axis) (c : BeliefState.VoteTally)
      (neff : R) :
  same_config b (bump b A c neff).
Proof.
  unfold bump, same_config. destruct (Rlt_dec 0 neff); cbn; auto.
Qed.

Lemma bump_other (b : BeliefState.t) (A B : axis) (c : BeliefState.VoteTally)
      (neff : R) :
  B <> A ->
  aget (BeliefState.alpha (bump b A c neff)) B = aget (BeliefState.alpha b) B.
Proof.
  intros HB. unfold bump. destruct (Rlt_dec 0 neff); [| reflexivity].
  cbn. destruct A, B; try reflexivity; contradiction.
Qed.

(** What a round adds to an axis sums to the effective sample size. *)
Lemma bump_mass (b : BeliefState.t) (A : axis) (c : BeliefState.VoteTally)
      (neff : R) :
  IZR (total c) + 3 * BeliefState.lam b <> 0 -> 0 <= neff ->
  BeliefState.mass (bump b A c neff) A = BeliefState.mass b A + neff.
Proof.
  intros Hd Hneff. unfold bump.
  destruct (Rlt_dec 0 neff) as [Hpos | Hzero].
  - unfold BeliefState.mass, sumR, values, smoothed_of.
    destruct A; cbn; unfold total in *; rewrite !plus_IZR in *; field;
      assumption.
  - lra.
Qed.

Lemma Rdiv_lt_1 (a d : R) : 0 < d -> a < d -> a / d < 1.
Proof.
  intros Hd Ha. unfold Rdiv.
  replace 1 with (d * / d) by (field; lra).
  apply Rmult_lt_compat_r; [now apply Rinv_0_lt_compat | assumption].
Qed.

Lemma float_pow_zero (g : R) : 0 < g -> float_pow 0 g = Ok 0.
Proof.
  intros Hg. unfold float_pow.
  destruct (Rlt_dec 0 0); [lra |].
  destruct (Req_dec_T 0 0); [| lra].
  destruct (Rlt_dec g 0); [lra |].
  destruct (Req_dec_T g 0); [lra | reflexivity].
Qed.

Lemma float_pow_pos (x g : R) :
  0 < x -> exists y, float_pow x g = Ok y /\ 0 < y.
Proof.
  intros Hx. unfold float_pow. destruct (Rlt_dec 0 x); [| lra].
  eexists. split; [reflexivity |]. unfold Rpower. apply exp_pos.
Qed.

Lemma float_pow_below_one (x g : R) :
  0 <= x < 1 -> 0 < g -> exists y, float_pow x g = Ok y /\ 0 <= y < 1.
Proof.
  intros [Hx0 Hx1] Hg. destruct (Rle_lt_or_eq_dec _ _ Hx0) as [Hpos | <-].
  - unfold float_pow. destruct (Rlt_dec 0 x); [| lra].
    eexists. split; [reflexivity |]. unfold Rpower. split; [left; apply exp_pos |].
    rewrite <- exp_0. apply exp_increasing.
    assert (ln x < 0) by (rewrite <- ln_1; apply ln_increasing; lra).
    nra.
  - rewrite float_pow_zero by assumption. exists 0. split; [reflexivity | lra].
Qed.

(** The Wilson lower bound stays strictly below 1, and so does the base of
    the power. *)
Lemma wilson_lb_lt_1 (p n : R) :
  0 < n -> 0 <= p <= 1 ->
  BeliefState.wilson_lb p n (sqrt (BeliefState.wilson_radicand p n)) < 1.
Proof.
  intros Hn Hp. assert (Hz := z_pos).
  assert (Hr := root_half_width Hn Hp).
  unfold BeliefState.wilson_lb.
  assert (Hi : 0 < / n) by now apply Rinv_0_lt_compat.
  assert (Hzz : 0 < BeliefState.z * BeliefState.z * / n)
    by (apply Rmult_lt_0_compat; [nra | lra]).
  assert (Hzr : BeliefState.z * (BeliefState.z / (2 * n))
                <= BeliefState.z * sqrt (BeliefState.wilson_radicand p n))
    by (apply Rmult_le_compat_l; lra).
  replace (BeliefState.z * BeliefState.z / (2 * n))
    with (BeliefState.z * (BeliefState.z / (2 * n))) by (field; lra).
  apply Rdiv_lt_1; unfold Rdiv; lra.
Qed.

Lemma wilson_base_lt_1 (lb : R) : lb < 1 -> BeliefState.wilson_base lb < 1.
Proof.
  intros Hlb. unfold BeliefState.wilson_base.
  apply Rmax_lub_lt; [lra |].
  assert (Rmax lb (1 / 3) < 1) by (apply Rmax_lub_lt; lra).
  lra.
Qed.

(** The entropy of smoothed proportions is above zero, so the base of the
    power stays strictly below 1. *)
Lemma entropy_base_lt_1 (b : BeliefState.t) (c : BeliefState.VoteTally) :
  nonneg_tally c -> (0 < total c)%Z -> 0 < BeliefState.lam b ->
  entropy_base_of (BeliefState.lam b) c < 1.
Proof.
  intros Hc Hn Hlam.
  destruct (smoothed_pos b Hc Hn Hlam) as (Hp & H0 & Hm).
  pose proof (smoothed_sum b c Hn Hlam) as Hsum.
  pose proof ln_3_pos as H3.
  unfold entropy_base_of, smoothed_of, sumR. cbn [fold_left].
  set (pp := (IZR (atPlus c) + BeliefState.lam b)
             / (IZR (total c) + 3 * BeliefState.lam b)) in *.
  set (p0 := (IZR (atZero c) + BeliefState.lam b)
             / (IZR (total c) + 3 * BeliefState.lam b)) in *.
  set (pm := (IZR (atMinus c) + BeliefState.lam b)
             / (IZR (total c) + 3 * BeliefState.lam b)) in *.
  assert (Hlnp : ln pp < 0) by (rewrite <- ln_1; apply ln_increasing; lra).
  assert (T1 : pp * ln pp < 0) by nra.
  pose proof (@xlnx_nonpos p0 H0 ltac:(lra)) as T2.
  pose proof (@xlnx_nonpos pm Hm ltac:(lra)) as T3.
  set (s := 0 + pp * ln pp + p0 * ln p0 + pm * ln pm).
  assert (Hs : s < 0) by (unfold s; lra).
  assert (0 < - s / ln 3).
  { apply Rmult_lt_0_compat; [lra | now apply Rinv_0_lt_compat]. }
  lra.
Qed.

(** The weighting that the configuration selects, on a tally that is not
    empty. *)
Lemma chosen_neff (b : BeliefState.t) (c : BeliefState.VoteTally) :
  0 <= BeliefState.gamma b -> 0 < BeliefState.lam b ->
  nonneg_tally c -> (0 < total c)%Z ->
  exists cf,
    (if (BeliefState.method b =? "wilson")%string
     then BeliefState._wilson_neff b c
     else BeliefState._entropy_neff b c)
    = Ok (IZR (total c) * cf, cf)
    /\ 0 <= cf <= 1
    /\ (0 < BeliefState.gamma b -> cf < 1).
Proof.
  intros Hg Hlam Hc Hn.
  assert (HnR : 0 < IZR (total c)) by now apply IZR_lt.
  destruct (BeliefState.method b =? "wilson")%string.
  - rewrite wilson_neff_eq by assumption.
    destruct (float_pow_unit (wilson_base_unit Hc Hn) Hg) as (y & Ey & Hy).
    rewrite Ey. exists y. split; [reflexivity |]. split; [exact Hy |].
    intros Hg0.
    assert (Hlt : BeliefState.wilson_base (wilson_lb_of c) < 1).
    { apply wilson_base_lt_1. unfold wilson_lb_of.
      apply wilson_lb_lt_1; [exact HnR | apply (phat_bounds Hc Hn)]. }
    destruct (@float_pow_below_one _ (BeliefState.gamma b)
                (conj (wilson_base_nonneg _) Hlt) Hg0) as (y' & Ey' & Hy').
    rewrite Ey in Ey'. injection Ey' as <-. lra.
  - rewrite entropy_neff_eq by assumption.
    destruct (float_pow_unit (entropy_base_unit b Hc Hn Hlam) Hg)
      as (y & Ey & Hy).
    rewrite Ey. exists y. split; [reflexivity |]. split; [exact Hy |].
    intros Hg0.
    destruct (entropy_base_unit b Hc Hn Hlam) as [Hb0 _].
    destruct (@float_pow_below_one _ (BeliefState.gamma b)
                (conj Hb0 (entropy_base_lt_1 b Hc Hn Hlam)) Hg0)
      as (y' & Ey' & Hy').
    rewrite Ey in Ey'. injection Ey' as <-. lra.
Qed.

(** With a valid configuration the round of an axis returns, and it adds
    [n * confidence] spread by the smoothed proportions. *)
Lemma update_axis_valid (b : BeliefState.t) (A : axis) (c : BeliefState.VoteTally) :
  0 <= BeliefState.gamma b -> 0 < BeliefState.lam b -> nonneg_tally c ->
  exists cf,
    (0 <= cf <= 1 /\ (0 < BeliefState.gamma b -> cf < 1))
    /\ (total c = 0%Z -> cf = 0)
    /\ BeliefState.update_axis b A c
       = (Ok cf, bump b A c (IZR (total c) * cf)).
Proof.
  intros Hg Hlam Hc.
  destruct (Z.eq_dec (total c) 0) as [E0 | NE].
  - exists 0. split; [split; [lra | intros; lra] |]. split; [reflexivity |].
    rewrite update_axis_zero by assumption. unfold bump.
    destruct (Rlt_dec 0 (IZR (total c) * 0)); [lra | reflexivity].
  - assert (Hn : (0 < total c)%Z).
    { destruct Hc as (? & ? & ?). unfold total in *. lia. }
    unfold BeliefState.update_axis. rewrite total_sumZ.
    destruct (@chosen_neff b c Hg Hlam Hc Hn) as (cf & -> & Hcf & Hstrict).
    exists cf. split; [split; assumption |]. split; [intros; lia |].
    destruct (Z.ltb_spec 0 (total c)); [| lia].
    rewrite smoothed_eq by assumption. unfold bump.
    destruct (Rlt_dec 0 (IZR (total c) * cf)); reflexivity.
Qed.

(** With a valid configuration [update] returns, and it is the three
    rounds. *)
Lemma update_valid (b : BeliefState.t) (ac : BeliefState.AxisCounts) :
  0 <= BeliefState.gamma b -> 0 < BeliefState.lam b -> nonneg_counts ac ->
  exists cx cy cz,
    (0 <= cx <= 1 /\ 0 <= cy <= 1 /\ 0 <= cz <= 1)
    /\ (0 < BeliefState.gamma b -> cx < 1 /\ cy < 1 /\ cz < 1)
    /\ BeliefState.update b ac
       = (Ok (mkPerAxis cx cy cz),
          bump (bump (bump b aX (atX ac) (IZR (total (atX ac)) * cx))
                     aY (atY ac) (IZR (total (atY ac)) * cy))
               aZ (atZ ac) (IZR (total (atZ ac)) * cz)).
Proof.
  intros Hg Hlam Hac.
  destruct (@update_axis_valid b aX (atX ac) Hg Hlam (Hac aX))
    as (cx & (Hx & Sx) & _ & EX).
  set (b1 := bump b aX (atX ac) (IZR (total (atX ac)) * cx)) in *.
  destruct (bump_config b aX (atX ac) (IZR (total (atX ac)) * cx))
    as (L1 & G1 & _). fold b1 in L1, G1.
  destruct (@update_axis_valid b1 aY (atY ac)) as (cy & (Hy & Sy) & _ & EY);
    [lra | lra | apply (Hac aY) |].
  set (b2 := bump b1 aY (atY ac) (IZR (total (atY ac)) * cy)) in *.
  destruct (bump_config b1 aY (atY ac) (IZR (total (atY ac)) * cy))
    as (L2 & G2 & _). fold b2 in L2, G2.
  destruct (@update_axis_valid b2 aZ (atZ ac)) as (cz & (Hz & Sz) & _ & EZ);
    [lra | lra | apply (Hac aZ) |].
  exists cx, cy, cz. split; [auto |]. split.
  { intros Hg0. rewrite G1 in Sy. rewrite G2, G1 in Sz. auto. }
  unfold BeliefState.update. now rewrite EX, EY, EZ.
Qed.

(** X1. With a valid configuration ([gamma >= 0], [lam > 0]) and tallies of
    counts that are not negative, [update] returns and the pseudo-count mass
    of every axis grows by exactly the effective sample size
    [n * confidence] of the axis: never by more than the number of votes
    [n]. *)
Theorem update_mass_grows_by_neff
  (b : BeliefState.t) (ac : BeliefState.AxisCounts) :
  0 <= BeliefState.gamma b -> 0 < BeliefState.lam b -> nonneg_counts ac ->
  exists conf,
    fst (BeliefState.update b ac) = Ok conf
    /\ forall A,
        BeliefState.mass (after_update b ac) A
        = BeliefState.mass b A + IZR (total (aget ac A)) * aget conf A
        /\ BeliefState.mass (after_update b ac) A
           <= BeliefState.mass b A + IZR (total (aget ac A)).
Proof.
  intros Hg Hlam Hac.
  destruct (@update_valid b ac Hg Hlam Hac)
    as (cx & cy & cz & (Hx & Hy & Hz) & _ & E).
  exists (mkPerAxis cx cy cz). unfold after_update. rewrite E. cbn [fst snd].
  split; [reflexivity |].
  set (b1 := bump b aX (atX ac) (IZR (total (atX ac)) * cx)) in *.
  set (b2 := bump b1 aY (atY ac) (IZR (total (atY ac)) * cy)) in *.
  destruct (bump_config b aX (atX ac) (IZR (total (atX ac)) * cx)) as (L1 & _).
  fold b1 in L1.
  destruct (bump_config b1 aY (atY ac) (IZR (total (atY ac)) * cy)) as (L2 & _).
  fold b2 in L2.
  assert (Hn : forall A, 0 <= IZR (total (aget ac A))).
  { intros A. apply IZR_le. destruct (Hac A) as (? & ? & ?).
    unfold total. lia. }
  pose proof (Hn aX) as HnX. pose proof (Hn aY) as HnY. pose proof (Hn aZ) as HnZ.
  cbn [aget] in HnX, HnY, HnZ.
  assert (Hkeep : forall b' A B c neff, B <> A ->
             BeliefState.mass (bump b' A c neff) B = BeliefState.mass b' B).
  { intros b' A B c neff HB. unfold BeliefState.mass.
    now rewrite bump_other. }
  assert (HmX : BeliefState.mass b1 aX
                = BeliefState.mass b aX + IZR (total (atX ac)) * cx)
    by (apply bump_mass; nra).
  assert (HmY : BeliefState.mass b2 aY
                = BeliefState.mass b1 aY + IZR (total (atY ac)) * cy)
    by (apply bump_mass; nra).
  assert (HmZ : BeliefState.mass
                  (bump b2 aZ (atZ ac) (IZR (total (atZ ac)) * cz)) aZ
                = BeliefState.mass b2 aZ + IZR (total (atZ ac)) * cz)
    by (apply bump_mass; nra).
  intros []; cbn [aget atX atY atZ].
  - rewrite Hkeep by discriminate. unfold b2. rewrite Hkeep by discriminate.
    rewrite HmX. split; [reflexivity | nra].
  - rewrite Hkeep by discriminate. rewrite HmY.
    unfold b1. rewrite Hkeep by discriminate. split; [reflexivity | nra].
  - rewrite HmZ. unfold b2. rewrite Hkeep by discriminate.
    unfold b1. rewrite Hkeep by discriminate. split; [reflexivity | nra].
Qed.

Lemma update_mass_grows_by_neff_witness :
  exists conf,
    fst (BeliefState.update BeliefState.default scenario_counts) = Ok conf
    /\ forall A,
        BeliefState.mass (after_update BeliefState.default scenario_counts) A
        = BeliefState.mass BeliefState.default A
          + IZR (total (aget scenario_counts A)) * aget conf A
        /\ BeliefState.mass (after_update BeliefState.default scenario_counts) A
           <= BeliefState.mass BeliefState.default A
              + IZR (total (aget scenario_counts A)).
Proof.
  apply (@update_mass_grows_by_neff BeliefState.default scenario_counts).
  - cbn. lra.
  - cbn. lra.
  - apply scenario_counts_nonneg.
Defined.

(** ** The Wilson weighting on unanimous and on single votes *)

(** On a unanimous tally of [n] votes the Wilson lower bound is
    [n / (n + z^2)]. *)
Lemma wilson_lb_unanimous (c : BeliefState.VoteTally) :
  unanimous c -> (0 < total c)%Z ->
  wilson_lb_of c = IZR (total c) / (IZR (total c) + BeliefState.z * BeliefState.z).
Proof.
  intros [Hc Hmaj] Hn. unfold wilson_lb_of. rewrite Hmaj.
  apply IZR_lt in Hn. set (n := IZR (total c)) in *.
  assert (Hz := z_pos).
  replace (n / n) with 1 by (field; lra).
  assert (Hrad : BeliefState.wilson_radicand 1 n
                 = (BeliefState.z / (2 * n)) * (BeliefState.z / (2 * n))).
  { unfold BeliefState.wilson_radicand. field. lra. }
  rewrite Hrad, sqrt_square.
  - unfold BeliefState.wilson_lb. field. split; [nra | lra].
  - apply Rmult_le_pos; [lra |]. left. apply Rinv_0_lt_compat. lra.
Qed.

Lemma single_vote_unanimous (c : BeliefState.VoteTally) :
  nonneg_tally c -> total c = 1%Z -> unanimous c.
Proof.
  intros Hc Ht. split; [exact Hc |].
  destruct Hc as (? & ? & ?). unfold majority, total in *. lia.
Qed.

(** A single vote: the lower bound [1 / (1 + z^2)] is below 1/3, so the
    confidence is 0 and the round changes nothing. *)
Lemma wilson_single_vote_neff (b : BeliefState.t) (c : BeliefState.VoteTally) :
  nonneg_tally c -> total c = 1%Z -> 0 < BeliefState.gamma b ->
  BeliefState._wilson_neff b c = Ok (IZR (total c) * 0, 0).
Proof.
  intros Hc E1 Hg.
  assert (Hn0 : (0 < total c)%Z) by lia.
  rewrite (wilson_neff_eq b Hc Hn0).
  rewrite (wilson_lb_unanimous (single_vote_unanimous Hc E1) Hn0), E1.
  assert (Hbase : BeliefState.wilson_base
                    (1 / (1 + BeliefState.z * BeliefState.z)) = 0).
  { unfold BeliefState.wilson_base, BeliefState.z.
    rewrite (Rmax_right (1 / (1 + 196 / 100 * (196 / 100))) (1 / 3)) by lra.
    replace ((1 / 3 - 1 / 3) / (2 / 3)) with 0 by field.
    apply Rmax_left. lra. }
  now rewrite Hbase, float_pow_zero by assumption.
Qed.

Lemma update_axis_single_vote (b : BeliefState.t) (A : axis)
      (c : BeliefState.VoteTally) :
  BeliefState.method b = "wilson" -> 0 < BeliefState.gamma b ->
  nonneg_tally c -> (total c <= 1)%Z ->
  BeliefState.update_axis b A c = (Ok 0, b).
Proof.
  intros Hm Hg Hc H1.
  destruct (Z.eq_dec (total c) 0) as [E0 | NE0];
    [now apply update_axis_zero |].
  assert (E1 : total c = 1%Z).
  { destruct Hc as (? & ? & ?). unfold total in *. lia. }
  unfold BeliefState.update_axis.
  rewrite Hm, String.eqb_refl, (wilson_single_vote_neff b Hc E1 Hg).
  rewrite total_sumZ, E1.
  destruct (0 <? 1)%Z; [| reflexivity].
  destruct (Rlt_dec 0 (1 * 0)); [lra | reflexivity].
Qed.

(** X2. On a unanimous tally of [n >= 1] votes, with a sharpening exponent
    [gamma > 0], [_wilson_neff] returns a confidence that is 0 for a single
    vote and above 0 for two votes or more; with [gamma = 1] and [n >= 2] it
    is [(3 n / (n + z^2) - 1) / 2] for [z = 1.96]. *)
Theorem wilson_unanimous_confidence
  (b : BeliefState.t) (c : BeliefState.VoteTally) :
  unanimous c -> (1 <= total c)%Z -> 0 < BeliefState.gamma b ->
  exists cf,
    BeliefState._wilson_neff b c = Ok (IZR (total c) * cf, cf)
    /\ (total c = 1%Z -> cf = 0)
    /\ ((2 <= total c)%Z -> 0 < cf)
    /\ ((2 <= total c)%Z -> BeliefState.gamma b = 1 ->
        cf = (3 * IZR (total c)
              / (IZR (total c) + BeliefState.z * BeliefState.z) - 1) / 2).
Proof.
  intros Hu Hn Hg. pose proof Hu as [Hc _].
  assert (Hn0 : (0 < total c)%Z) by lia.
  destruct (Z.eq_dec (total c) 1) as [E1 | NE1].
  { exists 0. split; [now apply wilson_single_vote_neff |].
    repeat split; intros; try lia; reflexivity. }
  rewrite (wilson_neff_eq b Hc Hn0), (wilson_lb_unanimous Hu Hn0).
  assert (HnR : 1 <= IZR (total c)) by now apply IZR_le.
  set (n := IZR (total c)) in *.
  assert (Hzz : BeliefState.z * BeliefState.z = 38416 / 10000)
    by (unfold BeliefState.z; field).
  rewrite Hzz.
  assert (Hd : 0 < / (n + 38416 / 10000)) by (apply Rinv_0_lt_compat; lra).
  assert (Hn2 : 2 <= n) by (apply (IZR_le 2); lia).
  assert (Hlb : 1 / 3 < n / (n + 38416 / 10000)).
  { assert (Hi : (n + 38416 / 10000) * / (n + 38416 / 10000) = 1)
      by (apply Rinv_r; lra).
    assert (0 < (2 * n - 38416 / 10000) * / (n + 38416 / 10000))
      by (apply Rmult_lt_0_compat; lra).
    unfold Rdiv. nra. }
  assert (Hbase : BeliefState.wilson_base (n / (n + 38416 / 10000))
                  = (3 * n / (n + 38416 / 10000) - 1) / 2).
  { unfold BeliefState.wilson_base.
    rewrite (Rmax_left (n / (n + 38416 / 10000)) (1 / 3)) by lra.
    rewrite Rmax_right by (unfold Rdiv in *; lra).
    field. lra. }
  assert (Hpos : 0 < (3 * n / (n + 38416 / 10000) - 1) / 2)
    by (unfold Rdiv in *; lra).
  rewrite Hbase.
  destruct (float_pow_pos (BeliefState.gamma b) Hpos) as (y & Ey & Hy).
  rewrite Ey. cbn [bind]. exists y.
  split; [reflexivity |]. split; [intros; lia |]. split; [intros; exact Hy |].
  intros _ Hg1. rewrite Hg1, float_pow_one in Ey by lra.
  now injection Ey as <-.
Qed.

Lemma wilson_unanimous_confidence_witness :
  exists cf,
    BeliefState._wilson_neff BeliefState.default (mkPerSign 0 4 0)%Z
    = Ok (IZR (total (mkPerSign 0 4 0)%Z) * cf, cf)
    /\ (total (mkPerSign 0 4 0)%Z = 1%Z -> cf = 0)
    /\ ((2 <= total (mkPerSign 0 4 0)%Z)%Z -> 0 < cf)
    /\ ((2 <= total (mkPerSign 0 4 0)%Z)%Z ->
        BeliefState.gamma BeliefState.default = 1 ->
        cf = (3 * IZR (total (mkPerSign 0 4 0)%Z)
              / (IZR (total (mkPerSign 0 4 0)%Z)
                 + BeliefState.z * BeliefState.z) - 1) / 2).
Proof.
  apply (@wilson_unanimous_confidence BeliefState.default (mkPerSign 0 4 0)%Z).
  - split; [unfold nonneg_tally; cbn; lia | reflexivity].
  - unfold total. cbn. lia.
  - cbn. lra.
Defined.

(** X3. Under the Wilson method with [gamma > 0], a step in which no axis
    got more than one vote teaches nothing: [update] returns the confidence
    0 for every axis and leaves the belief exactly as it was. *)
Theorem wilson_single_votes_change_nothing
  (b : BeliefState.t) (ac : BeliefState.AxisCounts) :
  BeliefState.method b = "wilson" -> 0 < BeliefState.gamma b ->
  nonneg_counts ac -> (forall A, (total (aget ac A) <= 1)%Z) ->
  BeliefState.update b ac = (Ok (mkPerAxis 0 0 0), b).
Proof.
  intros Hm Hg Hac Hone.
  assert (Hround : forall A, BeliefState.update_axis b A (aget ac A) = (Ok 0, b))
    by (intros A; now apply update_axis_single_vote).
  pose proof (Hround aX) as RX. pose proof (Hround aY) as RY.
  pose proof (Hround aZ) as RZ. cbn [aget] in RX, RY, RZ.
  unfold BeliefState.update. now rewrite RX, RY, RZ.
Qed.

Lemma wilson_single_votes_change_nothing_witness :
  BeliefState.update BeliefState.default
                     (mkPerAxis (mkPerSign 1 0 0) (mkPerSign 0 0 1)
                                (mkPerSign 0 0 0))%Z
  = (Ok (mkPerAxis 0 0 0), BeliefState.default).
Proof.
  apply (@wilson_single_votes_change_nothing BeliefState.default).
  - reflexivity.
  - cbn. lra.
  - intros []; unfold nonneg_tally; cbn; lia.
  - intros []; unfold total; cbn; lia.
Defined.

(** X4. With [gamma > 0] and [lam > 0], for tallies of counts that are not
    negative, every confidence that [update] returns is strictly below 1,
    under either weighting: the effective sample size of an axis with votes
    is strictly less than the number of its votes. *)
Theorem confidence_below_one
  (b : BeliefState.t) (ac : BeliefState.AxisCounts) :
  0 < BeliefState.gamma b -> 0 < BeliefState.lam b -> nonneg_counts ac ->
  exists conf,
    fst (BeliefState.update b ac) = Ok conf
    /\ forall A,
        0 <= aget conf A < 1
        /\ ((0 < total (aget ac A))%Z ->
            IZR (total (aget ac A)) * aget conf A < IZR (total (aget ac A))).
Proof.
  intros Hg Hlam Hac.
  destruct (@update_valid b ac ltac:(lra) Hlam Hac)
    as (cx & cy & cz & (Hx & Hy & Hz) & Hs & E).
  destruct (Hs Hg) as (Sx & Sy & Sz).
  exists (mkPerAxis cx cy cz). rewrite E. split; [reflexivity |].
  intros []; cbn [aget atX atY atZ]; (split; [lra |]);
    intros Hn; apply IZR_lt in Hn; nra.
Qed.

Lemma confidence_below_one_witness :
  exists conf,
    fst (BeliefState.update BeliefState.default scenario_counts) = Ok conf
    /\ forall A,
        0 <= aget conf A < 1
        /\ ((0 < total (aget scenario_counts A))%Z ->
            IZR (total (aget scenario_counts A)) * aget conf A
            < IZR (total (aget scenario_counts A))).
Proof.
  apply (@confidence_below_one BeliefState.default scenario_counts).
  - cbn. lra.
  - cbn. lra.
  - apply scenario_counts_nonneg.
Defined.

(** ** The entropy weighting on a balanced tally *)




(** ** What [update] adds, in closed form *)

Lemma bump_alpha (b : BeliefState.t) (A : axis) (c : BeliefState.VoteTally)
      (neff : R) (s : sign) :
  alpha_at (bump b A c neff) A s
  = alpha_at b A s + bump_term (BeliefState.lam b) c neff (sget c s).
Proof.
  unfold bump, bump_term, alpha_at.
  destruct (Rlt_dec 0 neff); [| lra].
  destruct A, s; reflexivity.
Qed.

Lemma update_alpha (b : BeliefState.t) (ac : BeliefState.AxisCounts) :
  0 <= BeliefState.gamma b -> 0 < BeliefState.lam b -> nonneg_counts ac ->
  exists conf,
    fst (BeliefState.update b ac) = Ok conf
    /\ (forall A, 0 <= aget conf A <= 1)
    /\ forall A s,
        alpha_at (after_update b ac) A s
        = alpha_at b A s
          + bump_term (BeliefState.lam b) (aget ac A)
                      (IZR (total (aget ac A)) * aget conf A)
                      (sget (aget ac A) s).
Proof.
  intros Hg Hlam Hac.
  destruct (@update_valid b ac Hg Hlam Hac)
    as (cx & cy & cz & (Hx & Hy & Hz) & _ & E).
  exists (mkPerAxis cx cy cz). unfold after_update. rewrite E. cbn [fst snd].
  split; [reflexivity |]. split; [intros []; assumption |].
  set (b1 := bump b aX (atX ac) (IZR (total (atX ac)) * cx)) in *.
  set (b2 := bump b1 aY (atY ac) (IZR (total (atY ac)) * cy)) in *.
  destruct (bump_config b aX (atX ac) (IZR (total (atX ac)) * cx)) as (L1 & _).
  fold b1 in L1.
  destruct (bump_config b1 aY (atY ac) (IZR (total (atY ac)) * cy)) as (L2 & _).
  fold b2 in L2.
  assert (Hkeep : forall b' A B c neff s, B <> A ->
             alpha_at (bump b' A c neff) B s = alpha_at b' B s).
  { intros b' A B c neff s HB. unfold alpha_at. now rewrite bump_other. }
  intros [] s; cbn [aget atX atY atZ].
  - rewrite Hkeep by discriminate. unfold b2. rewrite Hkeep by discriminate.
    unfold b1. apply bump_alpha.
  - rewrite Hkeep by discriminate. unfold b2. rewrite bump_alpha, L1.
    unfold b1. now rewrite Hkeep by discriminate.
  - rewrite bump_alpha, L2, L1. unfold b2. rewrite Hkeep by discriminate.
    unfold b1. now rewrite Hkeep by discriminate.
Qed.

(** X6. After the first update of a prior [lam > 0] (with [gamma >= 0] and
    tallies of counts that are not negative) the posterior of every axis is
    ordered as the votes of the axis: a sign with no fewer votes has no
    smaller probability. *)
Theorem first_update_follows_votes
  (l g : R) (m : string) (ac : BeliefState.AxisCounts) :
  0 < l -> 0 <= g -> nonneg_counts ac ->
  exists post,
    BeliefState.get_posterior (after_update (BeliefState.init l g m) ac)
    = Ok post
    /\ forall A s s',
        (sget (aget ac A) s <= sget (aget ac A) s')%Z ->
        sget (aget post A) s <= sget (aget post A) s'.
Proof.
  intros Hl Hg Hac.
  assert (Hreach : reachable l g m (after_update (BeliefState.init l g m) ac))
    by (apply reach_update; [apply reach_init | exact Hac]).
  destruct (reachable_above_prior Hl Hreach) as [_ Habove].
  set (b' := after_update (BeliefState.init l g m) ac) in *.
  assert (Hmass : forall A, 0 < BeliefState.mass b' A).
  { intros A. rewrite mass_eq.
    pose proof (Habove A Plus). pose proof (Habove A Zero).
    pose proof (Habove A Minus). lra. }
  destruct (@get_posterior_ok b') as [post Hpost].
  { intros A. specialize (Hmass A). lra. }
  exists post. split; [exact Hpost |].
  intros A s s' Hk.
  destruct (@get_posterior_inv b' post Hpost A) as [_ Hs]. rewrite !Hs.
  apply Rmult_le_compat_r; [left; apply Rinv_0_lt_compat, Hmass |].
  destruct (@update_alpha (BeliefState.init l g m) ac) as (conf & _ & Hc & Ha);
    [exact Hg | exact Hl | exact Hac |].
  fold b' in Ha. rewrite !Ha.
  assert (Hflat : alpha_at (BeliefState.init l g m) A s
                  = alpha_at (BeliefState.init l g m) A s')
    by (destruct A, s, s'; reflexivity).
  rewrite Hflat. apply Rplus_le_compat_l.
  unfold bump_term. cbn [BeliefState.lam BeliefState.init].
  destruct (Rlt_dec 0 (IZR (total (aget ac A)) * aget conf A)) as [Hpos | _];
    [| lra].
  apply Rmult_le_compat_l; [lra |]. unfold smoothed_of.
  assert (Hn : 0 <= IZR (total (aget ac A))).
  { apply IZR_le. destruct (Hac A) as (? & ? & ?). unfold total. lia. }
  apply Rmult_le_compat_r; [left; apply Rinv_0_lt_compat; lra |].
  apply IZR_le in Hk. lra.
Qed.

Lemma first_update_follows_votes_witness :
  exists post,
    BeliefState.get_posterior
      (after_update (BeliefState.init 1 1 "wilson") scenario_counts)
    = Ok post
    /\ forall A s s',
        (sget (aget scenario_counts A) s <= sget (aget scenario_counts A) s')%Z ->
        sget (aget post A) s <= sget (aget post A) s'.
Proof.
  apply (@first_update_follows_votes 1 1 "wilson" scenario_counts).
  - lra.
  - lra.
  - apply scenario_counts_nonneg.
Defined.

(** ** The queries on a belief without mass *)

Lemma posterior_axis_cases (b : BeliefState.t) (A : axis) :
  (BeliefState.mass b A = 0
   /\ BeliefState.posterior_axis b A = Err ZeroDivisionError)
  \/ (BeliefState.mass b A <> 0
      /\ exists p, BeliefState.posterior_axis b A = Ok p).
Proof.
  destruct (Req_dec_T (BeliefState.mass b A) 0) as [E | NE].
  - left. split; [exact E |].
    unfold BeliefState.posterior_axis, float_div. rewrite E.
    destruct (Req_dec_T 0 0); [reflexivity | lra].
  - right. split; [exact NE |]. rewrite posterior_axis_ok by exact NE.
    now eexists.
Qed.

(** X7. The three queries raise exactly when some axis has a pseudo-count
    mass of zero, and what they raise is [ZeroDivisionError]; so they all
    raise on a belief built with [lam = 0] that no update has touched. *)
Theorem queries_raise_on_zero_mass (b : BeliefState.t) (tau kappa_min : R) :
  ((exists A, BeliefState.mass b A = 0)
   <-> BeliefState.get_posterior b = Err ZeroDivisionError)
  /\ (forall e, BeliefState.get_posterior b = Err e -> e = ZeroDivisionError)
  /\ (forall e, BeliefState.get_posterior b = Err e ->
                BeliefState.get_decision b = Err e
                /\ BeliefState.should_stop b tau kappa_min = Err e)
  /\ (forall post, BeliefState.get_posterior b = Ok post ->
                   (exists d, BeliefState.get_decision b = Ok d)
                   /\ exists r, BeliefState.should_stop b tau kappa_min = Ok r)
  /\ (forall g m,
         BeliefState.get_posterior (BeliefState.init 0 g m)
         = Err ZeroDivisionError).
Proof.
  assert (Hcases :
    (BeliefState.get_posterior b = Err ZeroDivisionError
     /\ exists A, BeliefState.mass b A = 0)
    \/ ((exists post, BeliefState.get_posterior b = Ok post)
        /\ forall A, BeliefState.mass b A <> 0)).
  { unfold BeliefState.get_posterior.
    destruct (posterior_axis_cases b aX) as [[EX ->] | [NX [px ->]]];
      [left; split; [reflexivity | now exists aX] |].
    destruct (posterior_axis_cases b aY) as [[EY ->] | [NY [py ->]]];
      [left; split; [reflexivity | now exists aY] |].
    destruct (posterior_axis_cases b aZ) as [[EZ ->] | [NZ [pz ->]]];
      [left; split; [reflexivity | now exists aZ] |].
    right. split; [now eexists | intros []; assumption]. }
  split; [| split; [| split; [| split]]].
  - destruct Hcases as [[E HA] | [[post E] HA]].
    + now split.
    + split; [intros [A H]; now elim (HA A) | rewrite E; discriminate].
  - intros e He. destruct Hcases as [[E _] | [[post E] _]]; congruence.
  - intros e He. unfold BeliefState.should_stop, BeliefState.get_decision.
    now rewrite He.
  - intros post Hpost. rewrite (@should_stop_eq b post Hpost).
    rewrite (@get_decision_eq b post Hpost). split; now eexists.
  - intros g m. unfold BeliefState.get_posterior, BeliefState.posterior_axis,
                  float_div.
    assert (Hm : BeliefState.mass (BeliefState.init 0 g m) aX = 0)
      by (unfold BeliefState.mass, sumR; cbn; ring).
    rewrite Hm. destruct (Req_dec_T 0 0); [reflexivity | lra].
Qed.

Lemma queries_raise_on_zero_mass_witness :
  BeliefState.get_posterior (BeliefState.init 0 1 "wilson")
  = Err ZeroDivisionError.
Proof.
  apply (proj1 (proj1 (queries_raise_on_zero_mass
                         (BeliefState.init 0 1 "wilson") (9 / 10) 10))).
  exists aX. unfold BeliefState.mass. cbn. lra.
Defined.

(** ** The axes do not see each other *)







(** * Further properties of the answer parser *)

Lemma sign_eqb_eq (a b : sign) : sign_eqb a b = true <-> a = b.
Proof. destruct a, b; cbn; split; congruence. Qed.

Lemma parse_format_answer (d : PerAxis sign) :
  Verifier.parse_answer (Agent.format_answer d) = all_labels d.
Proof. destruct d as [[] [] []]; vm_compute; reflexivity. Qed.

Lemma parse_sign_tuple (l : Verifier.Labels) :
  Verifier.parse_answer (sign_tuple l) = l.
Proof. destruct l as [[[] |] [[] |] [[] |]]; vm_compute; reflexivity. Qed.

(** [check_answer] in terms of the two decoded labellings. *)
Lemma check_answer_spec (groundtruth response : string) :
  Verifier.check_answer groundtruth response = true
  <-> forall A s,
      aget (Verifier.parse_answer response) A = Some s ->
      aget (Verifier.parse_answer groundtruth) A = Some s.
Proof.
  unfold Verifier.check_answer, axes. cbn [forallb].
  set (p := Verifier.parse_answer response).
  set (g := Verifier.parse_answer groundtruth).
  rewrite !andb_true_iff.
  assert (Hax : forall A,
             match aget p A with
             | Some s => match aget g A with
                         | Some s' => sign_eqb s' s
                         | None => false
                         end
             | None => true
             end = true
             <-> forall s, aget p A = Some s -> aget g A = Some s).
  { intros A. destruct (aget p A) as [s |]; [| split; [discriminate | reflexivity]].
    destruct (aget g A) as [s' |].
    - rewrite sign_eqb_eq. split.
      + intros -> s0 [= <-]. reflexivity.
      + intros H. specialize (H s eq_refl). congruence.
    - split; [discriminate |]. intros H. specialize (H s eq_refl). discriminate. }
  rewrite (Hax aX), (Hax aY), (Hax aZ). split.
  - intros (HX & HY & HZ & _) []; [apply HX | apply HY | apply HZ].
  - intros H. repeat split; intros s; apply H.
Qed.

(** X9. [check_answer] gives partial credit: it accepts a response exactly
    when every axis that the response decodes to has the same sign in the
    decoded ground truth; so a response from which no token decodes, such
    as the empty text, is accepted against every ground truth. *)
Theorem check_answer_partial_credit (groundtruth response : string) :
  (Verifier.check_answer groundtruth response = true
   <-> forall A s,
       aget (Verifier.parse_answer response) A = Some s ->
       aget (Verifier.parse_answer groundtruth) A = Some s)
  /\ (Verifier.parse_answer response = Verifier.no_labels ->
      Verifier.check_answer groundtruth response = true)
  /\ Verifier.check_answer groundtruth "" = true
  /\ Verifier.check_answer groundtruth groundtruth = true.
Proof.
  split; [apply check_answer_spec |]. split; [| split].
  - intros Hno. apply check_answer_spec. rewrite Hno.
    intros [] s; discriminate.
  - apply check_answer_spec. intros [] s; discriminate.
  - apply check_answer_spec. auto.
Qed.

Lemma check_answer_partial_credit_witness :
  Verifier.check_answer "<answer>(+X, -Y, 0Z)</answer>" "no idea" = true.
Proof.
  apply (proj1 (proj2 (check_answer_partial_credit
                         "<answer>(+X, -Y, 0Z)</answer>" "no idea"))).
  reflexivity.
Defined.

(** X10. Against the answer that [run] formats for a decision [d],
    [check_answer] accepts the formatted answer of a decision [d'] only when
    [d' = d], and accepts the sign-tuple text of a partial labelling exactly
    when each of its signs is the sign of [d] on that axis. *)
Theorem check_answer_on_decisions (d : PerAxis sign) :
  (forall d' : PerAxis sign,
      Verifier.check_answer (Agent.format_answer d) (Agent.format_answer d')
      = true <-> d' = d)
  /\ (forall l : Verifier.Labels,
         Verifier.check_answer (Agent.format_answer d) (sign_tuple l) = true
         <-> forall A s, aget l A = Some s -> aget d A = s).
Proof.
  split.
  - intros d'. rewrite check_answer_spec, !parse_format_answer. split.
    + intros H. destruct d as [dx dy dz], d' as [dx' dy' dz'].
      pose proof (H aX dx' eq_refl) as HX.
      pose proof (H aY dy' eq_refl) as HY.
      pose proof (H aZ dz' eq_refl) as HZ.
      cbn in HX, HY, HZ. congruence.
    + intros -> A s H. exact H.
  - intros l. rewrite check_answer_spec, parse_format_answer, parse_sign_tuple.
    split.
    + intros H A s Hl. specialize (H A s Hl). destruct d, A; cbn in *; congruence.
    + intros H A s Hl. specialize (H A s Hl). destruct d, A; cbn in *; congruence.
Qed.

Lemma check_answer_on_decisions_witness :
  Verifier.check_answer
    (Agent.format_answer (mkPerAxis Plus Minus Zero))
    (sign_tuple (mkPerAxis (Some Plus) None (Some Zero))) = true.
Proof.
  apply (proj2 (check_answer_on_decisions (mkPerAxis Plus Minus Zero))
               (mkPerAxis (Some Plus) None (Some Zero))).
  intros [] s; cbn; congruence.
Defined.

(** * Further properties of the control loop *)

Section RunInvariant.

Variable World : Type.
Variable collab : Agent.Collaborators World.
Variable n0 : Z.
Variable h0 : list Agent.HistoryEntry.

(** A round completes at most one more round. *)
Lemma iteration_rounds (k : nat) (central target : string) (jitter_size : Z) :
  triple (after_rounds n0 h0 k)
         (Agent.iteration collab central target jitter_size)
         (fun stop st =>
            if stop : bool
            then after_rounds n0 h0 k st \/ after_rounds n0 h0 (S k) st
            else after_rounds n0 h0 (S k) st)
         (fun st => after_rounds n0 h0 k st \/ after_rounds n0 h0 (S k) st).
Proof.
  set (P := after_rounds n0 h0 k).
  set (E := fun st => after_rounds n0 h0 k st \/ after_rounds n0 h0 (S k) st).
  assert (HE : forall st, P st -> E st) by (intros st H; now left).
  unfold Agent.iteration.
  apply triple_skip with (Qv := fun _ => True);
    [apply unchanged_propose_view | apply returns_any | exact HE |].
  intros llm_response _.
  apply triple_skip with (Qv := fun _ => True);
    [apply unchanged_lift | apply returns_any | exact HE |].
  intros action _.
  apply triple_skip with (Qv := fun _ => True);
    [apply unchanged_lift | apply returns_any | exact HE |].
  intros act _. destruct (Json.eq_str act "STOP").
  { apply triple_ret. intros st Hst. now left. }
  apply triple_skip with (Qv := fun _ => True);
    [apply unchanged_lift | apply returns_any | exact HE |].
  intros view _.
  apply triple_skip with (Qv := fun _ => True);
    [apply unchanged_lift | apply returns_any | exact HE |].
  intros az _.
  apply triple_skip with (Qv := fun _ => True);
    [apply unchanged_lift | apply returns_any | exact HE |].
  intros view' _.
  apply triple_skip with (Qv := fun _ => True);
    [apply unchanged_lift | apply returns_any | exact HE |].
  intros el _.
  apply triple_skip with (Qv := fun _ => True);
    [apply unchanged_lift | apply returns_any | exact HE |].
  intros focus_axis _.
  apply triple_skip with (Qv := fun _ => True);
    [apply unchanged_jitter | apply returns_any | exact HE |].
  intros offsets _.
  apply triple_skip with (Qv := fun _ => True);
    [apply unchanged_vote | apply returns_any | exact HE |].
  intros [axis_counts view_ans] _.
  apply triple_bind with (Q1 := fun _ => P).
  { intros s Hs. unfold Agent.belief_update.
    destruct (BeliefState.update (Agent.belief (fst s)) axis_counts)
      as [[conf | e] b']; cbn; [exact Hs | now apply HE]. }
  intros confidence_scores.
  apply triple_bind with (1 := triple_get_self _ _).
  intros self.
  apply triple_bind
    with (Q1 := fun _ st =>
                  Agent.steps st = (n0 + Z.of_nat k)%Z
                  /\ exists added,
                      Agent.history st = (h0 ++ added)%list
                      /\ length added = S k
                      /\ map Agent.step added
                         = map (fun i => (n0 + Z.of_nat i)%Z) (seq 0 (S k))).
  { destruct view_ans as [ans |].
    - intros s [Heq [Hs (added & Hh & Hlen & Hmap)]]. cbn -[seq Z.of_nat].
      split; [exact Hs |].
      exists (added ++ [Agent.mkEntry (Agent.steps self) az el ans
                                      confidence_scores])%list.
      split; [now rewrite Hh, app_assoc |].
      split; [rewrite length_app; cbn; lia |].
      rewrite map_app, Hmap, seq_S, map_app. cbn.
      now rewrite Heq, Hs.
    - apply triple_raise. intros st [_ Hst]. now left. }
  intros _.
  apply triple_bind with (Q1 := fun _ => after_rounds n0 h0 (S k)).
  { intros s [Hs Hadd]. cbn -[seq Z.of_nat after_rounds].
    unfold after_rounds. cbn [Agent.steps Agent.history].
    split; [rewrite Hs; lia | exact Hadd]. }
  intros _.
  apply triple_skip with (Qv := fun _ => True);
    [apply unchanged_get_self | apply returns_any | intros st H; now right |].
  intros self' _.
  apply triple_skip with (Qv := fun _ => True);
    [apply unchanged_lift | apply returns_any | intros st H; now right |].
  intros r _. apply triple_ret. intros st H. destruct (fst r); [now right | exact H].
Qed.

(** The loop completes at most as many rounds as it has fuel. *)
Lemma loop_rounds (central target : string) (jitter_size max_steps : Z)
      (fuel : nat) :
  forall k : nat,
    triple (after_rounds n0 h0 k)
           (Agent.loop collab fuel central target jitter_size max_steps)
           (fun _ st => exists k', (k <= k' <= k + fuel)%nat
                                   /\ after_rounds n0 h0 k' st)
           (fun st => exists k', (k <= k' <= k + fuel)%nat
                                 /\ after_rounds n0 h0 k' st).
Proof.
  induction fuel as [| fuel IH]; intros k; cbn [Agent.loop].
  - apply triple_ret. intros st Hst. exists k. split; [lia | exact Hst].
  - apply triple_skip with (Qv := fun _ => True);
      [apply unchanged_get_self | apply returns_any | |].
    { intros st Hst. exists k. split; [lia | exact Hst]. }
    intros self _. destruct (Agent.steps self <? max_steps)%Z.
    + apply triple_bind
        with (Q1 := fun stop st =>
                if stop : bool
                then after_rounds n0 h0 k st \/ after_rounds n0 h0 (S k) st
                else after_rounds n0 h0 (S k) st).
      * apply triple_consequence
          with (1 := @iteration_rounds k central target jitter_size); auto.
        intros st [H | H]; [exists k | exists (S k)]; (split; [lia | exact H]).
      * intros [].
        -- apply triple_ret.
           intros st [H | H]; [exists k | exists (S k)];
             (split; [lia | exact H]).
        -- apply triple_consequence with (1 := IH (S k)); auto.
           ++ intros _ st (k' & Hk & H). exists k'. split; [lia | exact H].
           ++ intros st (k' & Hk & H). exists k'. split; [lia | exact H].
    + apply triple_ret. intros st Hst. exists k. split; [lia | exact Hst].
Qed.

End RunInvariant.

(** What a whole run does to the history and to the step counter, whether
    it returns or raises. *)
Lemma run_rounds (World : Type) (collab : Agent.Collaborators World)
      (central target : string) (jitter_size max_steps : Z)
      (self : Agent.t) (w : World) :
  exists k,
    (k <= Z.to_nat (max_steps - Agent.steps self))%nat
    /\ after_rounds (Agent.steps self) (Agent.history self) k
         (fst (snd (Agent.run collab central target jitter_size max_steps
                              (self, w)))).
Proof.
  rewrite run_unfold. cbn [fst].
  assert (H0 : after_rounds (Agent.steps self) (Agent.history self) 0 self).
  { split; [cbn; lia |]. exists []. now rewrite app_nil_r. }
  pose proof (@loop_rounds World collab (Agent.steps self) (Agent.history self)
                central target jitter_size max_steps
                (Z.to_nat (max_steps - Agent.steps self)) 0%nat (self, w) H0)
    as H.
  destruct (Agent.loop collab _ central target jitter_size max_steps (self, w))
    as [[[] | e] s']; cbn [fst snd] in *;
    destruct H as (k & Hk & H); exists k; (split; [lia |]).
  - now destruct (BeliefState.get_decision (Agent.belief (fst s'))).
  - exact H.
Qed.

(** X11. The history is append-only and the step budget bounds it: after a
    run, whether it returned or raised, the history is the history before
    the run followed by at most [max_steps - steps] new entries; for a fresh
    agent, whose [steps] is 1, that is at most [max_steps - 1] entries. *)
Theorem run_appends_bounded_history
  (World : Type) (collab : Agent.Collaborators World)
  (central target : string) (jitter_size max_steps : Z)
  (self : Agent.t) (w : World) :
  exists added,
    Agent.history
      (fst (snd (Agent.run collab central target jitter_size max_steps
                           (self, w))))
    = (Agent.history self ++ added)%list
    /\ (length added <= Z.to_nat (max_steps - Agent.steps self))%nat.
Proof.
  destruct (run_rounds collab central target jitter_size max_steps self w)
    as (k & Hk & _ & added & Hh & Hlen & _).
  exists added. split; [exact Hh | lia].
Qed.

(** X12. The step counter counts the completed rounds: after a run of a
    fresh agent, whether it returned or raised, [steps] is one more than the
    number of history entries, and the entries are labelled 1, 2, 3, ... in
    order. *)
Theorem steps_count_history_entries
  (World : Type) (collab : Agent.Collaborators World)
  (central target name : string) (tau kappa_min : R)
  (jitter_size max_steps : Z) (w : World) :
  let self' := fst (snd (Agent.run collab central target jitter_size max_steps
                                   (Agent.init name tau kappa_min, w))) in
  Agent.steps self' = (1 + Z.of_nat (length (Agent.history self')))%Z
  /\ map Agent.step (Agent.history self')
     = map (fun i => (1 + Z.of_nat i)%Z)
           (seq 0 (length (Agent.history self'))).
Proof.
  cbv zeta.
  destruct (run_rounds collab central target jitter_size max_steps
                       (Agent.init name tau kappa_min) w)
    as (k & _ & Hs & added & Hh & Hlen & Hmap).
  cbn [Agent.init Agent.steps Agent.history app] in Hs, Hh, Hmap.
  rewrite Hh, Hlen. split; [exact Hs | exact Hmap].
Qed.

(** * Rounds that end early *)

Section EarlyExits.

Variable World : Type.
Variable collab : Agent.Collaborators World.

(** A round whose plan cannot be read raises before anything is rendered. *)
Lemma iteration_malformed
  (central target : string) (jitter_size : Z) (s s1 : Agent.t * World)
  (r : string) (action : json) (e : exn) :
  Agent.propose_view collab central target s = (Ok r, s1) ->
  Verifier.parse_answer_json (Agent.json_loads collab) r = Ok action ->
  malformed action e ->
  Agent.iteration collab central target jitter_size s = (Err e, s1).
Proof.
  intros Hp Ha Hm. unfold Agent.iteration, Agent.mbind at 1. rewrite Hp.
  unfold Agent.mbind at 1, Agent.lift at 1. rewrite Ha.
  unfold Agent.mbind at 1, Agent.lift at 1.
  destruct Hm as [action Hn | fields H0 | fields act H0 Hs Hv
                  | fields act view H0 Hs Hv Hn
                  | fields vf act key H0 Hs Hv Hk
                  | fields vf act H0 Hs Hv Haz Hel Hax].
  - destruct action; try reflexivity. exfalso. now eapply Hn.
  - unfold Json.getitem. now rewrite H0.
  - unfold Json.getitem at 1. rewrite H0, Hs.
    unfold Agent.mbind at 1, Agent.lift at 1, Json.getitem at 1.
    now rewrite Hv.
  - unfold Json.getitem at 1. rewrite H0, Hs.
    unfold Agent.mbind at 1, Agent.lift at 1, Json.getitem at 1.
    rewrite Hv.
    unfold Agent.mbind at 1, Agent.lift at 1.
    destruct view; try reflexivity. exfalso. now eapply Hn.
  - unfold Json.getitem at 1. rewrite H0, Hs.
    unfold Agent.mbind at 1, Agent.lift at 1, Json.getitem at 1.
    rewrite Hv.
    unfold Agent.mbind at 1, Agent.lift at 1, Json.getitem at 1.
    destruct Hk as [[-> Haz] | (-> & Haz & Hel)].
    + now rewrite Haz.
    + destruct (Json.lookup "az" vf) as [az |]; [| now destruct Haz].
      unfold Agent.mbind at 1, Agent.lift at 1, Json.getitem at 1.
      rewrite Hv.
      unfold Agent.mbind at 1, Agent.lift at 1, Json.getitem at 1.
      now rewrite Hel.
  - unfold Json.getitem at 1. rewrite H0, Hs.
    unfold Agent.mbind at 1, Agent.lift at 1, Json.getitem at 1.
    rewrite Hv.
    unfold Agent.mbind at 1, Agent.lift at 1, Json.getitem at 1.
    destruct (Json.lookup "az" vf) as [az |]; [| now destruct Haz].
    unfold Agent.mbind at 1, Agent.lift at 1, Json.getitem at 1.
    rewrite Hv.
    unfold Agent.mbind at 1, Agent.lift at 1, Json.getitem at 1.
    destruct (Json.lookup "el" vf) as [el |]; [| now destruct Hel].
    unfold Agent.mbind at 1, Agent.lift at 1, Json.getitem at 1.
    now rewrite Hax.
Qed.

(** The first round of a run whose budget allows one. *)
Lemma run_first_round
  (central target : string) (jitter_size max_steps : Z)
  (self : Agent.t) (w : World) :
  (Agent.steps self < max_steps)%Z ->
  Agent.run collab central target jitter_size max_steps (self, w)
  = match Agent.iteration collab central target jitter_size (self, w) with
    | (Ok true, s') =>
        match BeliefState.get_decision (Agent.belief (fst s')) with
        | Ok r => (Ok (Agent.format_answer (fst r), snd r), s')
        | Err e => (Err e, s')
        end
    | (Ok false, s') =>
        match Agent.loop collab
                (Nat.pred (Z.to_nat (max_steps - Agent.steps self)))
                central target jitter_size max_steps s' with
        | (Ok _, s'') =>
            match BeliefState.get_decision (Agent.belief (fst s'')) with
            | Ok r => (Ok (Agent.format_answer (fst r), snd r), s'')
            | Err e => (Err e, s'')
            end
        | (Err e, s'') => (Err e, s'')
        end
    | (Err e, s') => (Err e, s')
    end.
Proof.
  intros Hlt. rewrite run_unfold. cbn [fst].
  destruct (Z.to_nat (max_steps - Agent.steps self)) as [| fuel] eqn:Ef;
    [lia |].
  rewrite (@loop_unfold World collab fuel central target jitter_size max_steps
             (self, w) Hlt).
  cbn [Nat.pred].
  now destruct (Agent.iteration collab central target jitter_size (self, w))
    as [[[|] | e] s'].
Qed.

End EarlyExits.

(** X13. STOP ends a run at any round: when the planner answers with a plan
    whose [action] is ['STOP'], the run renders nothing, leaves the agent
    object as it is, and returns the decision of the belief the agent has
    at that point (or raises what [get_decision] raises). *)
Theorem stop_returns_current_decision
  (World : Type) (collab : Agent.Collaborators World)
  (central target : string) (jitter_size max_steps : Z)
  (self : Agent.t) (w : World) (r : string) (s1 : Agent.t * World)
  (action act : json) :
  (Agent.steps self < max_steps)%Z ->
  Agent.propose_view collab central target (self, w) = (Ok r, s1) ->
  Verifier.parse_answer_json (Agent.json_loads collab) r = Ok action ->
  Json.getitem action "action" = Ok act ->
  Json.eq_str act "STOP" = true ->
  Agent.run collab central target jitter_size max_steps (self, w)
  = (match BeliefState.get_decision (Agent.belief self) with
     | Ok d => Ok (Agent.format_answer (fst d), snd d)
     | Err e => Err e
     end, (self, snd s1)).
Proof.
  intros Hlt Hp Ha Hact Hstop.
  rewrite (@run_first_round World collab central target jitter_size max_steps
             self w Hlt).
  rewrite (@iteration_stop World collab central target jitter_size (self, w) s1
             r action act Hp Ha Hact Hstop).
  pose proof (propose_view_agent collab central target (self, w)) as Hs.
  rewrite Hp in Hs. destruct s1 as [self1 w1]. cbn [fst snd] in *. subst self1.
  now destruct (BeliefState.get_decision (Agent.belief self)).
Qed.

Lemma stop_returns_current_decision_witness :
  Agent.run (sample_collaborators stop_response) "cube" "ball" 4 10
            (Agent.init "gpt-4o" (9 / 10) 10, tt)
  = (match BeliefState.get_decision
             (Agent.belief (Agent.init "gpt-4o" (9 / 10) 10)) with
     | Ok d => Ok (Agent.format_answer (fst d), snd d)
     | Err e => Err e
     end, (Agent.init "gpt-4o" (9 / 10) 10, tt)).
Proof.
  apply (@stop_returns_current_decision unit
           (sample_collaborators stop_response) "cube" "ball" 4%Z 10%Z
           (Agent.init "gpt-4o" (9 / 10) 10) tt stop_response
           (Agent.init "gpt-4o" (9 / 10) 10, tt)
           (JObj [("action", JStr "STOP")]) (JStr "STOP")).
  - cbn. lia.
  - reflexivity.
  - reflexivity.
  - reflexivity.
  - reflexivity.
Defined.

(** X14. A plan that cannot be read ends the run with the error of the
    first field that fails: a plan that is not a dict or whose [view] is not
    a dict raises TypeError, a plan without [action], [view], [az], [el] or
    [axis] raises KeyError of that key (a plan whose [action] is not
    ['STOP'], whatever else it is, is read as a capture).  Nothing is
    rendered and the agent object is left as it is. *)
Theorem malformed_plan_raises
  (World : Type) (collab : Agent.Collaborators World)
  (central target : string) (jitter_size max_steps : Z)
  (self : Agent.t) (w : World) (r : string) (s1 : Agent.t * World)
  (action : json) (e : exn) :
  (Agent.steps self < max_steps)%Z ->
  Agent.propose_view collab central target (self, w) = (Ok r, s1) ->
  Verifier.parse_answer_json (Agent.json_loads collab) r = Ok action ->
  malformed action e ->
  Agent.run collab central target jitter_size max_steps (self, w)
  = (Err e, (self, snd s1)).
Proof.
  intros Hlt Hp Ha Hm.
  rewrite (@run_first_round World collab central target jitter_size max_steps
             self w Hlt).
  rewrite (@iteration_malformed World collab central target jitter_size
             (self, w) s1 r action e Hp Ha Hm).
  pose proof (propose_view_agent collab central target (self, w)) as Hs.
  rewrite Hp in Hs. destruct s1 as [self1 w1]. cbn [fst snd] in *.
  now subst self1.
Qed.

Lemma malformed_plan_raises_witness :
  Agent.run (planning_collaborators
               (JObj [("action", JStr "CAPTURE"); ("view", JNull)]))
            "cube" "ball" 4 10 (Agent.init "gpt-4o" (9 / 10) 10, tt)
  = (Err TypeError, (Agent.init "gpt-4o" (9 / 10) 10, tt)).
Proof.
  apply (@malformed_plan_raises unit
           (planning_collaborators
              (JObj [("action", JStr "CAPTURE"); ("view", JNull)]))
           "cube" "ball" 4%Z 10%Z (Agent.init "gpt-4o" (9 / 10) 10) tt
           "<answer>plan</answer>" (Agent.init "gpt-4o" (9 / 10) 10, tt)
           (JObj [("action", JStr "CAPTURE"); ("view", JNull)]) TypeError).
  - cbn. lia.
  - reflexivity.
  - reflexivity.
  - apply plan_view_not_a_dict with (act := JStr "CAPTURE") (view := JNull).
    + reflexivity.
    + reflexivity.
    + reflexivity.
    + intros vf. discriminate.
Defined.

(** * The votes of a round *)

Lemma tally_axis_total (c : BeliefState.VoteTally) (l : option sign) :
  (total (Agent.tally_axis c l) <= total c + 1)%Z.
Proof. unfold total. destruct l as [[] |]; cbn; lia. Qed.

Lemma tally_axis_grows (c : BeliefState.VoteTally) (l : option sign) (s : sign) :
  (sget c s <= sget (Agent.tally_axis c l) s)%Z.
Proof. destruct l as [[] |], s; cbn; lia. Qed.

Lemma tally_axis_counted (c : BeliefState.VoteTally) (s : sign) :
  nonneg_tally c -> (1 <= sget (Agent.tally_axis c (Some s)) s)%Z.
Proof. intros (? & ? & ?). destruct s; cbn; lia. Qed.

Lemma tally_total (ac : BeliefState.AxisCounts) (labels : Verifier.Labels)
      (A : axis) :
  (total (aget (Agent.tally ac labels) A) <= total (aget ac A) + 1)%Z.
Proof. destruct A; cbn; apply tally_axis_total. Qed.

Lemma tally_grows (ac : BeliefState.AxisCounts) (labels l : Verifier.Labels) :
  counted l ac -> counted l (Agent.tally ac labels).
Proof.
  intros H A s Hl. specialize (H A s Hl).
  destruct A; cbn [aget Agent.tally atX atY atZ] in *;
    (eapply Z.le_trans; [exact H | apply tally_axis_grows]).
Qed.

Lemma tally_counted (ac : BeliefState.AxisCounts) (labels : Verifier.Labels) :
  nonneg_counts ac -> counted labels (Agent.tally ac labels).
Proof.
  intros H A s Hl.
  destruct A; cbn [aget Agent.tally atX atY atZ] in *; rewrite Hl;
    apply tally_axis_counted;
    [apply (H aX) | apply (H aY) | apply (H aZ)].
Qed.

Lemma is_zero_offset_origin : Agent.is_zero_offset 0 0 = true.
Proof.
  unfold Agent.is_zero_offset.
  destruct (Req_dec_T 0 0) as [_ | N]; [reflexivity | now destruct N].
Qed.

Section Votes.

Variable World : Type.
Variable collab : Agent.Collaborators World.
Variables az el focus_axis : json.
Variables central target : string.

(** Every view adds at most one vote to an axis, and the labels of the
    view at the proposed angles stay among the votes counted. *)
Lemma vote_invariant (offsets : list (R * R)) :
  forall (ac : BeliefState.AxisCounts) (view_ans : option Verifier.Labels),
    nonneg_counts ac ->
    (forall l, view_ans = Some l -> counted l ac) ->
    returns
      (Agent.vote collab az el focus_axis central target offsets ac view_ans)
      (fun r =>
         nonneg_counts (fst r)
         /\ (forall A, (total (aget (fst r) A)
                        <= total (aget ac A) + Z.of_nat (length offsets))%Z)
         /\ (forall l, snd r = Some l -> counted l (fst r))).
Proof.
  induction offsets as [| [daz del_] rest IH]; intros ac view_ans Hac Hva;
    cbn [Agent.vote].
  - intros s a [= <-]. cbn [fst snd length].
    split; [exact Hac |]. split; [intros A; lia | exact Hva].
  - apply returns_bind with (Q1 := fun _ => True); [apply returns_any |].
    intros a _.
    apply returns_bind with (Q1 := fun _ => True); [apply returns_any |].
    intros e _.
    apply returns_bind with (Q1 := fun _ => True); [apply returns_any |].
    intros img_path _.
    apply returns_bind with (Q1 := fun _ => True); [apply returns_any |].
    intros ans _. intros s r Hr.
    destruct (IH (Agent.tally ac (Verifier.parse_answer ans))
                 (if Agent.is_zero_offset daz del_
                  then Some (Verifier.parse_answer ans) else view_ans)
                 (tally_nonneg (Verifier.parse_answer ans) Hac))
      with (s := s) (a := r) as (Hn & Ht & Hl).
    + intros l. destruct (Agent.is_zero_offset daz del_).
      * intros [= <-]. now apply tally_counted.
      * intros E. apply tally_grows. now apply Hva.
    + exact Hr.
    + split; [exact Hn |]. split; [| exact Hl].
      intros A. specialize (Ht A).
      pose proof (tally_total ac (Verifier.parse_answer ans) A).
      cbn [length]. lia.
Qed.

(** The loop ends on the view at the proposed angles, so the answer of
    that view is bound when the loop is over. *)
Lemma vote_binds_view_ans (offsets : list (R * R)) :
  forall (ac : BeliefState.AxisCounts) (view_ans : option Verifier.Labels),
    returns
      (Agent.vote collab az el focus_axis central target
                  (offsets ++ [(0, 0)])%list ac view_ans)
      (fun r => snd r <> None).
Proof.
  induction offsets as [| [daz del_] rest IH]; intros ac view_ans;
    cbn [Agent.vote app];
    (apply returns_bind with (Q1 := fun _ => True); [apply returns_any |];
     intros a _;
     apply returns_bind with (Q1 := fun _ => True); [apply returns_any |];
     intros e _;
     apply returns_bind with (Q1 := fun _ => True); [apply returns_any |];
     intros img_path _;
     apply returns_bind with (Q1 := fun _ => True); [apply returns_any |];
     intros ans _).
  - rewrite is_zero_offset_origin. intros s r [= <-]. discriminate.
  - apply IH.
Qed.

(** [generate_jitter_offsets] never raises and never touches the agent. *)
Lemma jitter_loop_spec (r_az r_el : R) (m : nat) :
  forall s : Agent.t * World,
    exists offsets s',
      Agent.jitter_loop collab m r_az r_el s = (Ok offsets, s')
      /\ fst s' = fst s
      /\ length offsets = m
      /\ (uniform_in_range collab -> 0 <= r_az -> 0 <= r_el ->
          Forall (in_box r_az r_el) offsets).
Proof.
  induction m as [| m IH]; intros s; cbn [Agent.jitter_loop].
  - exists [], s. repeat split. intros _ _ _. constructor.
  - assert (Baz : uniform_in_range collab -> 0 <= r_az ->
                   - r_az
                   <= fst (Agent.random_uniform collab (- r_az) r_az (snd s))
                   <= r_az) by (intros H ?; now apply H).
    unfold Agent.mbind at 1, Agent.call at 1.
    destruct (Agent.random_uniform collab (- r_az) r_az (snd s))
      as [daz w1] eqn:E1.
    unfold Agent.mbind at 1, Agent.call at 1. cbn [fst snd] in *.
    assert (Bel : uniform_in_range collab -> 0 <= r_el ->
                   - r_el
                   <= fst (Agent.random_uniform collab (- r_el) r_el w1)
                   <= r_el) by (intros H ?; now apply H).
    destruct (Agent.random_uniform collab (- r_el) r_el w1)
      as [del_ w2] eqn:E2.
    unfold Agent.mbind at 1. cbn [fst snd] in *.
    destruct (IH (fst s, w2)) as (rest & s' & -> & Hs & Hlen & Hbox).
    exists ((daz, del_) :: rest), s'. cbn [fst snd length] in *.
    split; [reflexivity |]. split; [exact Hs |].
    split; [now rewrite Hlen |].
    intros Hu Haz Hel. constructor; [| now apply Hbox].
    split; cbn [fst snd]; [now apply Baz | now apply Bel].
Qed.

End Votes.

(** X15. The votes of a round.  The loop over [offsets + [(0, 0)]], started
    on the zero tallies, returns tallies that are not negative and count at
    most one vote an axis for each view, so at most [len(offsets) + 1]; and
    because the last view is the one at the proposed angles, [view_ans] is
    bound when the loop is over (the history entry never fails for want of
    it), and its labels are among the votes counted. *)
Theorem vote_counts_the_views
  (World : Type) (collab : Agent.Collaborators World)
  (az el focus_axis : json) (central target : string)
  (offsets : list (R * R)) (s : Agent.t * World)
  (r : BeliefState.AxisCounts * option Verifier.Labels) :
  fst (Agent.vote collab az el focus_axis central target
                  (offsets ++ [(0, 0)])%list Agent.zero_counts None s) = Ok r ->
  nonneg_counts (fst r)
  /\ (forall A, (total (aget (fst r) A) <= Z.of_nat (length offsets) + 1)%Z)
  /\ exists labels, snd r = Some labels /\ counted labels (fst r).
Proof.
  intros Hr.
  destruct (@vote_invariant World collab az el focus_axis central target
              (offsets ++ [(0, 0)])%list Agent.zero_counts None
              zero_counts_nonneg (fun l E => ltac:(discriminate E)) s r Hr)
    as (Hn & Ht & Hl).
  pose proof (@vote_binds_view_ans World collab az el focus_axis central target
                offsets Agent.zero_counts None s r Hr) as Hb.
  split; [exact Hn |]. split.
  - intros A. specialize (Ht A). rewrite length_app in Ht.
    destruct A; cbn in Ht |- *; lia.
  - destruct (snd r) as [labels |] eqn:E; [| now destruct Hb].
    exists labels. split; [reflexivity | now apply Hl].
Qed.

Lemma vote_counts_the_views_witness :
  let labels := Verifier.parse_answer "<answer>(+X)</answer>" in
  let r := (Agent.tally Agent.zero_counts labels, Some labels) in
  nonneg_counts (fst r)
  /\ (forall A, (total (aget (fst r) A) <= Z.of_nat (@length (R * R) []) + 1)%Z)
  /\ exists labels, snd r = Some labels /\ counted labels (fst r).
Proof.
  cbv zeta.
  apply (@vote_counts_the_views unit (sample_collaborators stop_response)
           (JNum 0) (JNum 0) (JStr "X") "cube" "ball" []
           (Agent.init "gpt-4o" (9 / 10) 10, tt)).
  cbn -[Agent.is_zero_offset Verifier.parse_answer Agent.tally].
  now rewrite is_zero_offset_origin.
Defined.

(** X16. [generate_jitter_offsets(m, r_az, r_el)] never raises and never
    touches the agent; it returns [m] pairs, none when [m] is zero or
    negative; and when [random.uniform(-r, r)] gives numbers of [[-r, r]],
    every pair lies in the box of half-widths [r_az] and [r_el]. *)
Theorem jitter_offsets_count_and_range
  (World : Type) (collab : Agent.Collaborators World)
  (m : Z) (r_az r_el : R) (s : Agent.t * World) :
  exists offsets s',
    Agent.generate_jitter_offsets collab m r_az r_el s = (Ok offsets, s')
    /\ fst s' = fst s
    /\ length offsets = Z.to_nat m
    /\ ((m <= 0)%Z -> offsets = [])
    /\ (uniform_in_range collab -> 0 <= r_az -> 0 <= r_el ->
        Forall (in_box r_az r_el) offsets).
Proof.
  unfold Agent.generate_jitter_offsets.
  destruct (@jitter_loop_spec World collab r_az r_el (Z.to_nat m) s)
    as (offsets & s' & H & Hs & Hlen & Hbox).
  exists offsets, s'. repeat split; try assumption.
  intros Hm. replace (Z.to_nat m) with 0%nat in Hlen by lia.
  now destruct offsets.
Qed.

Lemma jitter_offsets_count_and_range_witness :
  exists offsets s',
    Agent.generate_jitter_offsets (sample_collaborators stop_response) 2 3 3
                                  (Agent.init "gpt-4o" (9 / 10) 10, tt)
    = (Ok offsets, s')
    /\ length offsets = 2%nat
    /\ Forall (in_box 3 3) offsets.
Proof.
  destruct (@jitter_offsets_count_and_range unit
              (sample_collaborators stop_response) 2%Z 3 3
              (Agent.init "gpt-4o" (9 / 10) 10, tt))
    as (offsets & s' & H & _ & Hlen & _ & Hbox).
  exists offsets, s'. split; [exact H |]. split; [exact Hlen |].
  apply Hbox.
  - intros r w Hr. cbn. lra.
  - lra.
  - lra.
Defined.

(** * A run without jitter *)

Section NoJitter.

Variable World : Type.
Variable collab : Agent.Collaborators World.
Variable b0 : BeliefState.t.
Hypothesis wilson : BeliefState.method b0 = "wilson".
Hypothesis gamma_pos : 0 < BeliefState.gamma b0.
Variable jitter_size : Z.
Hypothesis no_jitter : (jitter_size <= 0)%Z.

Let keeps (st : Agent.t) : Prop := Agent.belief st = b0.

Lemma iteration_keeps_belief (central target : string) :
  triple keeps (Agent.iteration collab central target jitter_size)
         (fun _ => keeps) keeps.
Proof.
  unfold Agent.iteration.
  apply triple_skip with (Qv := fun _ => True);
    [apply unchanged_propose_view | apply returns_any | auto |].
  intros llm_response _.
  apply triple_skip with (Qv := fun _ => True);
    [apply unchanged_lift | apply returns_any | auto |].
  intros action _.
  apply triple_skip with (Qv := fun _ => True);
    [apply unchanged_lift | apply returns_any | auto |].
  intros act _. destruct (Json.eq_str act "STOP").
  { apply triple_ret. auto. }
  apply triple_skip with (Qv := fun _ => True);
    [apply unchanged_lift | apply returns_any | auto |].
  intros view _.
  apply triple_skip with (Qv := fun _ => True);
    [apply unchanged_lift | apply returns_any | auto |].
  intros az _.
  apply triple_skip with (Qv := fun _ => True);
    [apply unchanged_lift | apply returns_any | auto |].
  intros view' _.
  apply triple_skip with (Qv := fun _ => True);
    [apply unchanged_lift | apply returns_any | auto |].
  intros el _.
  apply triple_skip with (Qv := fun _ => True);
    [apply unchanged_lift | apply returns_any | auto |].
  intros focus_axis _.
  apply triple_skip with (Qv := fun offsets => offsets = []);
    [apply unchanged_jitter | | auto |].
  { unfold Agent.generate_jitter_offsets.
    replace (Z.to_nat jitter_size) with 0%nat by lia.
    now intros s offsets [= <-]. }
  intros offsets ->. cbn [app].
  apply triple_skip
    with (Qv := fun r : BeliefState.AxisCounts * option Verifier.Labels =>
                  nonneg_counts (fst r)
                  /\ forall A, (total (aget (fst r) A) <= 1)%Z);
    [apply unchanged_vote | | auto |].
  { intros s r Hr.
    destruct (@vote_invariant World collab az el focus_axis central target
                [(0, 0)] Agent.zero_counts None zero_counts_nonneg
                (fun l E => ltac:(discriminate E)) s r Hr) as (Hn & Ht & _).
    split; [exact Hn |]. intros A. specialize (Ht A).
    destruct A; cbn in Ht |- *; lia. }
  intros [axis_counts view_ans] [Hn Ht]. cbn [fst] in Hn, Ht.
  apply triple_bind with (Q1 := fun _ => keeps).
  { intros s Hs. unfold Agent.belief_update, keeps in *.
    assert (Hm : BeliefState.method (Agent.belief (fst s)) = "wilson")
      by now rewrite Hs.
    assert (Hg : 0 < BeliefState.gamma (Agent.belief (fst s)))
      by now rewrite Hs.
    unfold BeliefState.update.
    rewrite (@update_axis_single_vote _ aX (atX axis_counts) Hm Hg
               (Hn aX) (Ht aX)).
    rewrite (@update_axis_single_vote _ aY (atY axis_counts) Hm Hg
               (Hn aY) (Ht aY)).
    rewrite (@update_axis_single_vote _ aZ (atZ axis_counts) Hm Hg
               (Hn aZ) (Ht aZ)).
    exact Hs. }
  intros confidence_scores.
  apply triple_skip with (Qv := fun _ => True);
    [apply unchanged_get_self | apply returns_any | auto |].
  intros self _.
  apply triple_bind with (Q1 := fun _ => keeps).
  { destruct view_ans as [ans |]; intros s Hs; exact Hs. }
  intros _.
  apply triple_bind with (Q1 := fun _ => keeps).
  { intros s Hs. exact Hs. }
  intros _.
  apply triple_skip with (Qv := fun _ => True);
    [apply unchanged_get_self | apply returns_any | auto |].
  intros self' _.
  apply triple_skip with (Qv := fun _ => True);
    [apply unchanged_lift | apply returns_any | auto |].
  intros r _. apply triple_ret. auto.
Qed.

Lemma loop_keeps_belief (central target : string) (max_steps : Z)
      (fuel : nat) :
  triple keeps (Agent.loop collab fuel central target jitter_size max_steps)
         (fun _ => keeps) keeps.
Proof.
  induction fuel as [| fuel IH]; cbn [Agent.loop].
  - apply triple_ret. auto.
  - apply triple_skip with (Qv := fun _ => True);
      [apply unchanged_get_self | apply returns_any | auto |].
    intros self _. destruct (Agent.steps self <? max_steps)%Z.
    + apply triple_bind with (Q1 := fun _ => keeps);
        [apply iteration_keeps_belief |].
      intros []; [apply triple_ret; auto | exact IH].
    + apply triple_ret. auto.
Qed.

End NoJitter.

(** X17. Without jitter the Wilson agent never learns.  With
    [jitter_size <= 0] a round has the one view at the proposed angles, so
    at most one vote an axis; the Wilson lower bound of a single vote is
    [1 / (1 + z^2)], below 1/3, so for [gamma > 0] every confidence is 0
    and [update] adds nothing.  The belief after a run, whether it returned
    or raised, is the belief before it; and a fresh agent, if its run
    returns, answers [(+X, +Y, +Z)] with probabilities 1/3, whatever the
    perception model said. *)
Theorem no_jitter_wilson_never_learns
  (World : Type) (collab : Agent.Collaborators World)
  (central target : string) (jitter_size max_steps : Z) (w : World) :
  (jitter_size <= 0)%Z ->
  (forall self : Agent.t,
      BeliefState.method (Agent.belief self) = "wilson" ->
      0 < BeliefState.gamma (Agent.belief self) ->
      Agent.belief
        (fst (snd (Agent.run collab central target jitter_size max_steps
                             (self, w))))
      = Agent.belief self)
  /\ (forall (name : string) (tau kappa_min : R)
             (out : string * PerAxis R),
         fst (Agent.run collab central target jitter_size max_steps
                        (Agent.init name tau kappa_min, w)) = Ok out ->
         out = prior_answer).
Proof.
  intros Hj.
  assert (Hloop : forall self,
             BeliefState.method (Agent.belief self) = "wilson" ->
             0 < BeliefState.gamma (Agent.belief self) ->
             Agent.belief
               (fst (snd (Agent.loop collab
                            (Z.to_nat (max_steps - Agent.steps self))
                            central target jitter_size max_steps (self, w))))
             = Agent.belief self).
  { intros self Hm Hg.
    pose proof (@loop_keeps_belief World collab (Agent.belief self) Hm Hg
                  jitter_size Hj central target max_steps
                  (Z.to_nat (max_steps - Agent.steps self)) (self, w) eq_refl)
      as H.
    now destruct (Agent.loop collab _ central target jitter_size max_steps
                             (self, w)) as [[[] | e] s']. }
  split.
  - intros self Hm Hg. specialize (Hloop self Hm Hg).
    rewrite run_unfold. cbn [fst] in *.
    destruct (Agent.loop collab _ central target jitter_size max_steps
                         (self, w)) as [[[] | e] s']; [| exact Hloop].
    now destruct (BeliefState.get_decision (Agent.belief (fst s'))).
  - intros name tau kappa_min out.
    specialize (Hloop (Agent.init name tau kappa_min) eq_refl).
    rewrite run_unfold. cbn [fst Agent.init Agent.steps Agent.belief] in *.
    destruct (Agent.loop collab _ central target jitter_size max_steps
                         (Agent.init name tau kappa_min, w))
      as [[[] | e] s']; [| discriminate].
    cbn [fst snd] in Hloop. rewrite Hloop by (cbn; lra).
    unfold BeliefState.default. rewrite get_decision_init by lra.
    now intros [= <-].
Qed.

Lemma no_jitter_wilson_never_learns_witness :
  Agent.belief
    (fst (snd (Agent.run
                 (planning_collaborators
                    (JObj [("action", JStr "CAPTURE");
                           ("view", JObj [("az", JNum 0); ("el", JNum 0)]);
                           ("axis", JStr "X")]))
                 "cube" "ball" 0 10 (Agent.init "gpt-4o" (9 / 10) 10, tt))))
  = Agent.belief (Agent.init "gpt-4o" (9 / 10) 10).
Proof.
  apply (proj1 (@no_jitter_wilson_never_learns unit
                  (planning_collaborators
                     (JObj [("action", JStr "CAPTURE");
                            ("view", JObj [("az", JNum 0); ("el", JNum 0)]);
                            ("axis", JStr "X")]))
                  "cube" "ball" 0%Z 10%Z tt ltac:(lia))
               (Agent.init "gpt-4o" (9 / 10) 10)).
  - reflexivity.
  - cbn. lra.
Defined.

(** * The messages of a request *)

Lemma enumerate_from_app (A : Type) (l1 l2 : list A) :
  forall i,
    Messages.enumerate_from i (l1 ++ l2)%list
    = (Messages.enumerate_from i l1
       ++ Messages.enumerate_from (i + length l1) l2)%list.
Proof.
  induction l1 as [| x l1 IH]; intros i; cbn [Messages.enumerate_from app length].
  - now rewrite Nat.add_0_r.
  - rewrite IH. now replace (S i + length l1)%nat with (i + S (length l1))%nat by lia.
Qed.

Lemma enumerate_from_index (A : Type) (l : list A) :
  forall i im, In im (Messages.enumerate_from i l) ->
               (i <= fst im < i + length l)%nat.
Proof.
  induction l as [| x l IH]; intros i im; cbn [Messages.enumerate_from length In].
  - intros [].
  - intros [<- | H]; [cbn; lia |]. apply IH in H. lia.
Qed.

Lemma enumerate_from_snd (A : Type) (l : list A) :
  forall i, map snd (Messages.enumerate_from i l) = l.
Proof.
  induction l as [| x l IH]; intros i; cbn; [reflexivity | now rewrite IH].
Qed.

Lemma fold_max_bound (l : list nat) :
  forall k x,
    (x <= k)%nat -> (forall y, In y l -> (y <= k)%nat) ->
    (fold_left Nat.max l x <= k)%nat.
Proof.
  induction l as [| y l IH]; intros k x Hx Hl; cbn [fold_left]; [exact Hx |].
  apply IH.
  - pose proof (Hl y (or_introl eq_refl)). lia.
  - intros y' Hy'. apply Hl. now right.
Qed.

(** The greatest of indices that end on the greatest one. *)
Lemma py_max_last (l : list nat) (k : nat) :
  (forall y, In y l -> (y <= k)%nat) ->
  Messages.py_max (l ++ [k]) = Ok k.
Proof.
  intros Hl. destruct l as [| x l]; [reflexivity |].
  cbn [app Messages.py_max]. rewrite fold_left_app. cbn [fold_left].
  f_equal. apply Nat.max_r. apply fold_max_bound.
  - apply Hl. now left.
  - intros y Hy. apply Hl. now right.
Qed.

Lemma filter_none (A : Type) (f : A -> bool) (l : list A) :
  (forall x, In x l -> f x = false) -> filter f l = [].
Proof.
  induction l as [| x l IH]; intros H; cbn [filter]; [reflexivity |].
  rewrite (H x (or_introl eq_refl)). apply IH. intros y Hy. apply H. now right.
Qed.

Lemma enumerate_from_In (A : Type) (l : list A) :
  forall i im, In im (Messages.enumerate_from i l) -> In (snd im) l.
Proof.
  intros i im H. rewrite <- (enumerate_from_snd l i). now apply in_map.
Qed.

Lemma last_user_idx_split (pre post : list Messages.Message)
      (m : Messages.Message) :
  Messages.role m = "user" ->
  (forall m', In m' post -> Messages.role m' <> "user") ->
  Messages.last_user_idx (pre ++ m :: post) = Ok (length pre).
Proof.
  intros Hm Hpost. unfold Messages.last_user_idx, Messages.enumerate.
  rewrite enumerate_from_app, filter_app, map_app.
  cbn [Messages.enumerate_from filter snd plus]. rewrite Hm, String.eqb_refl.
  rewrite (@filter_none _ _ (Messages.enumerate_from (S (length pre)) post)).
  - cbn [map fst]. apply py_max_last.
    intros y Hy. apply in_map_iff in Hy as (im & <- & Him).
    apply filter_In in Him as [Him _].
    apply enumerate_from_index in Him. lia.
  - intros im Him. apply String.eqb_neq. apply Hpost.
    now apply enumerate_from_In in Him.
Qed.

Lemma map_enumerate_keep (f : nat * Messages.Message -> Messages.Message)
      (l : list Messages.Message) (i : nat) :
  (forall im, In im (Messages.enumerate_from i l) -> f im = snd im) ->
  map f (Messages.enumerate_from i l) = l.
Proof.
  intros H. rewrite <- (enumerate_from_snd l i) at 2.
  apply map_ext_in. exact H.
Qed.

(** X18. [call_vlm] puts the image into the last user message and into no
    other: the messages before and after it are sent as they are, also
    earlier user messages; and with no user message in the list the call
    raises the ValueError of [max] on an empty sequence before any request
    is made. *)
Theorem image_goes_into_last_user_message (data_url : string) :
  (forall (pre post : list Messages.Message) (m : Messages.Message),
      Messages.role m = "user" ->
      (forall m', In m' post -> Messages.role m' <> "user") ->
      Messages.new_msgs data_url (pre ++ m :: post)
      = Ok (pre
            ++ Messages.mkMessage
                 "user" (Messages.WithImage (Messages.content m) data_url)
            :: post)%list)
  /\ (forall messages : list Messages.Message,
         (forall m, In m messages -> Messages.role m <> "user") ->
         exists msg,
           Messages.new_msgs data_url messages = Err (ValueError msg)).
Proof.
  split.
  - intros pre post m Hm Hpost. unfold Messages.new_msgs.
    rewrite (@last_user_idx_split pre post m Hm Hpost). cbn [bind]. f_equal.
    unfold Messages.enumerate.
    rewrite enumerate_from_app, map_app.
    cbn [Messages.enumerate_from map fst snd plus]. rewrite Nat.eqb_refl.
    rewrite !map_enumerate_keep; [reflexivity | |].
    + intros im Him. apply enumerate_from_index in Him.
      destruct (Nat.eqb_spec (fst im) (length pre)); [lia | reflexivity].
    + intros im Him. apply enumerate_from_index in Him.
      destruct (Nat.eqb_spec (fst im) (length pre)); [lia | reflexivity].
  - intros messages Hno. unfold Messages.new_msgs, Messages.last_user_idx.
    rewrite filter_none.
    + eexists. reflexivity.
    + intros im Him. apply String.eqb_neq. apply Hno.
      now apply enumerate_from_In in Him.
Qed.

Lemma image_goes_into_last_user_message_witness :
  Messages.new_msgs
    "data:image/png;base64,AAAA"
    ([Messages.mkMessage "user" (Messages.Text "first");
      Messages.mkMessage "assistant" (Messages.Text "seen")]
     ++ Messages.mkMessage "user" (Messages.Text "second")
     :: [Messages.mkMessage "system" (Messages.Text "rules")])
  = Ok ([Messages.mkMessage "user" (Messages.Text "first");
         Messages.mkMessage "assistant" (Messages.Text "seen")]
        ++ Messages.mkMessage
             "user" (Messages.WithImage (Messages.Text "second")
                                        "data:image/png;base64,AAAA")
        :: [Messages.mkMessage "system" (Messages.Text "rules")])%list.
Proof.
  apply (proj1 (image_goes_into_last_user_message "data:image/png;base64,AAAA")).
  - reflexivity.
  - intros m' [<- | []]. discriminate.
Defined.


(** * The camera poses *)


Lemma range_length (n : Z) : length (PyFormat.range n) = Z.to_nat n.
Proof. unfold PyFormat.range. now rewrite length_map, length_seq. Qed.



Lemma combine_map_self (A B : Type) (f : A -> B) (l : list A) :
  combine l (map f l) = map (fun x => (x, f x)) l.
Proof. induction l as [| x l IH]; cbn; [reflexivity | now rewrite IH]. Qed.

Lemma flat_map_map (A B C : Type) (g : A -> B) (f : B -> list C) (l : list A) :
  flat_map f (map g l) = flat_map (fun x => f (g x)) l.
Proof. induction l as [| x l IH]; cbn; [reflexivity | now rewrite IH]. Qed.

Lemma flat_map_length_rows (A B : Type) (f : A -> list B) (n : nat)
      (l : list A) :
  (forall x, length (f x) = n) ->
  length (flat_map f l) = (length l * n)%nat.
Proof.
  intros H. induction l as [| x l IH]; cbn [flat_map length];
    [reflexivity |].
  rewrite length_app, H, IH. cbn. lia.
Qed.

Section Views.

Variable track_euler : ViewGenerator.Vector -> R * R * R.
Variable self : ViewGenerator.t.

(** [spherical] is the grid of its azimuths and elevations. *)
Lemma spherical_grid (num_azimuth num_elevation : Z)
      (azimuths elevations : option (list R)) :
  ViewGenerator.spherical track_euler self num_azimuth num_elevation
                          azimuths elevations
  = bind (match azimuths with
          | None =>
              PyFormat.comprehension
                (fun i => float_div (IZR i * 360) (IZR num_azimuth))
                (PyFormat.range num_azimuth)
          | Some l => Ok l
          end)
         (fun azs =>
            bind (match elevations with
                  | None =>
                      PyFormat.comprehension
                        (fun i => float_div (IZR i * 180)
                                            (IZR (num_elevation - 1)))
                        (PyFormat.range num_elevation)
                  | Some l => Ok l
                  end)
                 (fun els => Ok (sphere_grid track_euler self azs els))).
Proof.
  unfold ViewGenerator.spherical, sphere_grid.
  match goal with
  | |- bind ?a _ = bind ?a _ => destruct a as [azs | e]; [| reflexivity]
  end.
  cbn [bind].
  match goal with
  | |- bind ?a _ = bind ?a _ => destruct a as [els | e]; [| reflexivity]
  end.
  cbn [bind]. f_equal.
  rewrite !combine_map_self, flat_map_map.
  apply flat_map_ext. intros deg_el. now rewrite map_map.
Qed.

Lemma sphere_view_on_sphere (deg_az deg_el : R) :
  on_sphere self (sphere_view track_euler self deg_az deg_el).
Proof.
  unfold on_sphere, sphere_view, ViewGenerator._make_view, dist2.
  cbn [ViewGenerator.position].
  destruct (ViewGenerator.scene_center self) as [[cx cy] cz].
  cbn [ViewGenerator.vadd ViewGenerator.vsub].
  set (D := ViewGenerator.camera_distance self).
  set (phi := ViewGenerator.radians deg_el).
  set (theta := ViewGenerator.radians deg_az).
  pose proof (sin2_cos2 phi) as Hp. pose proof (sin2_cos2 theta) as Ht.
  unfold Rsqr in Hp, Ht.
  replace ((cx + D * sin phi * cos theta - cx)
           * (cx + D * sin phi * cos theta - cx)
           + (cy + D * sin phi * sin theta - cy)
             * (cy + D * sin phi * sin theta - cy)
           + (cz + D * cos phi - cz) * (cz + D * cos phi - cz))
    with (D * D * (sin phi * sin phi
                   * (sin theta * sin theta + cos theta * cos theta)
                   + cos phi * cos phi)) by ring.
  rewrite Ht, Rmult_1_r, Hp. ring.
Qed.

Lemma sphere_grid_on_sphere (azimuths elevations : list R) :
  Forall (on_sphere self) (sphere_grid track_euler self azimuths elevations).
Proof.
  unfold sphere_grid. apply Forall_flat_map. apply Forall_forall.
  intros deg_el _. apply Forall_map. apply Forall_forall.
  intros deg_az _. apply sphere_view_on_sphere.
Qed.

Lemma sphere_grid_length (azimuths elevations : list R) :
  length (sphere_grid track_euler self azimuths elevations)
  = (length elevations * length azimuths)%nat.
Proof.
  unfold sphere_grid. apply flat_map_length_rows.
  intros deg_el. apply length_map.
Qed.

End Views.

(** X20. The views of [spherical] lie on the sphere: whatever the
    arguments, when [spherical] returns, the camera of every view is at the
    camera distance from the scene centre; and with the azimuths and the
    elevations given it returns one view for every pair of an elevation
    and an azimuth. *)
Theorem spherical_views_on_sphere
  (track_euler : ViewGenerator.Vector -> R * R * R) (self : ViewGenerator.t)
  (num_azimuth num_elevation : Z) :
  (forall (azimuths elevations : option (list R))
          (views : list ViewGenerator.View),
      ViewGenerator.spherical track_euler self num_azimuth num_elevation
                              azimuths elevations = Ok views ->
      Forall (on_sphere self) views)
  /\ (forall azimuths elevations : list R,
         exists views,
           ViewGenerator.spherical track_euler self num_azimuth num_elevation
                                   (Some azimuths) (Some elevations)
           = Ok views
           /\ length views = (length elevations * length azimuths)%nat).
Proof.
  split.
  - intros azimuths elevations views. rewrite spherical_grid.
    match goal with
    | |- bind ?a _ = _ -> _ => destruct a as [azs | e]; [| discriminate]
    end.
    cbn [bind].
    match goal with
    | |- bind ?a _ = _ -> _ => destruct a as [els | e]; [| discriminate]
    end.
    cbn [bind]. intros [= <-]. apply sphere_grid_on_sphere.
  - intros azimuths elevations. rewrite spherical_grid. cbn [bind].
    eexists. split; [reflexivity | apply sphere_grid_length].
Qed.

Lemma spherical_views_on_sphere_witness :
  Forall (on_sphere (ViewGenerator.mk (0, 0, 0) 5))
         (sphere_grid (fun _ => (0, 0, 0)) (ViewGenerator.mk (0, 0, 0) 5)
                      [0; 90] [45]).
Proof.
  apply (proj1 (spherical_views_on_sphere
                  (fun _ => (0, 0, 0)) (ViewGenerator.mk (0, 0, 0) 5) 8 4)
               (Some [0; 90]) (Some [45])).
  rewrite spherical_grid. reflexivity.
Defined.

Section DefaultGrid.

Variable track_euler : ViewGenerator.Vector -> R * R * R.
Variable self : ViewGenerator.t.

Lemma radians_0 : ViewGenerator.radians 0 = 0.
Proof. unfold ViewGenerator.radians. ring. Qed.





End DefaultGrid.



Lemma comprehension_length (A B : Type) (f : A -> Result B) (l : list A) :
  forall ys, PyFormat.comprehension f l = Ok ys -> length ys = length l.
Proof.
  induction l as [| x l IH]; intros ys; cbn [PyFormat.comprehension].
  - now intros [= <-].
  - destruct (f x) as [y | e]; [| discriminate]. cbn [bind].
    destruct (PyFormat.comprehension f l) as [ys' | e]; [| discriminate].
    cbn [bind]. intros [= <-]. cbn [length]. now rewrite (IH ys' eq_refl).
Qed.

Lemma comprehension_Forall (A B : Type) (f : A -> Result B) (P : B -> Prop)
      (l : list A) :
  (forall x y, f x = Ok y -> P y) ->
  forall ys, PyFormat.comprehension f l = Ok ys -> Forall P ys.
Proof.
  intros H. induction l as [| x l IH]; intros ys; cbn [PyFormat.comprehension].
  - intros [= <-]. constructor.
  - destruct (f x) as [y | e] eqn:E; [| discriminate]. cbn [bind].
    destruct (PyFormat.comprehension f l) as [ys' | e]; [| discriminate].
    cbn [bind]. intros [= <-]. constructor; [now apply (H x) | now apply IH].
Qed.

Lemma float_div_inv (x y q : R) : float_div x y = Ok q -> y <> 0 /\ q = x / y.
Proof.
  unfold float_div. destruct (Req_dec_T y 0); [discriminate |].
  intros [= <-]. now split.
Qed.

(** X22. The views of [circular].  With [num_angles = 0] the default
    angles are none and the call returns no view, but any angle given
    raises ZeroDivisionError; otherwise the call returns one view for each
    angle, with the camera on the circle of radius the camera distance
    around the vertical axis through the scene centre, at the height
    [camera_distance * elevation]. *)
Theorem circular_views_on_circle
  (track_euler : ViewGenerator.Vector -> R * R * R) (self : ViewGenerator.t)
  (num_angles : Z) (elevation : R) :
  ViewGenerator.circular track_euler self 0 None elevation = Ok []
  /\ (forall (i : Z) (rest : list Z),
         ViewGenerator.circular track_euler self 0 (Some (i :: rest)) elevation
         = Err ZeroDivisionError)
  /\ (num_angles <> 0%Z ->
      forall angles_to_render : option (list Z),
      exists views,
        ViewGenerator.circular track_euler self num_angles angles_to_render
                               elevation = Ok views
        /\ length views
           = match angles_to_render with
             | None => Z.to_nat num_angles
             | Some l => length l
             end
        /\ Forall (on_circle self elevation) views).
Proof.
  split; [reflexivity |]. split.
  - intros i rest. unfold ViewGenerator.circular.
    cbn [PyFormat.comprehension]. unfold float_div at 1.
    destruct (Req_dec_T (IZR 0) 0) as [_ | N]; [reflexivity | now destruct N].
  - intros Hn angles_to_render. unfold ViewGenerator.circular.
    set (angles := match angles_to_render with
                   | None => PyFormat.range num_angles
                   | Some l => l
                   end).
    match goal with
    | |- context [PyFormat.comprehension ?f angles] => set (body := f)
    end.
    assert (Hbody : forall i, exists v, body i = Ok v /\ on_circle self elevation v).
    { intros i. unfold body, float_div.
      destruct (Req_dec_T (IZR num_angles) 0) as [E | _];
        [apply eq_IZR in E; contradiction |].
      cbn [bind]. eexists. split; [reflexivity |].
      unfold on_circle, ViewGenerator._make_view. cbn [ViewGenerator.position].
      destruct (ViewGenerator.scene_center self) as [[cx cy] cz].
      cbn [ViewGenerator.vadd ViewGenerator.vsub].
      set (theta := IZR i / IZR num_angles * PI * 2).
      set (D := ViewGenerator.camera_distance self).
      pose proof (sin2_cos2 theta) as Ht. unfold Rsqr in Ht.
      split; [| ring].
      replace ((cx + cos theta * D - cx) * (cx + cos theta * D - cx)
               + (cy + sin theta * D - cy) * (cy + sin theta * D - cy))
        with (D * D * (sin theta * sin theta + cos theta * cos theta)) by ring.
      rewrite Ht. ring. }
    assert (Hok : exists views, PyFormat.comprehension body angles = Ok views).
    { clearbody body. induction angles as [| i l IH];
        cbn [PyFormat.comprehension]; [now exists [] |].
      destruct (Hbody i) as (v & -> & _). destruct IH as (vs & ->).
      cbn [bind]. now eexists. }
    destruct Hok as (views & Hviews). exists views.
    split; [exact Hviews |]. split.
    + rewrite (comprehension_length _ _ Hviews). unfold angles.
      destruct angles_to_render; [reflexivity | apply range_length].
    + apply (comprehension_Forall body (on_circle self elevation) angles);
        [| exact Hviews].
      intros i v Hv. destruct (Hbody i) as (v' & Hv' & Hc). congruence.
Qed.

Lemma circular_views_on_circle_witness :
  exists views,
    ViewGenerator.circular (fun _ => (0, 0, 0)) (ViewGenerator.mk (0, 0, 0) 5)
                           6 None (1 / 2) = Ok views
    /\ length views = 6%nat
    /\ Forall (on_circle (ViewGenerator.mk (0, 0, 0) 5) (1 / 2)) views.
Proof.
  apply (proj2 (proj2 (circular_views_on_circle
                         (fun _ => (0, 0, 0))
                         (ViewGenerator.mk (0, 0, 0) 5) 6 (1 / 2)))
               ltac:(lia) None).
Defined.

(** ** Modes *)

Lemma lower_char_idempotent (c : ascii) :
  PyFormat.lower_char (PyFormat.lower_char c) = PyFormat.lower_char c.
Proof. destruct c as [[] [] [] [] [] [] [] []]; reflexivity. Qed.

Lemma lower_idempotent (s : string) :
  PyFormat.lower (PyFormat.lower s) = PyFormat.lower s.
Proof.
  induction s as [| c s IH]; cbn [PyFormat.lower]; [reflexivity |].
  now rewrite lower_char_idempotent, IH.
Qed.

Lemma fn_map_get_modes (key : string) :
  ~ In key modes ->
  ViewGenerator.fn_map_get key ViewGenerator.fn_map = None.
Proof.
  intros H. unfold ViewGenerator.fn_map, ViewGenerator.fn_map_get.
  repeat match goal with
         | |- context [String.eqb ?k key] =>
             destruct (String.eqb_spec k key) as [E | _];
               [exfalso; apply H; rewrite <- E; cbn; tauto |]
         end.
  reflexivity.
Qed.

(** X23. The mode of [generate] is read without regard to case; a mode
    that in lower case is none of 'circle', '3d', 'sphere', '2d' and
    'orthographic' raises ValueError, whatever the keyword arguments;
    '3d' is another name of 'circle' and '2d' of 'orthographic'. *)
Theorem generate_mode_dispatch
  (track_euler : ViewGenerator.Vector -> R * R * R) (self : ViewGenerator.t)
  (mode : string) (kwargs : ViewGenerator.Kwargs) :
  ViewGenerator.generate track_euler self mode kwargs
  = ViewGenerator.generate track_euler self (PyFormat.lower mode) kwargs
  /\ (~ In (PyFormat.lower mode) modes ->
      ViewGenerator.generate track_euler self mode kwargs
      = Err ViewGenerator.mode_error)
  /\ ViewGenerator.generate track_euler self "3d" kwargs
     = ViewGenerator.generate track_euler self "circle" kwargs
  /\ ViewGenerator.generate track_euler self "2d" kwargs
     = ViewGenerator.generate track_euler self "orthographic" kwargs.
Proof.
  split; [| split; [| split; reflexivity]].
  - unfold ViewGenerator.generate. now rewrite lower_idempotent.
  - intros H. unfold ViewGenerator.generate.
    now rewrite (fn_map_get_modes H).
Qed.

Lemma generate_mode_dispatch_witness :
  ViewGenerator.generate (fun _ => (0, 0, 0)) (ViewGenerator.mk (0, 0, 0) 5)
                         "Cube" ViewGenerator.no_kwargs
  = Err ViewGenerator.mode_error.
Proof.
  apply (proj1 (proj2 (generate_mode_dispatch
                         (fun _ => (0, 0, 0)) (ViewGenerator.mk (0, 0, 0) 5)
                         "Cube" ViewGenerator.no_kwargs))).
  cbn. intros [H | [H | [H | [H | [H | []]]]]]; discriminate H.
Defined.

(** ** The rotation of the camera and the image of a view *)

Lemma apply_camera_rotation_oblique (views : list ViewGenerator.View)
      (rotation_angle : R) :
  Forall oblique views ->
  Render.apply_camera_rotation views rotation_angle = views.
Proof.
  intros H. unfold Render.apply_camera_rotation.
  rewrite <- (map_id views) at 2. apply map_ext_in.
  intros v Hv. rewrite Forall_forall in H.
  destruct (H v Hv) as (F & S & T). rewrite F, S, T.
  destruct v as [n p [[r0 r1] r2] a]. reflexivity.
Qed.

Lemma sphere_view_oblique
      (track_euler : ViewGenerator.Vector -> R * R * R)
      (self : ViewGenerator.t) (deg_az deg_el : R) :
  oblique (sphere_view track_euler self deg_az deg_el).
Proof. repeat split. Qed.

Section Oblique.

Variable track_euler : ViewGenerator.Vector -> R * R * R.
Variable self : ViewGenerator.t.

Lemma spherical_oblique (num_azimuth num_elevation : Z)
      (azimuths elevations : option (list R))
      (views : list ViewGenerator.View) :
  ViewGenerator.spherical track_euler self num_azimuth num_elevation
                          azimuths elevations = Ok views ->
  Forall oblique views.
Proof.
  rewrite spherical_grid.
  match goal with
  | |- bind ?a _ = _ -> _ => destruct a as [azs | e]; [| discriminate]
  end.
  cbn [bind].
  match goal with
  | |- bind ?a _ = _ -> _ => destruct a as [els | e]; [| discriminate]
  end.
  cbn [bind]. intros [= <-]. unfold sphere_grid.
  apply Forall_flat_map, Forall_forall. intros deg_el _.
  apply Forall_map, Forall_forall. intros deg_az _.
  apply sphere_view_oblique.
Qed.

Lemma circular_oblique (num_angles : Z) (angles_to_render : option (list Z))
      (elevation : R) (views : list ViewGenerator.View) :
  ViewGenerator.circular track_euler self num_angles angles_to_render
                         elevation = Ok views ->
  Forall oblique views.
Proof.
  unfold ViewGenerator.circular. apply comprehension_Forall.
  intros i v. destruct (float_div (IZR i) (IZR num_angles)); [| discriminate].
  cbn [bind]. intros [= <-]. repeat split.
Qed.

Lemma generate_oblique (mode : string) (kwargs : ViewGenerator.Kwargs)
      (views : list ViewGenerator.View) :
  PyFormat.lower mode <> "2d" -> PyFormat.lower mode <> "orthographic" ->
  ViewGenerator.generate track_euler self mode kwargs = Ok views ->
  Forall oblique views.
Proof.
  intros H2 Ho. unfold ViewGenerator.generate.
  unfold ViewGenerator.fn_map, ViewGenerator.fn_map_get.
  repeat match goal with
         | |- context [String.eqb ?k (PyFormat.lower mode)] =>
             destruct (String.eqb_spec k (PyFormat.lower mode)) as [E | _]
         end;
    try congruence;
    try discriminate;
    match goal with
    | |- (if ?c then _ else _) = _ -> _ => destruct c; [discriminate |]
    end;
    (apply circular_oblique || apply spherical_oblique).
Qed.

End Oblique.

(** X24. [rotation_angle] turns the camera of the orthographic views only.
    For every mode but '2d' and 'orthographic' the views that
    [focus_camera_and_render] renders are the views that [generate]
    returns, whatever the angle: the views of [circular] and [spherical]
    are never named 'front', 'side' or 'top'.  For the orthographic views
    the angle is added, in radians, to the second Euler angle of 'front'
    and of 'side' and to the third of 'top'; positions and names stay. *)
Theorem rotation_turns_only_orthographic_views
  (track_euler : ViewGenerator.Vector -> R * R * R)
  (scene_center : ViewGenerator.Vector) (camera_distance rotation_angle : R) :
  (forall (vg_mode : string) (view_kwargs : ViewGenerator.Kwargs),
      PyFormat.lower vg_mode <> "2d" ->
      PyFormat.lower vg_mode <> "orthographic" ->
      Render.views track_euler scene_center camera_distance rotation_angle
                   vg_mode view_kwargs
      = ViewGenerator.generate
          track_euler (ViewGenerator.mk scene_center camera_distance)
          vg_mode view_kwargs)
  /\ (let vg := ViewGenerator.mk scene_center camera_distance in
      let front := ViewGenerator.vadd scene_center (0, - camera_distance, 0) in
      let side := ViewGenerator.vadd scene_center (camera_distance, 0, 0) in
      let top := ViewGenerator.vadd scene_center (0, 0, camera_distance) in
      Render.views track_euler scene_center camera_distance rotation_angle
                   "2d" ViewGenerator.no_kwargs
      = Ok [ViewGenerator.mkView
              "front" front
              (turned 1 rotation_angle
                      (ViewGenerator._compute_rotation track_euler vg front))
              ["X"; "Z"];
            ViewGenerator.mkView
              "side" side
              (turned 1 rotation_angle
                      (ViewGenerator._compute_rotation track_euler vg side))
              ["Y"; "Z"];
            ViewGenerator.mkView
              "top" top
              (turned 2 rotation_angle
                      (ViewGenerator._compute_rotation track_euler vg top))
              ["X"; "Y"]]).
Proof.
  split.
  - intros vg_mode view_kwargs H2 Ho. unfold Render.views.
    destruct (ViewGenerator.generate
                track_euler (ViewGenerator.mk scene_center camera_distance)
                vg_mode view_kwargs) as [views | e] eqn:E; [| reflexivity].
    cbn [bind]. destruct (Req_dec_T rotation_angle 0); [reflexivity |].
    f_equal. apply apply_camera_rotation_oblique.
    exact (generate_oblique _ _ _ _ H2 Ho E).
  - cbv zeta. unfold Render.views.
    change (ViewGenerator.generate
              track_euler (ViewGenerator.mk scene_center camera_distance)
              "2d" ViewGenerator.no_kwargs)
      with (Ok (ViewGenerator.orthographic
                  track_euler
                  (ViewGenerator.mk scene_center camera_distance))).
    cbn [bind]. f_equal.
    unfold ViewGenerator.orthographic, ViewGenerator._make_view.
    cbn [ViewGenerator.scene_center ViewGenerator.camera_distance].
    set (vg := ViewGenerator.mk scene_center camera_distance).
    destruct (ViewGenerator._compute_rotation
                track_euler vg
                (ViewGenerator.vadd scene_center (0, - camera_distance, 0)))
      as [[f0 f1] f2] eqn:Ef.
    destruct (ViewGenerator._compute_rotation
                track_euler vg
                (ViewGenerator.vadd scene_center (camera_distance, 0, 0)))
      as [[s0 s1] s2] eqn:Es.
    destruct (ViewGenerator._compute_rotation
                track_euler vg
                (ViewGenerator.vadd scene_center (0, 0, camera_distance)))
      as [[t0 t1] t2] eqn:Et.
    destruct (Req_dec_T rotation_angle 0) as [-> | _].
    + unfold turned. rewrite radians_0, !Rplus_0_r. reflexivity.
    + unfold Render.apply_camera_rotation.
      cbn [map ViewGenerator.name ViewGenerator.rotation
               ViewGenerator.position ViewGenerator.visible_axes].
      reflexivity.
Qed.

Lemma rotation_turns_only_orthographic_views_witness :
  Render.views (fun _ => (0, 0, 0)) (0, 0, 0) 5 45 "Sphere"
               (ViewNavigationEnv.view_kwargs 30 60)
  = ViewGenerator.generate (fun _ => (0, 0, 0)) (ViewGenerator.mk (0, 0, 0) 5)
                           "Sphere" (ViewNavigationEnv.view_kwargs 30 60).
Proof.
  apply (proj1 (rotation_turns_only_orthographic_views
                  (fun _ => (0, 0, 0)) (0, 0, 0) 5 45)).
  - discriminate.
  - discriminate.
Defined.

(** X25. [capture] returns the path of the image that it has had rendered.
    For the keyword arguments of [capture], [focus_camera_and_render]
    renders one view, with the camera on the sphere around the scene
    centre, and writes its image to the path that [capture] returns. *)
Theorem capture_returns_rendered_path
  (track_euler : ViewGenerator.Vector -> R * R * R)
  (env : ViewNavigationEnv.t)
  (scene_center : ViewGenerator.Vector) (camera_distance : R)
  (azimuth elevation : R) :
  exists view,
    Render.views track_euler scene_center camera_distance 0 "sphere"
                 (ViewNavigationEnv.view_kwargs azimuth elevation)
    = Ok [view]
    /\ Render.filepath (ViewNavigationEnv.output_path env)
                       (ViewNavigationEnv.object_id env) view
       = ViewNavigationEnv.capture_path env azimuth elevation
    /\ on_sphere (ViewGenerator.mk scene_center camera_distance) view.
Proof.
  exists (sphere_view track_euler
                      (ViewGenerator.mk scene_center camera_distance)
                      azimuth elevation).
  split; [| split].
  - unfold Render.views.
    change (ViewGenerator.generate
              track_euler (ViewGenerator.mk scene_center camera_distance)
              "sphere" (ViewNavigationEnv.view_kwargs azimuth elevation))
      with (ViewGenerator.spherical
              track_euler (ViewGenerator.mk scene_center camera_distance)
              8 4 (Some [azimuth]) (Some [elevation])).
    rewrite spherical_grid. cbn [bind].
    destruct (Req_dec_T 0 0) as [_ | N]; [reflexivity | now destruct N].
  - unfold Render.filepath, ViewNavigationEnv.capture_path, sphere_view,
      ViewGenerator._make_view.
    cbn [ViewGenerator.name]. f_equal.
    rewrite !append_assoc. reflexivity.
  - apply sphere_view_on_sphere.
Qed.
